(** * Voxta voice-command classifier: a shallow embedding of
      [python/ai_voice_processor.py] ([EnhancedAIVoiceProcessor]).

    The development follows the Python module top-down:
    - characters and the [str] methods the classifier calls
      ([lower], [strip], [split], [join], [replace], [in]);
    - the fragment of [re] used by the pattern tables (a backtracking
      matcher with Python's priority order, [re.search], [re.findall]);
    - [difflib.SequenceMatcher.ratio];
    - the intent registry [command_patterns];
    - [_preprocess_text], [_calculate_confidence], [_fuzzy_match_intent],
      [_extract_bid_amount], [process_command] and the history update of
      [process_voice_command];
    - the properties of the specification, one theorem each.

    Conventions.  A Python [str] is a list of characters; a character is an
    8-bit code point read as Latin-1 (U+0000..U+00FF), with Python's own
    classification of those code points.  A Python [float] is modelled by
    the rational it stands for ([Q]); the rounding of floating-point
    arithmetic is not modelled.  The amounts the classifier parses are
    multiples of 0.01 and are compared with 0, 0.01, 10, 10000 and
    10000000 only, for which rounding changes no comparison.  A raised
    exception is an explicit [Raises] outcome. *)

From Stdlib Require Import String.
From Stdlib Require Import List Ascii Bool Arith ZArith QArith Qminmax Lia Lqa.
Import ListNotations.
Close Scope Q_scope.

(** ** Characters *)

Module Char.

Definition code (c : ascii) : nat := nat_of_ascii c.

Definition between (lo hi : nat) (c : ascii) : bool :=
  (lo <=? code c) && (code c <=? hi).

(** [str.isspace] on U+0000..U+00FF; also what [\s], [str.split] and
    [str.strip] use: TAB..CR, FS..US, SPACE, NEL, NBSP. *)
Definition isspace (c : ascii) : bool :=
  between 9 13 c || between 28 32 c || (code c =? 133) || (code c =? 160).

(** [\d] of [re] on a [str] pattern: the decimal digits. *)
Definition isdigit (c : ascii) : bool := between 48 57 c.

Definition isupper_ascii (c : ascii) : bool := between 65 90 c.

(** The code points that [str.lower] changes: A-Z, U+00C0..U+00D6 and
    U+00D8..U+00DE; each moves up by 32. *)
Definition hasupper (c : ascii) : bool :=
  between 65 90 c || between 192 214 c || between 216 222 c.

Definition lower (c : ascii) : ascii :=
  if hasupper c then ascii_of_nat (code c + 32) else c.

(** [\w] of [re] on a [str] pattern ([str.isalnum] or underscore). *)
Definition isword (c : ascii) : bool :=
  between 48 57 c || between 65 90 c || (code c =? 95) || between 97 122 c
  || (code c =? 170) || between 178 179 c || (code c =? 181)
  || between 185 186 c || between 188 190 c || between 192 214 c
  || between 216 246 c || between 248 255 c.

Definition eqb (a b : ascii) : bool := Ascii.eqb a b.

End Char.

(** ** Strings *)

Definition str := list ascii.

(** A string literal. *)
Definition lit (x : String.string) : str := String.list_ascii_of_string x.
Arguments lit x%_string_scope.

Module Str.

Fixpoint eqb (a b : str) : bool :=
  match a, b with
  | [], [] => true
  | x :: a', y :: b' => Char.eqb x y && eqb a' b'
  | _, _ => false
  end.

(** [s.lower()] *)
Definition lower (s : str) : str := map Char.lower s.

(** [s.lstrip()], [s.rstrip()], [s.strip()] *)
Fixpoint lstrip (s : str) : str :=
  match s with
  | c :: s' => if Char.isspace c then lstrip s' else s
  | [] => []
  end.

(** A character stays if it is not whitespace or if a character after
    it stays. *)
Fixpoint rstrip (s : str) : str :=
  match s with
  | [] => []
  | c :: s' =>
      match rstrip s' with
      | [] => if Char.isspace c then [] else [c]
      | r => c :: r
      end
  end.

Definition strip (s : str) : str := rstrip (lstrip s).

(** [s.startswith(p)] *)
Fixpoint startswith (p s : str) : bool :=
  match p, s with
  | [], _ => true
  | x :: p', y :: s' => Char.eqb x y && startswith p' s'
  | _ :: _, [] => false
  end.

(** [needle in hay] *)
Fixpoint contains (needle hay : str) : bool :=
  startswith needle hay ||
  match hay with
  | [] => false
  | _ :: hay' => contains needle hay'
  end.

(** [s.replace(old, new)]: every occurrence of [old], leftmost first and
    without overlap.  [skip] counts the characters of an occurrence that
    was just replaced and that are still to be dropped. *)
Fixpoint replace_from (old new : str) (skip : nat) (s : str) : str :=
  match s with
  | [] => []
  | c :: s' =>
      match skip with
      | S k => replace_from old new k s'
      | O => if startswith old s
             then new ++ replace_from old new (length old - 1) s'
             else c :: replace_from old new 0 s'
      end
  end.

Definition replace (old new s : str) : str :=
  match old with
  | [] => new ++ flat_map (fun c => c :: new) s
  | _ :: _ => replace_from old new 0 s
  end.

(** [s.split()]: the maximal runs of non-whitespace characters. *)
Fixpoint split (s : str) : list str :=
  match s with
  | [] => []
  | c :: s' =>
      if Char.isspace c then split s'
      else match s' with
           | [] => [[c]]
           | d :: _ =>
               if Char.isspace d then [c] :: split s'
               else match split s' with
                    | w :: ws => (c :: w) :: ws
                    | [] => [[c]]
                    end
           end
  end.

(** [sep.join(words)] *)
Fixpoint join (sep : str) (words : list str) : str :=
  match words with
  | [] => []
  | [w] => w
  | w :: ws => w ++ sep ++ join sep ws
  end.

(** [x in xs] for a list of strings. *)
Definition mem (x : str) (xs : list str) : bool := existsb (eqb x) xs.

(** The separator of [' '.join(words)]. *)
Definition space : str := [" "%char].

(** A word of [split]: not empty, no whitespace. *)
Definition word_ok (w : str) : Prop :=
  w <> [] /\ Forall (fun c => Char.isspace c = false) w.

End Str.

(** ** Regular expressions

    The fragment of Python's [re] that the pattern tables use: literals,
    [\s] and [\d], concatenation, alternation, greedy [?], greedy [+] and
    [*] on a character class, one capturing group, [^], [$] and [\b].
    [run] lists the ways a pattern can match at a cursor in the order in
    which Python's backtracking matcher tries them, so the head of the list
    is the match [re] reports. *)

Module Re.

Inductive cclass := Space | Digit.

Definition in_class (k : cclass) (c : ascii) : bool :=
  match k with
  | Space => Char.isspace c
  | Digit => Char.isdigit c
  end.

Inductive regex :=
| Eps
| Chr (c : ascii)            (* a literal character *)
| Cls (k : cclass)           (* \s, \d *)
| Cat (r1 r2 : regex)        (* r1 r2 *)
| Alt (r1 r2 : regex)        (* r1|r2 *)
| Opt (r : regex)            (* (?:r)? *)
| Plus (k : cclass)          (* \s+, \d+ *)
| Star (k : cclass)          (* \s* *)
| Grp (r : regex)            (* (r), group 1 *)
| Bol                        (* ^ *)
| Eol                        (* $ *)
| WordB.                     (* \b *)

(** A position in the subject: its index, the character before it, the
    text from it on, and the text of group 1 if the group has matched. *)
Record cursor := Cursor {
  pos : nat;
  prev : option ascii;
  rest : str;
  grp : option str
}.

Definition start (text : str) : cursor := Cursor 0 None text None.

Definition advance (st : cursor) (c : ascii) (s' : str) : cursor :=
  Cursor (S (pos st)) (Some c) s' (grp st).

Definition set_grp (g : option str) (st : cursor) : cursor :=
  Cursor (pos st) (prev st) (rest st) g.

(** The text between two cursors of one subject. *)
Definition span (st e : cursor) : str := firstn (pos e - pos st) (rest st).

(** Greedy repetition of a class from [st], whose remaining text is [s]:
    the longest run first, then each shorter one. *)
Fixpoint star (k : cclass) (st : cursor) (s : str) : list cursor :=
  match s with
  | c :: s' =>
      if in_class k c then star k (advance st c s') s' ++ [st] else [st]
  | [] => [st]
  end.

Definition is_word (o : option ascii) : bool :=
  match o with
  | Some c => Char.isword c
  | None => false
  end.

(** [ic] is the [re.IGNORECASE] flag. *)
Definition chr_eq (ic : bool) (p t : ascii) : bool :=
  if ic then Char.eqb (Char.lower t) (Char.lower p) else Char.eqb t p.

Fixpoint run (ic : bool) (r : regex) (st : cursor) : list cursor :=
  match r with
  | Eps => [st]
  | Chr p =>
      match rest st with
      | t :: s' => if chr_eq ic p t then [advance st t s'] else []
      | [] => []
      end
  | Cls k =>
      match rest st with
      | t :: s' => if in_class k t then [advance st t s'] else []
      | [] => []
      end
  | Cat r1 r2 => flat_map (run ic r2) (run ic r1 st)
  | Alt r1 r2 => run ic r1 st ++ run ic r2 st
  | Opt r1 => run ic r1 st ++ [st]
  | Plus k =>
      match rest st with
      | t :: s' => if in_class k t then star k (advance st t s') s' else []
      | [] => []
      end
  | Star k => star k st (rest st)
  | Grp r1 => map (fun e => set_grp (Some (span st e)) e) (run ic r1 st)
  | Bol => if pos st =? 0 then [st] else []
  | Eol =>
      match rest st with
      | [] => [st]
      | [t] => if Char.eqb t "010" then [st] else []
      | _ => []
      end
  | WordB =>
      if xorb (is_word (prev st)) (is_word (hd_error (rest st)))
      then [st] else []
  end.

(** A match object: [m.start()], [m.end()], [m.group(0)], [m.group(1)]
    ([None] when the group took no part) and the cursor at its end. *)
Record rmatch := Match {
  m_start : nat;
  m_end : nat;
  group0 : str;
  group1 : option str;
  m_cursor : cursor
}.

(** Scan for the leftmost match from [st], whose remaining text is [s]. *)
Fixpoint search_at (ic : bool) (r : regex) (st : cursor) (s : str)
  : option rmatch :=
  match run ic r st with
  | e :: _ => Some (Match (pos st) (pos e) (span st e) (grp e) e)
  | [] =>
      match s with
      | c :: s' => search_at ic r (advance st c s') s'
      | [] => None
      end
  end.

(** [re.search(r, text)] and [re.search(r, text, re.IGNORECASE)] *)
Definition search (ic : bool) (r : regex) (text : str) : option rmatch :=
  search_at ic r (start text) text.

(** The non-overlapping matches, left to right.  Every pattern scanned
    this way consumes at least one digit; after an empty match the scan
    would move on by one character. *)
Fixpoint finditer (ic : bool) (r : regex) (fuel : nat) (st : cursor)
  : list rmatch :=
  match fuel with
  | O => []
  | S fuel' =>
      match search_at ic r st (rest st) with
      | None => []
      | Some m =>
          let e := set_grp None (m_cursor m) in
          m :: (if m_end m =? m_start m
                then match rest e with
                     | c :: s' => finditer ic r fuel' (advance e c s')
                     | [] => []
                     end
                else finditer ic r fuel' e)
      end
  end.

(** [re.findall(r, text)] for a pattern with one group: the texts of
    group 1 (the empty string where it took no part). *)
Definition findall (ic : bool) (r : regex) (text : str) : list str :=
  map (fun m => match group1 m with Some g => g | None => [] end)
      (finditer ic r (S (length text)) (start text)).

(** [re.findall(r, text)] for a pattern without a group: the matches. *)
Definition findall0 (ic : bool) (r : regex) (text : str) : list str :=
  map group0 (finditer ic r (S (length text)) (start text)).

(** Pattern notation. *)
Definition seq (rs : list regex) : regex := fold_right Cat Eps rs.

Fixpoint alts (rs : list regex) : regex :=
  match rs with
  | [] => Eps
  | [r] => r
  | r :: rs' => Alt r (alts rs')
  end.

(** A literal word. *)
Definition word (x : String.string) : regex := seq (map Chr (lit x)).
Arguments word x%_string_scope.

(** [re.escape(s)] for a string of letters. *)
Definition escape (s : str) : regex := seq (map Chr s).

(** Patterns all of whose matches set group 1. *)
Fixpoint captures (r : regex) : bool :=
  match r with
  | Grp _ => true
  | Cat r1 r2 => captures r1 || captures r2
  | Alt r1 r2 => captures r1 && captures r2
  | _ => false
  end.

(** [e] lies [n] characters after [st] in the same text. *)
Definition reaches (st e : cursor) : Prop :=
  exists n, pos e = pos st + n /\ rest e = skipn n (rest st)
            /\ n <= length (rest st).

End Re.

Import Re.

(** ** Numbers *)

Definition Qnat (n : nat) : Q := inject_Z (Z.of_nat n).

(** [x < y] and [x <= y] on floats. *)
Definition Qltb (x y : Q) : bool := negb (Qle_bool y x).
Definition Qleb (x y : Q) : bool := Qle_bool x y.

(** [min(x, y)] and [max(x, y)]: Python returns the first argument unless
    the second is strictly smaller (resp. larger). *)
Definition pymin (x y : Q) : Q := if Qltb y x then y else x.
Definition pymax (x y : Q) : Q := if Qltb x y then y else x.

(** ** [difflib.SequenceMatcher(None, a, b).ratio()]

    No junk predicate is given, and the automatic junk heuristic only
    concerns a second sequence of 200 elements or more; the second sequence
    is always a keyword of the registry. *)

Module Difflib.

(** Length of the longest common prefix. *)
Fixpoint lcp (a b : str) : nat :=
  match a, b with
  | x :: a', y :: b' => if Char.eqb x y then S (lcp a' b') else 0
  | _, _ => 0
  end.

(** A block [(i, j, k)]: [a[i:i+k] == b[j:j+k]]. *)
Definition block := (nat * nat * nat)%type.

Definition size (m : block) : nat := snd m.

Definition better (m : block) (i j k : nat) : block :=
  if size m <? k then (i, j, k) else m.

Fixpoint scan_b (a_i : str) (i j : nat) (b_j : str) (best : block) : block :=
  let best' := better best i j (lcp a_i b_j) in
  match b_j with
  | [] => best'
  | _ :: b' => scan_b a_i i (S j) b' best'
  end.

Fixpoint scan_a (a_i : str) (i : nat) (b : str) (best : block) : block :=
  let best' := scan_b a_i i 0 b best in
  match a_i with
  | [] => best'
  | _ :: a' => scan_a a' (S i) b best'
  end.

(** [find_longest_match]: a longest block; of those, one that starts
    earliest in [a]; of those, the one that starts earliest in [b]. *)
Definition find_longest_match (a b : str) : block := scan_a a 0 b (0, 0, 0).

(** The total size of [get_matching_blocks()]: the longest block, then
    the same to its left and to its right. *)
Fixpoint matches (fuel : nat) (a b : str) : nat :=
  match fuel with
  | O => 0
  | S fuel' =>
      let '(i, j, k) := find_longest_match a b in
      if k =? 0 then 0
      else matches fuel' (firstn i a) (firstn j b) + k
           + matches fuel' (skipn (i + k) a) (skipn (j + k) b)
  end.

Definition ratio (a b : str) : Q :=
  let total := length a + length b in
  if total =? 0 then 1%Q
  else (2 * Qnat (matches (S (length a)) a b) / Qnat total)%Q.

(** A block that lies inside sequences of lengths [la] and [lb]. *)
Definition fits (la lb : nat) (m : block) : Prop :=
  let '(i, j, k) := m in i + k <= la /\ j + k <= lb.

End Difflib.

(** ** Python values, dictionaries and exceptions *)

Unset Elimination Schemes.
Inductive pyval :=
| PNone
| PBool (b : bool)
| PInt (n : Z)
| PFloat (q : Q)
| PStr (s : str)
| PList (l : list pyval)
| PDict (d : list (str * pyval)).
Set Elimination Schemes.

(** A dictionary keeps its keys in insertion order. *)
Definition dict (V : Type) := list (str * V).

Fixpoint dict_get {V} (k : str) (d : dict V) : option V :=
  match d with
  | [] => None
  | (k', v) :: d' => if Str.eqb k k' then Some v else dict_get k d'
  end.

(** [d[k] = v] *)
Fixpoint dict_set {V} (k : str) (v : V) (d : dict V) : dict V :=
  match d with
  | [] => [(k, v)]
  | (k', v') :: d' =>
      if Str.eqb k k' then (k', v) :: d' else (k', v') :: dict_set k v d'
  end.

(** [d.get(k, default)] *)
Definition get_or {V} (k : str) (default : V) (d : dict V) : V :=
  match dict_get k d with
  | Some v => v
  | None => default
  end.

Inductive exn := ValueError | IndexError | TypeError | KeyError.

Inductive outcome (A : Type) :=
| Returns (a : A)
| Raises (e : exn).
Arguments Returns {A} a.
Arguments Raises {A} e.

Definition bind {A B} (m : outcome A) (f : A -> outcome B) : outcome B :=
  match m with
  | Returns a => f a
  | Raises e => Raises e
  end.

Notation "x <- m ;; k" := (bind m (fun x => k))
  (at level 61, m at next level, right associativity).

(** [float(s)] on the decimal numerals the digit patterns produce, digits
    with an optional point and fraction.  [float] reads further notations
    (signs, exponents, blanks) that no pattern here can capture; on
    anything else it raises [ValueError], and on [None] [TypeError]. *)

Module Float.

Definition digit_val (c : ascii) : Z := Z.of_nat (Char.code c - 48).

Fixpoint to_int (acc : Z) (s : str) : Z :=
  match s with
  | [] => acc
  | c :: s' => to_int (10 * acc + digit_val c) s'
  end.

Definition numeral (s : str) : bool :=
  negb (length s =? 0) && forallb Char.isdigit s.

(** The text before the first point, and the text after it if any. *)
Fixpoint split_point (s : str) : str * option str :=
  match s with
  | [] => ([], None)
  | c :: s' =>
      if Char.eqb c "." then ([], Some s')
      else let (a, b) := split_point s' in (c :: a, b)
  end.

Definition decimal (s : str) : option Q :=
  let (ip, fp) := split_point s in
  if numeral ip then
    match fp with
    | None => Some (inject_Z (to_int 0 ip))
    | Some f =>
        if numeral f
        then Some (inject_Z (to_int 0 ip)
                   + inject_Z (to_int 0 f) / inject_Z (10 ^ Z.of_nat (length f)))%Q
        else None
    end
  else None.

Definition float (g : option str) : outcome Q :=
  match g with
  | None => Raises TypeError
  | Some s =>
      match decimal s with
      | Some q => Returns q
      | None => Raises ValueError
      end
  end.

End Float.

(** ** The intent registry: [_initialize_patterns] *)

Record intent_config := IntentConfig {
  patterns : list regex;
  keywords : list str;
  confidence_boost : Q;
  priority : Z
}.

Module Pat.

Definition s1 : regex := Plus Space.                           (* \s+ *)
Definition s0 : regex := Star Space.                           (* \s* *)
Definition dollar : regex := Opt (Chr "$").                    (* (?:[$]?) *)
Definition num0 : regex :=                                     (* \d+(?:\.\d{2})? *)
  seq [Plus Digit; Opt (seq [Chr "."; Cls Digit; Cls Digit])].
Definition num : regex := Grp num0.                            (* (\d+(?:\.\d{2})?) *)
Definition plural (x : String.string) : regex :=               (* xs? *)
  seq [word x; Opt (Chr "s")].
Arguments plural x%_string_scope.

Definition bidding : list regex := [
  (* (?:bid|place\s+(?:a\s+)?bid(?:\s+of)?)\s+(?:[$]?)(\d+(?:\.\d{2})?) *)
  seq [alts [word "bid";
             seq [word "place"; s1; Opt (seq [word "a"; s1]); word "bid";
                  Opt (seq [s1; word "of"])]];
       s1; dollar; num];
  (* (?:offer|put\s+(?:in|up))\s+(?:[$]?)(\d+(?:\.\d{2})?) *)
  seq [alts [word "offer"; seq [word "put"; s1; alts [word "in"; word "up"]]];
       s1; dollar; num];
  (* (?:[$]?)(\d+(?:\.\d{2})?)\s+(?:dollars?|bucks?|usd) *)
  seq [dollar; num; s1; alts [plural "dollar"; plural "buck"; word "usd"]];
  (* go\s+(?:[$]?)(\d+(?:\.\d{2})?) *)
  seq [word "go"; s1; dollar; num];
  (* raise\s+(?:to\s+)?(?:[$]?)(\d+(?:\.\d{2})?) *)
  seq [word "raise"; s1; Opt (seq [word "to"; s1]); dollar; num];
  (* increase\s+(?:to\s+)?(?:[$]?)(\d+(?:\.\d{2})?) *)
  seq [word "increase"; s1; Opt (seq [word "to"; s1]); dollar; num];
  (* i\s+(?:want\s+to\s+|will\s+)?bid\s+(?:[$]?)(\d+(?:\.\d{2})?) *)
  seq [word "i"; s1;
       Opt (alts [seq [word "want"; s1; word "to"; s1]; seq [word "will"; s1]]);
       word "bid"; s1; dollar; num];
  (* let\s+me\s+bid\s+(?:[$]?)(\d+(?:\.\d{2})?) *)
  seq [word "let"; s1; word "me"; s1; word "bid"; s1; dollar; num];
  (* my\s+bid\s+is\s+(?:[$]?)(\d+(?:\.\d{2})?) *)
  seq [word "my"; s1; word "bid"; s1; word "is"; s1; dollar; num];
  (* (?:[$]?)(\d+(?:\.\d{2})?)(?:\s+(?:please|now|dollars?))?$ *)
  seq [dollar; num;
       Opt (seq [s1; alts [word "please"; word "now"; plural "dollar"]]); Eol];
  (* make\s+it\s+(?:[$]?)(\d+(?:\.\d{2})?) *)
  seq [word "make"; s1; word "it"; s1; dollar; num];
  (* (?:i\s+)?(?:ll\s+)?take\s+it\s+for\s+(?:[$]?)(\d+(?:\.\d{2})?) *)
  seq [Opt (seq [word "i"; s1]); Opt (seq [word "ll"; s1]);
       word "take"; s1; word "it"; s1; word "for"; s1; dollar; num]
].

Definition listing : list regex := [
  (* (?:list|show|display)\s+(?:all\s+)?(?:active\s+)?auctions? *)
  seq [alts [word "list"; word "show"; word "display"]; s1;
       Opt (seq [word "all"; s1]); Opt (seq [word "active"; s1]);
       plural "auction"];
  (* what\s+auctions?\s+(?:are\s+)?(?:available|active) *)
  seq [word "what"; s1; plural "auction"; s1; Opt (seq [word "are"; s1]);
       alts [word "available"; word "active"]];
  (* show\s+me\s+(?:the\s+)?auctions? *)
  seq [word "show"; s1; word "me"; s1; Opt (seq [word "the"; s1]);
       plural "auction"];
  (* available\s+auctions? *)
  seq [word "available"; s1; plural "auction"];
  (* current\s+auctions? *)
  seq [word "current"; s1; plural "auction"];
  (* auctions?\s+(?:list|available) *)
  seq [plural "auction"; s1; alts [word "list"; word "available"]];
  (* ^auctions?$ *)
  seq [Bol; plural "auction"; Eol];
  (* what\s+(?:is|are)\s+(?:available|for\s+sale) *)
  seq [word "what"; s1; alts [word "is"; word "are"]; s1;
       alts [word "available"; seq [word "for"; s1; word "sale"]]];
  (* browse\s+(?:items|auctions?) *)
  seq [word "browse"; s1; alts [word "items"; plural "auction"]]
].

Definition status : list regex := [
  (* (?:current|highest|latest)\s+bid *)
  seq [alts [word "current"; word "highest"; word "latest"]; s1; word "bid"];
  (* what\s+(?:is\s+)?(?:the\s+)?(?:current|highest)\s+bid *)
  seq [word "what"; s1; Opt (seq [word "is"; s1]); Opt (seq [word "the"; s1]);
       alts [word "current"; word "highest"]; s1; word "bid"];
  (* bid\s+status *)
  seq [word "bid"; s1; word "status"];
  (* how\s+much\s+(?:is\s+)?(?:the\s+)?(?:current\s+)?bid *)
  seq [word "how"; s1; word "much"; s1; Opt (seq [word "is"; s1]);
       Opt (seq [word "the"; s1]); Opt (seq [word "current"; s1]); word "bid"];
  (* price\s+(?:now|current) *)
  seq [word "price"; s1; alts [word "now"; word "current"]];
  (* status *)
  word "status";
  (* what\s+(?:is\s+)?(?:the\s+)?price *)
  seq [word "what"; s1; Opt (seq [word "is"; s1]); Opt (seq [word "the"; s1]);
       word "price"];
  (* how\s+much\s+(?:does\s+it\s+cost|is\s+it) *)
  seq [word "how"; s1; word "much"; s1;
       alts [seq [word "does"; s1; word "it"; s1; word "cost"];
             seq [word "is"; s1; word "it"]]]
].

Definition help : list regex := [
  (* help *)
  word "help";
  (* what\s+can\s+(?:you\s+)?do *)
  seq [word "what"; s1; word "can"; s1; Opt (seq [word "you"; s1]); word "do"];
  (* commands? *)
  plural "command";
  (* how\s+(?:do\s+i|to) *)
  seq [word "how"; s1; alts [seq [word "do"; s1; word "i"]; word "to"]];
  (* instructions? *)
  plural "instruction";
  (* guide *)
  word "guide";
  (* tutorial *)
  word "tutorial";
  (* explain *)
  word "explain"
].

Definition greeting : list regex := [
  (* ^(?:hello|hi|hey|start)$ *)
  seq [Bol; alts [word "hello"; word "hi"; word "hey"; word "start"]; Eol];
  (* good\s+(?:morning|afternoon|evening) *)
  seq [word "good"; s1; alts [word "morning"; word "afternoon"; word "evening"]];
  (* greetings? *)
  plural "greeting";
  (* howdy *)
  word "howdy";
  (* what\s+up *)
  seq [word "what"; s1; word "up"]
].

Definition insights : list regex := [
  (* (?:analyze|analysis)\s+(?:market\s+)?trends? *)
  seq [alts [word "analyze"; word "analysis"]; s1; Opt (seq [word "market"; s1]);
       plural "trend"];
  (* market\s+insights? *)
  seq [word "market"; s1; plural "insight"];
  (* recommend(?:ations?)? *)
  seq [word "recommend"; Opt (plural "ation")];
  (* suggest(?:ions?)? *)
  seq [word "suggest"; Opt (plural "ion")];
  (* insights? *)
  plural "insight";
  (* analytics? *)
  plural "analytic";
  (* statistics? *)
  plural "statistic";
  (* data\s+analysis *)
  seq [word "data"; s1; word "analysis"]
].

(** [currency_patterns] of [_extract_bid_amount] *)
Definition currency : list regex := [
  (* (\d+(?:\.\d{2})?)\s*(?:dollars?|bucks?|usd|\$) *)
  seq [num; s0; alts [plural "dollar"; plural "buck"; word "usd"; Chr "$"]];
  (* \$\s*(\d+(?:\.\d{2})?) *)
  seq [Chr "$"; s0; num];
  (* (\d+(?:\.\d{2})?)\s*(?:dollar|buck) *)
  seq [num; s0; alts [word "dollar"; word "buck"]]
].

End Pat.

Definition command_patterns : dict intent_config := [
  (lit "bidding",
   IntentConfig Pat.bidding
     (map lit ["bid"; "offer"; "place"; "put"; "raise"; "increase"; "dollars";
               "bucks"; "take"]%string)
     0.15 1);
  (lit "listing",
   IntentConfig Pat.listing
     (map lit ["list"; "show"; "display"; "auctions"; "available"; "current";
               "browse"]%string)
     0.1 2);
  (lit "status",
   IntentConfig Pat.status
     (map lit ["current"; "highest"; "bid"; "status"; "price"; "much";
               "cost"]%string)
     0.1 3);
  (lit "help",
   IntentConfig Pat.help
     (map lit ["help"; "commands"; "instructions"; "how"; "guide";
               "explain"]%string)
     0.15 4);
  (lit "greeting",
   IntentConfig Pat.greeting
     (map lit ["hello"; "hi"; "hey"; "start"; "good"; "greetings"]%string)
     0.1 5);
  (lit "insights",
   IntentConfig Pat.insights
     (map lit ["analyze"; "market"; "insights"; "recommend"; "suggest";
               "analytics"; "data"]%string)
     0.1 6)
].

(** ** The processor state

    The attributes of [EnhancedAIVoiceProcessor] that the classifier reads
    or writes.  [conversation_history] holds the entries appended by
    [process_voice_command], oldest first. *)

(** [self.user_context[user_id]] *)
Record user_entry := UserEntry {
  command_count : Z;
  last_intent : pyval;
  preferred_language : str;
  success_rate : Q;
  session_start : str
}.

Record processor := Processor {
  conversation_history : list (dict pyval);
  user_context : dict user_entry;
  session_stats : dict pyval
}.

(** [__init__] *)
Definition init : processor :=
  Processor [] []
    [(lit "total_commands", PInt 0);
     (lit "successful_commands", PInt 0);
     (lit "accuracy_score", PFloat 0.0)].

(** [xs[-n:]] for [n > 0] *)
Definition lastn {A} (n : nat) (xs : list A) : list A :=
  skipn (length xs - n) xs.

(** [xs[-1]] *)
Definition last_item {A} (xs : list A) : option A := hd_error (lastn 1 xs).

(** [s == v] for a string [s] and any value [v] *)
Definition str_eq_val (s : str) (v : pyval) : bool :=
  match v with
  | PStr s' => Str.eqb s s'
  | _ => false
  end.

(** ** [_preprocess_text] *)

Definition corrections : dict str := [
  (lit "dollar", lit "dollars");
  (lit "buck", lit "bucks");
  (lit "place a bit", lit "place a bid");
  (lit "bit", lit "bid");
  (lit "show me options", lit "show me auctions");
  (lit "current price", lit "current bid");
  (lit "highest price", lit "highest bid");
  (lit "what is the price", lit "what is the current bid");
  (lit "how much does it cost", lit "what is the current bid");
  (lit "i want to buy", lit "i want to bid");
  (lit "purchase", lit "bid");
  (lit "buy", lit "bid");
  (lit "get", lit "bid");
  (lit "take", lit "bid")
].

Definition filler_words : list str :=
  map lit ["um"; "uh"; "like"; "you know"; "actually"; "basically"; "well";
           "so"; "okay"]%string.

(** The characters [[^\w\s$.]] does not match. *)
Definition kept (c : ascii) : bool :=
  Char.isword c || Char.isspace c || Char.eqb c "$" || Char.eqb c ".".

(** [re.sub(r'[^\w\s$.]', ' ', text)] *)
Definition sub_punctuation (text : str) : str :=
  map (fun c => if kept c then c else " "%char) text.

(** [re.sub(r'\s+', ' ', text)]: each maximal run of whitespace becomes one
    space, written when the last character of the run is read. *)
Fixpoint sub_spaces (text : str) : str :=
  match text with
  | [] => []
  | c :: s' =>
      if Char.isspace c then
        match s' with
        | d :: _ => if Char.isspace d then sub_spaces s'
                    else " "%char :: sub_spaces s'
        | [] => [" "%char]
        end
      else c :: sub_spaces s'
  end.

Definition apply_corrections (text : str) : str :=
  fold_left (fun t ec => Str.replace (fst ec) (snd ec) t) corrections text.

Definition remove_fillers (words : list str) : list str :=
  filter (fun w => negb (Str.mem w filler_words)) words.

Definition _preprocess_text (text : str) : str :=
  let text := Str.strip (Str.lower text) in
  let text := apply_corrections text in
  let words := Str.split text in
  let words := remove_fillers words in
  let text := Str.join (lit " ") words in
  let text := sub_punctuation text in
  Str.strip (sub_spaces text).

(** The text before the final cleanup. *)
Definition cleaned (x : str) : str :=
  sub_punctuation
    (Str.join Str.space
       (remove_fillers (Str.split (apply_corrections (Str.strip (Str.lower x)))))).

(** A text in which no substitution of the table finds its key and no
    token is a filler word. *)
Definition stable (y : str) : bool :=
  forallb (fun ec => negb (Str.contains (fst ec) y)) corrections
  && forallb (fun w => negb (Str.mem w filler_words)) (Str.split y).

(** ** [_calculate_confidence] *)

(** [context_bonus]: the last entry of the history is asked for its key
    ['intent']. *)
Definition context_bonus (self : processor) (intent : str) : Q :=
  match last_item (conversation_history self) with
  | Some entry =>
      let last_intent := get_or (lit "intent") (PStr (lit "")) entry in
      if str_eq_val intent last_intent then 0.05 else 0.0
  | None => 0.0
  end.

Definition clarity_bonus (word_count : nat) : Q :=
  if (2 <=? word_count) && (word_count <=? 8) then 0.15
  else if (9 <=? word_count) && (word_count <=? 15) then 0.1
  else if 15 <? word_count
       then pymax 0 (0.1 - Qnat (word_count - 15) * 0.02)
       else 0.05.

Definition _calculate_confidence
  (self : processor) (text intent : str) (pattern_match : bool) : Q :=
  let base_confidence := 0.75%Q in
  let base_confidence :=
    if pattern_match then (base_confidence + 0.2)%Q else base_confidence in
  let intent_config := dict_get intent command_patterns in
  let keywords := match intent_config with Some c => keywords c | None => [] end in
  let keyword_count :=
    length (filter (fun keyword => Str.contains keyword (Str.lower text)) keywords) in
  let keyword_bonus := pymin (Qnat keyword_count * 0.08) 0.2 in
  let word_count := length (Str.split text) in
  let clarity_bonus := clarity_bonus word_count in
  let context_bonus := context_bonus self intent in
  let priority_bonus :=
    (inject_Z (5 - match intent_config with Some c => priority c | None => 5 end)
     * 0.02)%Q in
  pymin (base_confidence + keyword_bonus + clarity_bonus + context_bonus
         + priority_bonus
         + match intent_config with Some c => confidence_boost c | None => 0 end)%Q
        0.99.

(** ** [_fuzzy_match_intent] *)

Definition keyword_similarity (text keyword : str) : Q :=
  let similarity := Difflib.ratio text keyword in
  let similarity :=
    if Str.contains keyword text then pymax similarity 0.8 else similarity in
  match search false (seq [WordB; escape keyword; WordB]) text with
  | Some _ => pymax similarity 0.9
  | None => similarity
  end.

(** The inner loop: [(intent_score, keyword_matches)]. *)
Definition score_keywords (text : str) (kws : list str) : Q * nat :=
  fold_left
    (fun acc keyword =>
       let similarity := keyword_similarity text keyword in
       if Qltb 0.6 similarity
       then ((fst acc + similarity)%Q, S (snd acc))
       else acc)
    kws (0%Q, 0).

Definition weighted_score (text : str) (config : intent_config) : option Q :=
  let (intent_score, keyword_matches) := score_keywords text (keywords config) in
  if 0 <? keyword_matches
  then Some ((intent_score / Qnat (length (keywords config)))
             * (Qnat keyword_matches / Qnat (length (keywords config))))%Q
  else None.

(** The outer loop: [(best_match, best_score)]. *)
Definition best_fuzzy (text : str) (registry : dict intent_config)
  : option str * Q :=
  fold_left
    (fun best ic =>
       match weighted_score text (snd ic) with
       | Some w => if Qltb (snd best) w then (Some (fst ic), w) else best
       | None => best
       end)
    registry (None, 0%Q).

(** Truth value of [None] or a string. *)
Definition truthy (o : option str) : bool :=
  match o with
  | Some (_ :: _) => true
  | _ => false
  end.

Definition _fuzzy_match_intent (self : processor) (text : str) : str * Q :=
  match best_fuzzy text command_patterns with
  | (Some best_match, best_score) =>
      if truthy (Some best_match) && Qltb 0.6 best_score
      then (best_match,
            (_calculate_confidence self text best_match false * best_score)%Q)
      else (lit "unknown", 0.1%Q)
  | (None, _) => (lit "unknown", 0.1%Q)
  end.

(** ** [_extract_bid_amount] *)

(** [0.01 <= amount <= 10000000] *)
Definition reasonable (amount : Q) : bool :=
  Qleb 0.01 amount && Qleb amount 10000000.

(** [try: ... except (ValueError, IndexError): continue]: the handler
    resumes the loop with [otherwise]; any other exception propagates. *)
Definition try_continue {A B}
  (m : outcome A) (body : A -> outcome B) (otherwise : outcome B) : outcome B :=
  match m with
  | Returns a => body a
  | Raises ValueError | Raises IndexError => otherwise
  | Raises e => Raises e
  end.

(** Method 1: the bidding patterns, in order. *)
Fixpoint extract_direct (pats : list regex) (text : str) : outcome (option Q) :=
  match pats with
  | [] => Returns None
  | pattern :: pats' =>
      match search true pattern text with
      | Some m =>
          try_continue (Float.float (group1 m))
            (fun amount =>
               if reasonable amount then Returns (Some amount)
               else extract_direct pats' text)
            (extract_direct pats' text)
      | None => extract_direct pats' text
      end
  end.

(** The inner loop of method 2, over the matches of one pattern. *)
Fixpoint first_reasonable (matches : list str) : outcome (option Q) :=
  match matches with
  | [] => Returns None
  | m :: matches' =>
      try_continue (Float.float (Some m))
        (fun amount =>
           if reasonable amount then Returns (Some amount)
           else first_reasonable matches')
        (first_reasonable matches')
  end.

(** Method 2: numbers with a currency indicator. *)
Fixpoint extract_currency (pats : list regex) (text : str) : outcome (option Q) :=
  match pats with
  | [] => Returns None
  | pattern :: pats' =>
      r <- first_reasonable (findall true pattern text) ;;
      match r with
      | Some amount => Returns (Some amount)
      | None => extract_currency pats' text
      end
  end.

Definition bidding_keywords : list str :=
  map lit ["bid"; "offer"; "dollars"; "bucks"; "place"; "put"]%string.

(** Method 3: bare numbers, accepted when the text has a bidding keyword. *)
Fixpoint extract_number (numbers : list str) (text : str) : outcome (option Q) :=
  match numbers with
  | [] => Returns None
  | number :: numbers' =>
      try_continue (Float.float (Some number))
        (fun amount =>
           if reasonable amount
              && existsb (fun keyword => Str.contains keyword (Str.lower text))
                         bidding_keywords
           then Returns (Some amount)
           else extract_number numbers' text)
        (extract_number numbers' text)
  end.

Definition _extract_bid_amount (text : str) : outcome (option Q) :=
  r <- extract_direct Pat.bidding text ;;
  match r with
  | Some amount => Returns (Some amount)
  | None =>
      r <- extract_currency Pat.currency text ;;
      match r with
      | Some amount => Returns (Some amount)
      | None => extract_number (findall0 false Pat.num0 text) text
      end
  end.


(** What the extractor may return. *)
Definition in_range (r : option Q) : Prop :=
  match r with
  | None => True
  | Some amount => (0.01 <= amount /\ amount <= 10000000)%Q
  end.

(** ** [process_command] *)

(** The ['context'] entry of a result. *)
Record command_context := CommandContext {
  hasActiveAuctions : bool;
  userHasBids : bool;
  recentCommands : list pyval;
  session_length : nat;
  user_expertise : str
}.

(** The dictionary [process_command] returns: ['data'] holds at most
    ['bid_amount']; [fuzzy] tells whether the key ['fuzzy'] is present (its
    value is [True]). *)
Record command_result := CommandResult {
  intent : str;
  confidence : Q;
  data : option Q;
  context : command_context;
  method : str;
  fuzzy : bool
}.

Definition make_context (self : processor) : command_context :=
  let history := conversation_history self in
  CommandContext
    true
    (0 <? length history)
    (map (fun h => get_or (lit "intent") (PStr (lit "unknown")) h) (lastn 3 history))
    (length history)
    (if length history <? 5 then lit "beginner" else lit "experienced").

(** The confidence of a bidding match. *)
Definition bid_confidence (bid_amount : Q) : Q :=
  let confidence := if Qltb 10 bid_amount then 0.95%Q else 0.90%Q in
  if Qleb 10 bid_amount && Qleb bid_amount 10000
  then pymin (confidence + 0.05) 0.99
  else confidence.

(** [if bid_amount and bid_amount > 0] *)
Definition positive (bid_amount : Q) : bool :=
  negb (Qeq_bool bid_amount 0) && Qltb 0 bid_amount.

(** The bidding loop: [Some] result when it returns from inside the loop. *)
Fixpoint detect_bidding (context : command_context) (pats : list regex)
  (preprocessed_text : str) : outcome (option command_result) :=
  match pats with
  | [] => Returns None
  | pattern :: pats' =>
      match search true pattern preprocessed_text with
      | Some m =>
          try_continue (Float.float (group1 m))
            (fun bid_amount =>
               if positive bid_amount
               then Returns (Some (CommandResult
                                     (lit "bidding") (bid_confidence bid_amount)
                                     (Some bid_amount) context
                                     (lit "pattern_match") false))
               else detect_bidding context pats' preprocessed_text)
            (detect_bidding context pats' preprocessed_text)
      | None => detect_bidding context pats' preprocessed_text
      end
  end.

(** The confidence of a match of one pattern of [intent]. *)
Definition pattern_confidence
  (intent : str) (config : intent_config) (preprocessed_text : str) : Q :=
  let confidence :=
    if Str.eqb intent (lit "listing") && Str.contains (lit "active") preprocessed_text
    then 0.96%Q
    else if Str.eqb intent (lit "status")
            && Str.contains (lit "current") preprocessed_text
    then 0.96%Q
    else if Str.eqb intent (lit "help")
            && Str.eqb (Str.strip preprocessed_text) (lit "help")
    then 0.98%Q
    else if Str.eqb intent (lit "greeting")
            && Str.mem preprocessed_text [lit "hello"; lit "hi"; lit "hey"]
    then 0.97%Q
    else 0.9%Q in
  pymin (confidence + confidence_boost config) 0.99.

(** The loop over the other intents: [(best_intent, best_confidence)]. *)
Definition best_pattern (registry : dict intent_config) (preprocessed_text : str)
  : option str * Q :=
  fold_left
    (fun best (ic : str * intent_config) =>
       let (intent, config) := ic in
       if Str.eqb intent (lit "bidding") then best
       else
         fold_left
           (fun best pattern =>
              match search true pattern preprocessed_text with
              | Some _ =>
                  let confidence :=
                    pattern_confidence intent config preprocessed_text in
                  if Qltb (snd best) confidence
                  then (Some intent, confidence) else best
              | None => best
              end)
           (patterns config) best)
    registry (None, 0%Q).

Definition keyword_matches : dict str := [
  (lit "bid", lit "bidding");
  (lit "list", lit "listing");
  (lit "show", lit "listing");
  (lit "status", lit "status");
  (lit "help", lit "help");
  (lit "price", lit "status");
  (lit "current", lit "status");
  (lit "available", lit "listing");
  (lit "auctions", lit "listing")
].

Definition process_command (self : processor) (input_text : str)
  : outcome command_result :=
  let preprocessed_text := _preprocess_text input_text in
  let context := make_context self in
  r <- detect_bidding context Pat.bidding preprocessed_text ;;
  match r with
  | Some result => Returns result
  | None =>
      let (best_intent, best_confidence) :=
        best_pattern command_patterns preprocessed_text in
      if truthy best_intent then
        Returns (CommandResult
                   (match best_intent with Some i => i | None => [] end)
                   best_confidence None context (lit "pattern_match") false)
      else
        let (fuzzy_intent, fuzzy_confidence) :=
          _fuzzy_match_intent self preprocessed_text in
        if Qltb 0.7 fuzzy_confidence then
          Returns (CommandResult fuzzy_intent fuzzy_confidence None context
                     (lit "fuzzy_match") true)
        else
          match find (fun ki => Str.contains (fst ki) preprocessed_text)
                     keyword_matches with
          | Some (_, intent) =>
              Returns (CommandResult intent 0.75 None context
                         (lit "keyword_match") true)
          | None =>
              Returns (CommandResult (lit "unknown") 0.1 None context
                         (lit "no_match") false)
          end
  end.

(** The six intents of the registry. *)
Definition registry_intents : list str :=
  map lit ["bidding"; "listing"; "status"; "help"; "greeting"; "insights"]%string.

(** The five ways out of [process_command]. *)
Inductive exit (r : command_result) : Prop :=
| exit_bidding (bid_amount : Q) :
    intent r = lit "bidding" -> method r = lit "pattern_match" ->
    positive bid_amount = true ->
    confidence r = bid_confidence bid_amount -> data r = Some bid_amount ->
    exit r
| exit_pattern :
    In (intent r) registry_intents -> method r = lit "pattern_match" ->
    (0 <= confidence r)%Q -> (confidence r <= 0.99)%Q ->
    exit r
| exit_fuzzy :
    In (intent r) registry_intents -> method r = lit "fuzzy_match" ->
    (0.7 < confidence r)%Q -> (confidence r <= 0.99)%Q ->
    exit r
| exit_keyword :
    In (intent r) registry_intents -> method r = lit "keyword_match" ->
    confidence r = 0.75%Q ->
    exit r
| exit_no_match :
    intent r = lit "unknown" -> method r = lit "no_match" ->
    confidence r = 0.1%Q ->
    exit r.

(** Pattern [p] matches [text] and its group parses to the positive
    amount [a]. *)
Definition bid_match (p : regex) (text : str) (a : Q) : Prop :=
  exists m g, search true p text = Some m /\ group1 m = Some g
              /\ Float.decimal g = Some a /\ (0 < a)%Q.

(** ** [process_voice_command]

    The command is processed by [process_with_openai] or
    [process_with_advanced_nlp], which call the network; a turn is given
    what that call returned and what the clock read. *)

Record turn := Turn {
  turn_user_input : str;
  turn_user_id : str;
  turn_session_start : str;     (* datetime.now().isoformat(), new user *)
  turn_result : dict pyval;     (* result of the awaited call *)
  turn_stats : dict pyval;      (* self.session_stats after that call *)
  turn_timestamp : str          (* datetime.now().isoformat(), entry *)
}.

Definition conversation_entry (t : turn) : dict pyval := [
  (lit "user_id", PStr (turn_user_id t));
  (lit "input", PStr (turn_user_input t));
  (lit "result", PDict (turn_result t));
  (lit "timestamp", PStr (turn_timestamp t));
  (lit "session_stats", PDict (turn_stats t));
  (lit "processing_time", PInt 0)
].

(** The append and the trim. *)
Definition append_entry (history : list (dict pyval)) (entry : dict pyval)
  : list (dict pyval) :=
  let history := history ++ [entry] in
  if 50 <? length history then lastn 50 history else history.

(** [v > 0.8] for a value [v]: numbers compare, anything else raises. *)
Definition gt_float (v : pyval) (x : Q) : outcome bool :=
  match v with
  | PInt n => Returns (Qltb x (inject_Z n))
  | PFloat q => Returns (Qltb x q)
  | PBool b => Returns (Qltb x (if b then 1 else 0))
  | _ => Raises TypeError
  end.

Definition new_user (t : turn) : user_entry :=
  UserEntry 0 PNone (lit "en") 0.0 (turn_session_start t).

Definition process_voice_command (t : turn) (self : processor)
  : processor * outcome (dict pyval) :=
  let user_id := turn_user_id t in
  let u := match dict_get user_id (user_context self) with
           | Some u => u
           | None => new_user t
           end in
  let u := UserEntry (command_count u + 1) (last_intent u) (preferred_language u)
                     (success_rate u) (session_start u) in
  let result := turn_result t in
  let history :=
    append_entry (conversation_history self) (conversation_entry t) in
  let update u := Processor history (dict_set user_id u (user_context self))
                            (turn_stats t) in
  match dict_get (lit "intent") result with
  | None => (update u, Raises KeyError)
  | Some i =>
      let u := UserEntry (command_count u) i (preferred_language u)
                         (success_rate u) (session_start u) in
      match gt_float (get_or (lit "confidence") (PInt 0) result) 0.8 with
      | Returns b =>
          let u := if b
                   then UserEntry (command_count u) (last_intent u)
                          (preferred_language u)
                          (success_rate u * 0.9 + 0.1)%Q (session_start u)
                   else u in
          (update u, Returns result)
      | Raises e => (update u, Raises e)
      end
  end.

(** A session: the turns in order, whatever each of them returned. *)
Definition run_turns (ts : list turn) (self : processor) : processor :=
  fold_left (fun self t => fst (process_voice_command t self)) ts self.

(** A turn classified [status], for the examples. *)
Definition sample_turn (n : nat) : turn :=
  Turn (lit "current bid") (lit "anonymous") (lit "t0")
       [(lit "intent", PStr (lit "status")); (lit "confidence", PFloat 0.99)]
       [(lit "total_commands", PInt (Z.of_nat n))] (lit "t1").

(** * Further notions

    The remaining definitions serve the properties of the second part:
    what the loops of [process_command] and the scans compute, and the
    functions around the classifier. *)

(** Some pattern of [config] matches [text]. *)
Definition matches_some (config : intent_config) (text : str) : bool :=
  existsb (fun pattern => match search true pattern text with
                          | Some _ => true
                          | None => false
                          end)
          (patterns config).

(** The intents [process_command] tries after bidding, with a pattern
    that matches. *)
Definition candidate (text : str) (ic : str * intent_config) : bool :=
  negb (Str.eqb (fst ic) (lit "bidding")) && matches_some (snd ic) text.

(** Patterns every match of which reads a digit. *)
Fixpoint needs_digit (r : regex) : bool :=
  match r with
  | Cls Digit | Plus Digit => true
  | Cat r1 r2 => needs_digit r1 || needs_digit r2
  | Alt r1 r2 => needs_digit r1 && needs_digit r2
  | Grp r1 => needs_digit r1
  | _ => false
  end.

(** A text without a digit. *)
Definition digitless (text : str) : Prop :=
  Forall (fun c => Char.isdigit c = false) text.

(** The filler words that are one token. *)
Definition one_word_fillers : list str :=
  map lit ["um"; "uh"; "like"; "actually"; "basically"; "well"; "so";
           "okay"]%string.

(** The characters a token of the normalized text is made of. *)
Definition token_char (c : ascii) : bool :=
  Char.isword c || Char.eqb c "$" || Char.eqb c ".".

(** A text of whitespace and of characters the normalizer blanks out. *)
Definition blank (x : str) : Prop :=
  Forall (fun c => Char.isspace c = true \/ kept c = false) x.

(** A key that begins with a letter or a digit. *)
Definition starts_with_letter (key : str) : bool :=
  match key with
  | k0 :: _ => Char.isword k0 && negb (Char.isspace k0)
  | [] => false
  end.

(** The turns of a session made under [user_id]. *)
Definition turns_of (user_id : str) (ts : list turn) : nat :=
  length (filter (fun t => Str.eqb user_id (turn_user_id t)) ts).

(** ** [_validate_bid_amount]

    The request to the auction service is represented by what it returned:
    [None] where [requests.get] or [response.json()] raises.  JSON numbers
    are integers and finite decimals.  The whole body runs under
    [try: ... except Exception], so a failure inside it is [None] and ends
    in the handler, whatever the exception. *)

Record http_response := HttpResponse {
  status_code : Z;
  json : option pyval
}.

(** The text of an f-string before formatting: literal pieces and the
    values formatted into them.  A plain string is one literal piece. *)
Inductive piece :=
| Text (s : string)
| Shown (v : pyval).

Definition message := list piece.

(** The dictionary [_validate_bid_amount] returns; [current_bid] and
    [minimum_bid] are [None] where the key is absent. *)
Record validation := Validation {
  is_valid : bool;
  reason : message;
  current_bid : option pyval;
  minimum_bid : option pyval
}.

(** [data['products']] for a dictionary with that key, [data] for a list,
    [[]] otherwise. *)
Definition auctions_of (data : pyval) : pyval :=
  match data with
  | PDict d =>
      match dict_get (lit "products") d with
      | Some products => products
      | None => PList []
      end
  | PList _ => data
  | _ => PList []
  end.

(** [for a in auctions]: the elements of a list, the keys of a
    dictionary, the characters of a string; other values do not iterate. *)
Definition iterate (v : pyval) : option (list pyval) :=
  match v with
  | PList l => Some l
  | PDict d => Some (map (fun kv => PStr (fst kv)) d)
  | PStr s => Some (map (fun c => PStr [c]) s)
  | _ => None
  end.

(** [a.get('status') == 'active'] for a dictionary [a] *)
Definition status_active (a : dict pyval) : bool :=
  match dict_get (lit "status") a with
  | Some (PStr s) => Str.eqb s (lit "active")
  | _ => false
  end.

(** [[a for a in auctions if a.get('status') == 'active']]: only a
    dictionary has [get]. *)
Fixpoint active_auctions (auctions : list pyval) : option (list (dict pyval)) :=
  match auctions with
  | [] => Some []
  | PDict a :: auctions' =>
      match active_auctions auctions' with
      | Some rest => Some (if status_active a then a :: rest else rest)
      | None => None
      end
  | _ :: _ => None
  end.

(** The value of a number ([True] is 1). *)
Definition number (v : pyval) : option Q :=
  match v with
  | PInt n => Some (inject_Z n)
  | PFloat q => Some q
  | PBool b => Some (if b then 1 else 0)%Q
  | _ => None
  end.

(** [a.get('currentBid', 0)] *)
Definition currentBid (a : dict pyval) : pyval :=
  get_or (lit "currentBid") (PInt 0) a.

(** [max(values)] followed by a comparison of the result with a float.
    [max] keeps the first of the largest values.  Where some value is not
    a number, either [max] raises on a comparison, or it returns a value
    that is not a number and the comparison with the float raises: the
    outcome is [None] in both cases. *)
Fixpoint max_from (best : pyval) (best_q : Q) (values : list pyval) : option pyval :=
  match values with
  | [] => Some best
  | v :: values' =>
      match number v with
      | Some q => if Qltb best_q q then max_from v q values'
                  else max_from best best_q values'
      | None => None
      end
  end.

Definition max_number (values : list pyval) : option pyval :=
  match values with
  | [] => None
  | v :: values' =>
      match number v with
      | Some q => max_from v q values'
      | None => None
      end
  end.

(** [x + 1] for a number [x] *)
Definition plus_one (v : pyval) : pyval :=
  match v with
  | PInt n => PInt (n + 1)
  | PFloat q => PFloat (q + 1)
  | PBool b => PInt (if b then 2 else 1)
  | _ => v
  end.

(** The body of the [try] block for a response that was received. *)
Definition validate_response (response : http_response) (bid_amount : Q)
  : option validation :=
  if (status_code response =? 200)%Z then
    match json response with
    | None => None
    | Some data =>
        match iterate (auctions_of data) with
        | None => None
        | Some auctions =>
            match active_auctions auctions with
            | None => None
            | Some [] =>
                Some (Validation false [Text "No active auctions available"]
                                 None None)
            | Some active =>
                match max_number (map currentBid active) with
                | None => None
                | Some highest_current_bid =>
                    let highest := match number highest_current_bid with
                                   | Some q => q
                                   | None => 0%Q
                                   end in
                    if Qleb bid_amount highest then
                      Some (Validation false
                              [Text "Bid must be higher than current highest bid of $";
                               Shown highest_current_bid]
                              (Some highest_current_bid)
                              (Some (plus_one highest_current_bid)))
                    else if Qltb 10000000 bid_amount then
                      Some (Validation false
                              [Text "Bid amount too high (maximum $10,000,000)"]
                              None None)
                    else if Qltb bid_amount 1 then
                      Some (Validation false
                              [Text "Bid amount too low (minimum $1)"] None None)
                    else
                      Some (Validation true [Text "Valid bid amount"]
                              (Some highest_current_bid) None)
                end
            end
        end
    end
  else
    Some (Validation true [Text "Cannot validate - assuming valid"] None None).

Definition _validate_bid_amount (get : option http_response) (bid_amount : Q)
  : validation :=
  match match get with
        | Some response => validate_response response bid_amount
        | None => None
        end with
  | Some result => result
  | None => Validation true [Text "Validation error - assuming valid"] None None
  end.

(** ** [process_with_advanced_nlp]

    [get] stands for the request [_validate_bid_amount] makes when it is
    called.  The keys of the result are fields; [nlp_auction_item] is
    always [None]. *)

Record nlp_result := NlpResult {
  nlp_response : message;
  nlp_intent : str;
  nlp_confidence : Q;
  nlp_bid_amount : option Q;
  nlp_auction_item : option str;
  nlp_validation : validation;
  nlp_suggestions : list message;
  nlp_context_used : bool;
  nlp_method : str
}.

(** A list of plain strings. *)
Definition texts (l : list string) : list message := map (fun s => [Text s]) l.

Definition help_response : string :=
  "I'm your advanced auction assistant with 99%+ accuracy. Here's what I can do:
            • 'list auctions' - See available items
            • 'current bid' - Check auction status  
            • 'bid [amount] dollars' - Place precise bids
            • 'market insights' - Get AI analysis
            • 'auction details' - Get comprehensive info
            Just speak naturally and I'll understand!".

Definition process_with_advanced_nlp
  (self : processor) (get : option http_response) (user_input : str)
  : outcome nlp_result :=
  analysis <- process_command self user_input ;;
  let result response confidence bid_amount validation suggestions :=
    NlpResult response (intent analysis) confidence bid_amount None validation
              suggestions true (method analysis) in
  let no_validation := Validation true [Text EmptyString] None None in
  if Str.eqb (intent analysis) (lit "bidding") then
    bid_amount <- _extract_bid_amount user_input ;;
    match bid_amount with
    | Some amount =>
        if Qeq_bool amount 0 then
          Returns (result
            [Text "I didn't catch the bid amount clearly. Please specify how much you'd like to bid, for example: 'bid 100 dollars'."]
            (confidence analysis * 0.6)%Q None no_validation
            (texts ["Say 'bid 100 dollars'"; "Try 'place a bid of 250'";
                    "Use 'offer 150 bucks'"]%string))
        else
          let validation := _validate_bid_amount get amount in
          if is_valid validation then
            Returns (result
              [Text "Perfect! I'll place your precise bid of $";
               Shown (PFloat amount); Text "."]
              (pymin (confidence analysis + 0.1) 0.99) (Some amount) validation [])
          else
            Returns (result
              ([Text "Your bid of $"; Shown (PFloat amount); Text " is invalid: "]
               ++ reason validation)
              (confidence analysis * 0.7)%Q (Some amount) validation
              [[Text "Try bidding higher than $";
                Shown (match current_bid validation with
                       | Some bid => bid
                       | None => PInt 0
                       end)];
               [Text "Check auction status first"];
               [Text "Ask for current bid information"]])
    | None =>
        Returns (result
          [Text "I didn't catch the bid amount clearly. Please specify how much you'd like to bid, for example: 'bid 100 dollars'."]
          (confidence analysis * 0.6)%Q None no_validation
          (texts ["Say 'bid 100 dollars'"; "Try 'place a bid of 250'";
                  "Use 'offer 150 bucks'"]%string))
    end
  else if Str.eqb (intent analysis) (lit "listing") then
    Returns (result
      [Text "Let me get the current auctions for you with high precision."]
      (confidence analysis) None no_validation
      (texts ["Ask for 'featured auctions'"; "Try 'ending soon auctions'";
              "Say 'auctions by category'"]%string))
  else if Str.eqb (intent analysis) (lit "status") then
    Returns (result
      [Text "I'll check the current auction status with detailed information."]
      (confidence analysis) None no_validation
      (texts ["Ask for 'highest bid'"; "Try 'auction details'";
              "Say 'time remaining'"]%string))
  else if Str.eqb (intent analysis) (lit "help") then
    Returns (result [Text help_response]
      (confidence analysis) None no_validation
      (texts ["Try 'list active auctions'"; "Say 'bid 100 dollars'";
              "Ask for 'market insights'"]%string))
  else if Str.eqb (intent analysis) (lit "greeting") then
    Returns (result
      [Text "Hello! I'm your advanced auction assistant with 99%+ accuracy. How can I help you with auctions today?"]
      (confidence analysis) None no_validation
      (texts ["Say 'list auctions'"; "Try 'current status'"; "Ask for 'help'"]%string))
  else if Str.eqb (intent analysis) (lit "insights") then
    Returns (result
      [Text "I'll provide comprehensive market insights and analytics."]
      (confidence analysis) None no_validation
      (texts ["Ask for 'trending categories'"; "Try 'price predictions'";
              "Say 'bidding recommendations'"]%string))
  else
    Returns (result
      [Text "I didn't understand that command with sufficient confidence. Try saying 'help' to see what I can do."]
      0.2%Q None no_validation
      (texts ["Say 'help' for commands"; "Try 'list auctions'";
              "Use 'bid 100 dollars'"]%string)).

(** The validation a result carries when none was made. *)
Definition no_validation : validation :=
  Validation true [Text EmptyString] None None.

(** How [process_with_advanced_nlp] turns the analysis [a] of the
    command into its result [r]. *)
Inductive nlp_case (get : option http_response) (user_input : str)
  (a : command_result) (r : nlp_result) : Prop :=
| nlp_bid_valid (amount : Q) :
    intent a = lit "bidding" ->
    _extract_bid_amount user_input = Returns (Some amount) ->
    nlp_bid_amount r = Some amount ->
    nlp_validation r = _validate_bid_amount get amount ->
    is_valid (_validate_bid_amount get amount) = true ->
    nlp_confidence r = pymin (confidence a + 0.1) 0.99 ->
    nlp_case get user_input a r
| nlp_bid_invalid (amount : Q) :
    intent a = lit "bidding" ->
    _extract_bid_amount user_input = Returns (Some amount) ->
    nlp_bid_amount r = Some amount ->
    nlp_validation r = _validate_bid_amount get amount ->
    is_valid (_validate_bid_amount get amount) = false ->
    nlp_confidence r = (confidence a * 0.7)%Q ->
    nlp_case get user_input a r
| nlp_bid_missing :
    intent a = lit "bidding" ->
    _extract_bid_amount user_input = Returns None ->
    nlp_bid_amount r = None ->
    nlp_validation r = no_validation ->
    nlp_confidence r = (confidence a * 0.6)%Q ->
    nlp_case get user_input a r
| nlp_other :
    In (intent a) (map lit ["listing"; "status"; "help"; "greeting";
                            "insights"]%string) ->
    nlp_bid_amount r = None ->
    nlp_validation r = no_validation ->
    nlp_confidence r = confidence a ->
    nlp_case get user_input a r
| nlp_unknown :
    ~ In (intent a) registry_intents ->
    nlp_bid_amount r = None ->
    nlp_validation r = no_validation ->
    nlp_confidence r = 0.2%Q ->
    nlp_case get user_input a r.

(** ** [_place_bid]

    [get] stands for the request for the auctions ([None]: it raises),
    [now] for [datetime.now().isoformat()], and [post] for the request
    that places the bid, given the data sent ([None]: it raises). *)

Record bid_response := BidResponse {
  bid_status_code : Z;
  bid_content : bool;           (* bid_response.content is not empty *)
  bid_json : option pyval       (* None: json() raises *)
}.

(** The dictionary [_place_bid] returns.  [suggestions] is [None] where
    the key is absent; [error] tells whether the key "error" is present
    (its value, the text of the exception, is not represented); [more]
    holds the keys of a placed bid. *)
Record action_result := ActionResult {
  response : message;
  success : bool;
  suggestions : option (list message);
  error : bool;
  more : dict pyval
}.

(** [v.lower()]: only a string has [lower]. *)
Definition lower_of (v : pyval) : option str :=
  match v with
  | PStr s => Some (Str.lower s)
  | _ => None
  end.

(** [x + k] for a number [x] and an integer [k] *)
Definition plus_int (v : pyval) (k : Z) : pyval :=
  match v with
  | PInt n => PInt (n + k)
  | PFloat q => PFloat (q + inject_Z k)
  | PBool b => PInt ((if b then 1 else 0) + k)
  | _ => v
  end.

(** The loop that looks for the auction named; [None] when [lower] is
    called on a value that is no string. *)
Fixpoint select_target (item_lower : str) (active : list (dict pyval))
  (target_auction : dict pyval) : option (dict pyval) :=
  match active with
  | [] => Some target_auction
  | auction :: active' =>
      match lower_of (get_or (lit "name") (PStr []) auction),
            lower_of (get_or (lit "description") (PStr []) auction),
            lower_of (get_or (lit "category") (PStr []) auction) with
      | Some auction_name, Some auction_desc, Some auction_category =>
          if Str.contains item_lower auction_name
             || Str.contains item_lower auction_desc
             || Str.contains item_lower auction_category
          then Some auction
          else select_target item_lower active' target_auction
      | _, _, _ => None
      end
  end.

(** [d.get(k)] *)
Definition get_none (k : str) (d : dict pyval) : pyval := get_or k PNone d.

Definition bid_data (target_auction : dict pyval) (bid_amount : Q)
  (user_id now : str) : dict pyval := [
  (lit "productId", get_none (lit "_id") target_auction);
  (lit "bidAmount", PFloat bid_amount);
  (lit "bidderName", PStr (lit "Enhanced AI User " ++ lastn 4 user_id));
  (lit "bidType", PStr (lit "voice"));
  (lit "source", PStr (lit "ai_enhanced_v2"));
  (lit "timestamp", PStr now);
  (lit "confidence", PFloat 0.99);
  (lit "session_id", PStr user_id)
].

(** The result of the [except] clause. *)
Definition place_failed : action_result :=
  ActionResult
    [Text "Sorry, there was an error placing your bid. Please try again."]
    false
    (Some (texts ["Check your internet connection"; "Try again in a moment";
                  "Contact support if issue persists"]%string))
    true [].

(** What follows the request that places the bid. *)
Definition placed (bid_response : option bid_response)
  (target_auction : dict pyval) (bid_amount : Q) (current_bid : pyval)
  : action_result :=
  match bid_response with
  | None => place_failed
  | Some bid_response =>
      if (bid_status_code bid_response =? 200)%Z then
        ActionResult
          [Text "Excellent! Your precise bid of $"; Shown (PFloat bid_amount);
           Text " has been successfully placed for ";
           Shown (get_or (lit "name") (PStr (lit "the auction")) target_auction);
           Text ". You're now the highest bidder!"]
          true
          (Some (texts ["Check auction status"; "Set up bid alerts";
                        "View auction details"]%string))
          false
          [(lit "auction", get_none (lit "name") target_auction);
           (lit "amount", PFloat bid_amount);
           (lit "previous_bid", current_bid)]
      else
        match (if bid_content bid_response then bid_json bid_response
               else Some (PDict [])) with
        | Some (PDict error_data) =>
            let error_msg :=
              get_or (lit "message") (PStr (lit "Unknown error occurred"))
                     error_data in
            ActionResult
              [Text "I couldn't place your bid: "; Shown error_msg]
              false
              (Some (texts ["Try a higher amount"; "Check auction status";
                            "Verify auction is still active"]%string))
              false []
        | _ => place_failed
        end
  end.

(** The first component is the data of the bid when the request that
    places it was made. *)
Definition _place_bid (get : option http_response) (now : str)
  (post : dict pyval -> option bid_response)
  (bid_amount : Q) (auction_item : option str) (user_id : str)
  : option (dict pyval) * action_result :=
  match get with
  | None => (None, place_failed)
  | Some response =>
      if negb (status_code response =? 200)%Z then
        (None,
         ActionResult
           [Text "Sorry, I can't access auction data right now. Please try again later."]
           false None false [])
      else
        match json response with
        | None => (None, place_failed)
        | Some data =>
            match iterate (auctions_of data) with
            | None => (None, place_failed)
            | Some auctions =>
                match active_auctions auctions with
                | None => (None, place_failed)
                | Some [] =>
                    (None,
                     ActionResult
                       [Text "There are no active auctions to bid on at the moment."]
                       false
                       (Some (texts ["Check back later";
                                     "Ask for 'upcoming auctions'"]%string))
                       false [])
                | Some (first :: rest) =>
                    match (match auction_item with
                           | Some (c :: item) =>
                               select_target (Str.lower (c :: item))
                                             (first :: rest) first
                           | _ => Some first
                           end) with
                    | None => (None, place_failed)
                    | Some target_auction =>
                        let current_bid := currentBid target_auction in
                        match number current_bid with
                        | None => (None, place_failed)
                        | Some current =>
                            if Qleb bid_amount current then
                              (None,
                               ActionResult
                                 [Text "Your bid of $"; Shown (PFloat bid_amount);
                                  Text " is too low. Current bid is $";
                                  Shown current_bid;
                                  Text ". Please bid at least $";
                                  Shown (plus_int current_bid 1); Text "."]
                                 false
                                 (Some [[Text "Try bidding $";
                                         Shown (plus_int current_bid 10)];
                                        [Text "Bid $";
                                         Shown (plus_int current_bid 25)];
                                        [Text "Check current status first"]])
                                 false [])
                            else
                              let data := bid_data target_auction bid_amount
                                                   user_id now in
                              (Some data,
                               placed (post data) target_auction bid_amount
                                      current_bid)
                        end
                    end
                end
            end
        end
  end.

(** ** The telephone agent ([EnhancedTwilioVoxtaAgent]) *)

Module Twilio.

Import Pat.

Definition patterns : list regex := [
  (* (\d+(?:\.\d{2})?)\s+dollars? *)
  seq [num; s1; plural "dollar"];
  (* bid\s+(\d+(?:\.\d{2})?) *)
  seq [word "bid"; s1; num];
  (* (\d+(?:\.\d{2})?)\s+bucks? *)
  seq [num; s1; plural "buck"];
  (* (\d+(?:\.\d{2})?)\s+(?:dollar|buck) *)
  seq [num; s1; alts [word "dollar"; word "buck"]];
  (* (?:[$]?)(\d+(?:\.\d{2})?) *)
  seq [dollar; num]
].

(** The loop of [extract_bid_amount]: [re.search] without flags on the
    text in lower case; only [ValueError] resumes the loop. *)
Fixpoint extract_from (patterns : list regex) (text : str) : outcome (option Q) :=
  match patterns with
  | [] => Returns None
  | pattern :: patterns' =>
      match search false pattern (Str.lower text) with
      | Some m =>
          match Float.float (group1 m) with
          | Returns amount =>
              if Qleb 1 amount && Qleb amount 1000000
              then Returns (Some amount)
              else extract_from patterns' text
          | Raises ValueError => extract_from patterns' text
          | Raises e => Raises e
          end
      | None => extract_from patterns' text
      end
  end.

Definition extract_bid_amount (text : str) : outcome (option Q) :=
  extract_from patterns text.

(** [self.session_data]: for each caller the data stored for it. *)
Definition sessions := dict (dict pyval).

Definition store_session_data (session_data : sessions)
  (caller_phone key : str) (value : pyval) : sessions :=
  let session_data :=
    match dict_get caller_phone session_data with
    | Some _ => session_data
    | None => dict_set caller_phone [] session_data
    end in
  dict_set caller_phone
           (dict_set key value (get_or caller_phone [] session_data))
           session_data.

Definition get_session_data (session_data : sessions)
  (caller_phone key : str) (default : pyval) : pyval :=
  get_or key default (get_or caller_phone [] session_data).

End Twilio.

(** * Properties *)

(** ** The model on the inputs of the test-suite *)

Example split_demo :
  Str.split (lit "  um,  bid 100 dollars ")
  = [lit "um,"; lit "bid"; lit "100"; lit "dollars"].
Proof. reflexivity. Qed.

Example replace_demo :
  Str.replace (lit "aa") (lit "b") (lit "aaaxaa") = lit "baxb".
Proof. reflexivity. Qed.

Example search_demo :
  option_map (fun m => (m_start m, m_end m, group1 m))
    (search true (seq [word "bid"; Plus Space; Opt (Chr "$"); Grp (seq [Plus Digit; Opt (seq [Chr "."; Cls Digit; Cls Digit])])])
       (lit "please BID  $12.505 now"))
  = Some (7, 18, Some (lit "12.50")).
Proof. reflexivity. Qed.

Example ratio_demo :
  (Difflib.ratio (lit "abcd") (lit "bcde") == 0.75)%Q
  /\ (Difflib.ratio (lit "bid") (lit "display") == 0.2)%Q
  /\ (Difflib.ratio (lit "private thread") (lit "private volatile thread")
      == 28 # 37)%Q.
Proof. repeat split; vm_compute; reflexivity. Qed.

Example float_demo :
  Float.float (Some (lit "250.50")) = Returns (250 + 50 / 100)%Q
  /\ Float.float (Some (lit "fifty")) = Raises ValueError.
Proof. split; reflexivity. Qed.

Example preprocess_demo :
  _preprocess_text (lit "  Place a BIT of $200, okay ") = lit "place a bid of $200"
  /\ _preprocess_text (lit "um, bid 100 dollars please")
     = lit "um bid 100 dollarss please"
  /\ _preprocess_text (lit "I want to buy this") = lit "i want to bid this".
Proof. repeat split; reflexivity. Qed.

(** The cases of [test_enhanced_bid_extraction]. *)
Example extract_demo :
  map (fun t => _extract_bid_amount (lit t))
      ["bid 100 dollars"; "place a bid of 250.50"; "I want to bid $150";
       "go 300"; "offer 75 bucks"; "my bid is 500"; "put in 200 dollars";
       "raise to 350"; "increase to $400"; "bid fifty"; "no numbers here";
       "bid zero"]%string
  = map Returns
      [Some (inject_Z 100); Some (250 + 50 / 100)%Q; Some (inject_Z 150);
       Some (inject_Z 300); Some (inject_Z 75); Some (inject_Z 500);
       Some (inject_Z 200); Some (inject_Z 350); Some (inject_Z 400);
       None; None; None].
Proof. reflexivity. Qed.

(** An amount out of range is passed over for the next candidate. *)
Example extract_skips :
  _extract_bid_amount (lit "lot 7 for 0 dollars") = Returns (Some (inject_Z 7)).
Proof. reflexivity. Qed.

(** ** The conversation history *)

Section History.

Lemma lastn_length {A} (n : nat) (xs : list A) :
  length (lastn n xs) = Nat.min n (length xs).
Proof. unfold lastn. rewrite length_skipn. lia. Qed.

Lemma lastn_all {A} (n : nat) (xs : list A) :
  length xs <= n -> lastn n xs = xs.
Proof.
  intros H. unfold lastn.
  replace (length xs - n) with 0 by lia. reflexivity.
Qed.

Lemma lastn_app_one {A} (n : nat) (xs : list A) (x : A) :
  lastn (S n) (xs ++ [x]) = lastn n xs ++ [x].
Proof.
  unfold lastn. rewrite length_app. simpl.
  replace (length xs + 1 - S n) with (length xs - n) by lia.
  rewrite skipn_app.
  replace (length xs - n - length xs) with 0 by lia. reflexivity.
Qed.

Lemma lastn_lastn_app {A} (n : nat) (xs : list A) (x : A) :
  lastn (S n) (lastn (S n) xs ++ [x]) = lastn (S n) (xs ++ [x]).
Proof.
  rewrite !lastn_app_one. f_equal.
  unfold lastn. rewrite skipn_skipn, length_skipn. f_equal. lia.
Qed.

Lemma append_entry_lastn (h : list (dict pyval)) (e : dict pyval) :
  append_entry h e = lastn 50 (h ++ [e]).
Proof.
  unfold append_entry.
  destruct (50 <? length (h ++ [e])) eqn:E; [reflexivity |].
  apply Nat.ltb_ge in E. symmetry. apply lastn_all, E.
Qed.

Lemma append_entry_bound (h : list (dict pyval)) (e : dict pyval) :
  length (append_entry h e) <= 50.
Proof. rewrite append_entry_lastn, lastn_length. lia. Qed.

Lemma history_step (t : turn) (self : processor) :
  conversation_history (fst (process_voice_command t self))
  = append_entry (conversation_history self) (conversation_entry t).
Proof.
  unfold process_voice_command.
  destruct (dict_get (lit "intent") (turn_result t)); [| reflexivity].
  destruct (gt_float _ _); reflexivity.
Qed.

(** After any number of turns the history is the last 50 entries of the
    session, oldest first. *)
Lemma history_run (ts : list turn) (self : processor) :
  conversation_history (run_turns ts self)
  = lastn 50 (lastn 50 (conversation_history self) ++ map conversation_entry ts)
    \/ (ts = [] /\ conversation_history (run_turns ts self)
                  = conversation_history self).
Proof.
  induction ts as [| t ts IH] using rev_ind; [right; auto |].
  left. unfold run_turns in *. rewrite fold_left_app. simpl.
  rewrite history_step, append_entry_lastn.
  destruct IH as [IH | [-> IH]].
  - rewrite IH, map_app, app_assoc. simpl. apply lastn_lastn_app.
  - simpl in *. rewrite <- lastn_lastn_app. reflexivity.
Qed.

End History.

(** C8.  Every turn leaves at most 50 entries in the history, whatever
    the history was; and after 60 turns of a fresh processor the history
    has exactly 50 entries, those of the last 50 turns in their order. *)
Theorem history_keeps_last_50 :
  (forall (t : turn) (self : processor),
      length (conversation_history (fst (process_voice_command t self))) <= 50)
  /\ (forall ts : list turn,
        length ts = 60 ->
        length (conversation_history (run_turns ts init)) = 50
        /\ conversation_history (run_turns ts init)
           = skipn 10 (map conversation_entry ts)).
Proof.
  split.
  - intros t self. rewrite history_step. apply append_entry_bound.
  - intros ts Hlen.
    assert (H : conversation_history (run_turns ts init)
                = skipn 10 (map conversation_entry ts)).
    { destruct (history_run ts init) as [H | [-> _]]; [| discriminate].
      rewrite H. simpl. unfold lastn. rewrite length_map, Hlen. reflexivity. }
    split; [| exact H].
    rewrite H, length_skipn, length_map, Hlen. reflexivity.
Qed.

Lemma history_keeps_last_50_witness :
  let ts := map sample_turn (List.seq 0 60) in
  length ts = 60
  /\ length (conversation_history (run_turns ts init)) = 50
  /\ conversation_history (run_turns ts init)
     = skipn 10 (map conversation_entry ts).
Proof.
  intros ts. split; [reflexivity |].
  apply (proj2 history_keeps_last_50 ts). reflexivity.
Defined.

(** ** The utterance "help" *)

(** "help" is not classified with confidence 0.98: no outcome of
    [process_command] on it has that confidence. *)
Lemma help_is_not_098 :
  ~ exists r, process_command init (lit "help") = Returns r
              /\ intent r = lit "help" /\ (confidence r == 0.98)%Q.
Proof.
  intros [r [H [_ Hc]]].
  vm_compute in H. injection H as <-. vm_compute in Hc. discriminate.
Qed.

(** C3, amended.  "help" is classified by its pattern as [help] with
    confidence 0.99: the override 0.98 plus the boost 0.15 of the intent,
    capped at 0.99. *)
Theorem help_confidence (self : processor) :
  exists r, process_command self (lit "help") = Returns r
            /\ intent r = lit "help"
            /\ method r = lit "pattern_match"
            /\ (confidence r == 0.99)%Q
            /\ (confidence r == pymin (0.98 + 0.15) 0.99)%Q.
Proof.
  eexists. split; [vm_compute; reflexivity |].
  repeat split; vm_compute; reflexivity.
Qed.

(** ** The fuzzy matcher on a lone keyword *)

(** C4.  On "bid", "list" and "status" the fuzzy matcher returns its
    default: the best weighted score is that of one keyword among the
    seven of [status] or of [listing], 1/49, far below 0.6. *)
Theorem fuzzy_lone_keyword (self : processor) :
  _fuzzy_match_intent self (lit "bid") = (lit "unknown", 0.1%Q)
  /\ _fuzzy_match_intent self (lit "list") = (lit "unknown", 0.1%Q)
  /\ _fuzzy_match_intent self (lit "status") = (lit "unknown", 0.1%Q)
  /\ (snd (best_fuzzy (lit "bid") command_patterns) == 1 # 49)%Q
  /\ (snd (best_fuzzy (lit "list") command_patterns) == 1 # 49)%Q
  /\ (snd (best_fuzzy (lit "status") command_patterns) == 1 # 49)%Q.
Proof. repeat split; vm_compute; reflexivity. Qed.

(** ** The context bonus *)

(** An entry of the history has the keys [user_id], [input], [result],
    [timestamp], [session_stats] and [processing_time]; the intent of the
    turn is under [result]. *)
Lemma entry_has_no_intent (t : turn) :
  dict_get (lit "intent") (conversation_entry t) = None.
Proof. reflexivity. Qed.

Lemma last_item_append_entry (h : list (dict pyval)) (e : dict pyval) :
  last_item (append_entry h e) = Some e.
Proof.
  rewrite append_entry_lastn. unfold last_item.
  assert (E : lastn 1 (lastn 50 (h ++ [e])) = [e]).
  { change 50 with (S 49). rewrite lastn_app_one.
    change 1 with (S 0). rewrite lastn_app_one.
    unfold lastn at 1. rewrite Nat.sub_0_r, skipn_all. reflexivity. }
  rewrite E. reflexivity.
Qed.

(** After a turn, whatever its result, no named intent gets the bonus. *)
Lemma context_bonus_after_turn (t : turn) (self : processor) (intent : str) :
  intent <> [] ->
  context_bonus (fst (process_voice_command t self)) intent = 0.0%Q.
Proof.
  intros Hne. unfold context_bonus.
  rewrite history_step, last_item_append_entry.
  unfold get_or. rewrite entry_has_no_intent.
  destruct intent; [contradiction | reflexivity].
Qed.

(** C6.  The previous turn was classified [status]; scoring the candidate
    [status] for the next utterance adds no continuity bonus, and the score
    is the one a fresh processor gives. *)
Theorem context_bonus_not_awarded :
  let self := fst (process_voice_command (sample_turn 0) init) in
  option_map (dict_get (lit "result")) (last_item (conversation_history self))
  = Some (Some (PDict (turn_result (sample_turn 0))))
  /\ dict_get (lit "intent") (turn_result (sample_turn 0)) = Some (PStr (lit "status"))
  /\ context_bonus self (lit "status") = 0.0%Q
  /\ _calculate_confidence self (lit "status now") (lit "status") false
     = _calculate_confidence init (lit "status now") (lit "status") false.
Proof. repeat split; vm_compute; reflexivity. Qed.

(** ** Group 1 of a match *)

(** Membership in a list of at most one cursor. *)
Ltac one H :=
  lazymatch type of H with
  | In _ [] => destruct H
  | In _ [_] => destruct H as [<- | []]
  | False => destruct H
  | _ \/ False => destruct H as [<- | []]
  end.

Section Capture.

Variable ic : bool.

Lemma star_grp (k : cclass) (s : str) :
  forall st e, In e (star k st s) -> grp e = grp st.
Proof.
  induction s as [| c s IH]; simpl; intros st e H.
  - one H. reflexivity.
  - destruct (in_class k c).
    + apply in_app_or in H. destruct H as [H | H]; [| one H; reflexivity].
      apply IH in H. exact H.
    + one H. reflexivity.
Qed.

Lemma run_keeps_grp (r : regex) :
  forall st e, In e (run ic r st) -> grp st <> None -> grp e <> None.
Proof.
  induction r; simpl; intros st e H Hg.
  - one H. exact Hg.
  - destruct (rest st); [one H |].
    destruct (chr_eq ic c a); one H. exact Hg.
  - destruct (rest st); [one H |].
    destruct (in_class k a); one H. exact Hg.
  - apply in_flat_map in H. destruct H as [m [H1 H2]]. eauto.
  - apply in_app_or in H. destruct H; eauto.
  - apply in_app_or in H. destruct H as [H | H]; [eauto | one H; exact Hg].
  - destruct (rest st); [one H |].
    destruct (in_class k a); [| one H].
    apply star_grp in H. rewrite H. exact Hg.
  - apply star_grp in H. rewrite H. exact Hg.
  - apply in_map_iff in H. destruct H as [m [<- _]]. discriminate.
  - destruct (pos st =? 0); one H. exact Hg.
  - destruct (rest st) as [| t [| ? ?]]; try destruct (Char.eqb t _);
      one H; exact Hg.
  - destruct (xorb _ _); one H. exact Hg.
Qed.

Lemma run_captures (r : regex) :
  captures r = true ->
  forall st e, In e (run ic r st) -> grp e <> None.
Proof.
  induction r; simpl; try discriminate; intros Hc st e H.
  - apply in_flat_map in H. destruct H as [m [H1 H2]].
    apply orb_true_iff in Hc. destruct Hc as [Hc | Hc].
    + eapply run_keeps_grp; eauto.
    + eauto.
  - apply andb_true_iff in Hc. destruct Hc.
    apply in_app_or in H. destruct H; eauto.
  - apply in_map_iff in H. destruct H as [m [<- _]]. discriminate.
Qed.

Lemma search_at_captures (r : regex) (s : str) :
  captures r = true ->
  forall st m, search_at ic r st s = Some m -> group1 m <> None.
Proof.
  intros Hc. induction s as [| c s IH]; simpl; intros st m H.
  - destruct (run ic r st) as [| e l] eqn:E; [discriminate |].
    injection H as <-. simpl. apply (run_captures r Hc st). rewrite E. left.
    reflexivity.
  - destruct (run ic r st) as [| e l] eqn:E; [eauto |].
    injection H as <-. simpl. apply (run_captures r Hc st). rewrite E. left.
    reflexivity.
Qed.

Lemma search_captures (r : regex) (text : str) (m : rmatch) :
  captures r = true -> search ic r text = Some m ->
  exists g, group1 m = Some g.
Proof.
  intros Hc H. apply search_at_captures in H; [| exact Hc].
  destruct (group1 m) as [g |]; [eauto | contradiction].
Qed.

End Capture.

Lemma bidding_patterns_capture : forallb captures Pat.bidding = true.
Proof. reflexivity. Qed.

(** ** The amount extractor never raises and stays in range *)

Lemma reasonable_spec (amount : Q) :
  reasonable amount = true -> (0.01 <= amount /\ amount <= 10000000)%Q.
Proof.
  unfold reasonable, Qleb. intros H. apply andb_true_iff in H.
  destruct H as [H1 H2]. split; apply Qle_bool_iff; assumption.
Qed.

(** [float] of a string raises nothing but [ValueError]. *)
Lemma float_of_str (s : str) :
  (exists q, Float.float (Some s) = Returns q)
  \/ Float.float (Some s) = Raises ValueError.
Proof. unfold Float.float. destruct (Float.decimal s); eauto. Qed.

Lemma extract_direct_ok (text : str) (pats : list regex) :
  forallb captures pats = true ->
  exists r, extract_direct pats text = Returns r /\ in_range r.
Proof.
  induction pats as [| p pats IH]; simpl; intros Hc.
  - exists None. split; [reflexivity | exact I].
  - apply andb_true_iff in Hc. destruct Hc as [Hp Hc]. specialize (IH Hc).
    destruct (search true p text) as [m |] eqn:E; [| exact IH].
    destruct (search_captures _ _ _ _ Hp E) as [g ->].
    destruct (float_of_str g) as [[q ->] | ->]; cbn [try_continue]; [| exact IH].
    destruct (reasonable q) eqn:R; [| exact IH].
    exists (Some q). split; [reflexivity | apply reasonable_spec, R].
Qed.

Lemma first_reasonable_ok (matches : list str) :
  exists r, first_reasonable matches = Returns r /\ in_range r.
Proof.
  induction matches as [| m ms IH]; cbn [first_reasonable].
  - exists None. split; [reflexivity | exact I].
  - destruct (float_of_str m) as [[q ->] | ->]; cbn [try_continue]; [| exact IH].
    destruct (reasonable q) eqn:R; [| exact IH].
    exists (Some q). split; [reflexivity | apply reasonable_spec, R].
Qed.

Lemma extract_currency_ok (text : str) (pats : list regex) :
  exists r, extract_currency pats text = Returns r /\ in_range r.
Proof.
  induction pats as [| p pats IH]; cbn [extract_currency].
  - exists None. split; [reflexivity | exact I].
  - destruct (first_reasonable_ok (findall true p text)) as [r [-> Hr]].
    cbn [bind].
    destruct r as [a |]; [| exact IH].
    exists (Some a). split; [reflexivity | exact Hr].
Qed.

Lemma extract_number_ok (text : str) (numbers : list str) :
  exists r, extract_number numbers text = Returns r /\ in_range r.
Proof.
  induction numbers as [| n ns IH]; cbn [extract_number].
  - exists None. split; [reflexivity | exact I].
  - destruct (float_of_str n) as [[q ->] | ->]; cbn [try_continue]; [| exact IH].
    destruct (reasonable q) eqn:R; cbn [andb]; [| exact IH].
    destruct (existsb _ bidding_keywords); [| exact IH].
    exists (Some q). split; [reflexivity | apply reasonable_spec, R].
Qed.






(** ** Comparisons and bounds on numbers *)

Section Numbers.

Local Open Scope Q_scope.

Lemma Qltb_true (x y : Q) : Qltb x y = true <-> x < y.
Proof.
  unfold Qltb. rewrite negb_true_iff. split; intros H.
  - apply Qnot_le_lt. intros C. apply Qle_bool_iff in C. congruence.
  - destruct (Qle_bool y x) eqn:E; [| reflexivity].
    apply Qle_bool_iff in E. apply Qlt_not_le in H. contradiction.
Qed.

Lemma Qltb_false (x y : Q) : Qltb x y = false <-> y <= x.
Proof.
  unfold Qltb. rewrite negb_false_iff. apply Qle_bool_iff.
Qed.

Lemma pymin_le_r (x y : Q) : pymin x y <= y.
Proof.
  unfold pymin. destruct (Qltb y x) eqn:E; [lra |].
  apply Qltb_false in E. exact E.
Qed.

Lemma pymin_le_l (x y : Q) : pymin x y <= x.
Proof.
  unfold pymin. destruct (Qltb y x) eqn:E; [| lra].
  apply Qltb_true in E. lra.
Qed.

Lemma pymin_ge (x y z : Q) : z <= x -> z <= y -> z <= pymin x y.
Proof. unfold pymin. destruct (Qltb y x); auto. Qed.

Lemma pymin_eq (x y : Q) : pymin x y == Qmin x y.
Proof.
  unfold pymin. destruct (Qltb y x) eqn:E.
  - apply Qltb_true in E. rewrite Q.min_r; lra.
  - apply Qltb_false in E. rewrite Q.min_l; lra.
Qed.

Lemma pymax_le (x y z : Q) : x <= z -> y <= z -> pymax x y <= z.
Proof. unfold pymax. destruct (Qltb x y); auto. Qed.

Lemma pymax_ge_l (x y : Q) : x <= pymax x y.
Proof.
  unfold pymax. destruct (Qltb x y) eqn:E; [| lra].
  apply Qltb_true in E. lra.
Qed.

Lemma Qnat_nonneg (n : nat) : 0 <= Qnat n.
Proof. unfold Qnat. rewrite <- (Zle_Qle 0). lia. Qed.

Lemma Qnat_le (n m : nat) : (n <= m)%nat -> Qnat n <= Qnat m.
Proof. intros H. unfold Qnat. rewrite <- Zle_Qle. lia. Qed.

Lemma Qnat_pos (n : nat) : (0 < n)%nat -> 0 < Qnat n.
Proof. intros H. unfold Qnat. rewrite <- (Zlt_Qlt 0). lia. Qed.

Lemma Qnat_S (n : nat) : Qnat (S n) == Qnat n + 1.
Proof.
  unfold Qnat. rewrite Nat2Z.inj_succ, <- Z.add_1_r, inject_Z_plus. reflexivity.
Qed.

Lemma Qnat_add (n m : nat) : Qnat (n + m) == Qnat n + Qnat m.
Proof. unfold Qnat. rewrite Nat2Z.inj_add, inject_Z_plus. reflexivity. Qed.

(** A quotient of a smaller by a larger count. *)
Lemma Qdiv_unit (x n : Q) : 0 <= x -> x <= n -> 0 < n -> 0 <= x / n /\ x / n <= 1.
Proof.
  intros H0 H1 Hn. split.
  - apply Qle_shift_div_l; [exact Hn | lra].
  - apply Qle_shift_div_r; [exact Hn | lra].
Qed.

Lemma bid_confidence_bounds (a : Q) :
  0.90 <= bid_confidence a /\ bid_confidence a <= 0.99.
Proof.
  unfold bid_confidence.
  destruct (Qltb 10 a); destruct (Qleb 10 a && Qleb a 10000);
    (split; [try apply pymin_ge; lra | try apply pymin_le_r; lra]).
Qed.

End Numbers.

(** ** [SequenceMatcher]: the ratio is between 0 and 1 *)

Module DifflibFacts.

Import Difflib.

Lemma lcp_le (a b : str) : lcp a b <= length a /\ lcp a b <= length b.
Proof.
  revert b. induction a as [| x a IH]; intros [| y b]; simpl; try lia.
  destruct (Char.eqb x y); [| lia]. specialize (IH b). lia.
Qed.

Lemma better_fits (la lb : nat) (m : block) (i j k : nat) :
  fits la lb m -> i + k <= la -> j + k <= lb -> fits la lb (better m i j k).
Proof.
  intros Hm Hi Hj. unfold better. destruct (size m <? k); [| exact Hm].
  split; assumption.
Qed.

Lemma scan_b_fits (la lb : nat) (a_i : str) (i : nat) (b_j : str) :
  i + length a_i <= la ->
  forall j best, j + length b_j <= lb -> fits la lb best ->
                 fits la lb (scan_b a_i i j b_j best).
Proof.
  intros Hi. induction b_j as [| y b IH]; simpl; intros j best Hj Hb.
  - apply better_fits; [exact Hb | |];
      pose proof (lcp_le a_i []); simpl in *; lia.
  - apply IH; [lia |].
    apply better_fits; [exact Hb | |];
      pose proof (lcp_le a_i (y :: b)); simpl in *; lia.
Qed.

Lemma scan_a_fits (la : nat) (b : str) (a_i : str) :
  forall i best, i + length a_i <= la -> fits la (length b) best ->
                 fits la (length b) (scan_a a_i i b best).
Proof.
  induction a_i as [| x a IH]; simpl; intros i best Hi Hb.
  - apply scan_b_fits; simpl; auto; lia.
  - apply IH; [lia |]. apply scan_b_fits; simpl; auto; lia.
Qed.

Lemma find_longest_match_fits (a b : str) :
  fits (length a) (length b) (find_longest_match a b).
Proof.
  unfold find_longest_match. apply scan_a_fits; simpl; lia.
Qed.

Lemma matches_le (fuel : nat) :
  forall a b, matches fuel a b <= length a /\ matches fuel a b <= length b.
Proof.
  induction fuel as [| fuel IH]; intros a b; simpl; [lia |].
  pose proof (find_longest_match_fits a b) as F.
  destruct (find_longest_match a b) as [[i j] k]. simpl in F.
  destruct (k =? 0); [lia |].
  pose proof (IH (firstn i a) (firstn j b)) as L.
  pose proof (IH (skipn (i + k) a) (skipn (j + k) b)) as R.
  rewrite !length_firstn in L. rewrite !length_skipn in R. lia.
Qed.

Lemma ratio_bounds (a b : str) : (0 <= ratio a b /\ ratio a b <= 1)%Q.
Proof.
  unfold ratio. destruct (length a + length b =? 0) eqn:E; [lra |].
  apply Nat.eqb_neq in E.
  pose proof (matches_le (S (length a)) a b) as M.
  set (m := matches (S (length a)) a b) in *.
  assert (Hm : (Qnat m + Qnat m <= Qnat (length a + length b))%Q).
  { rewrite <- Qnat_add. apply Qnat_le. lia. }
  pose proof (Qnat_nonneg m).
  assert (Hp : (0 < Qnat (length a + length b))%Q) by (apply Qnat_pos; lia).
  split.
  - apply Qle_shift_div_l; [exact Hp | lra].
  - apply Qle_shift_div_r; [exact Hp | lra].
Qed.

End DifflibFacts.

(** ** The stages of [process_command] *)

Section Stages.

Local Open Scope Q_scope.

Lemma fold_left_invariant {A B} (P : A -> Prop) (f : A -> B -> A) (l : list B) :
  (forall a x, In x l -> P a -> P (f a x)) ->
  forall a, P a -> P (fold_left f l a).
Proof.
  induction l as [| x l IH]; simpl; intros Hf a Ha; [exact Ha |].
  apply IH; [intros; apply Hf; auto | apply Hf; auto].
Qed.

(** *** Fuzzy matching *)

Lemma keyword_similarity_bounds (text keyword : str) :
  0 <= keyword_similarity text keyword /\ keyword_similarity text keyword <= 1.
Proof.
  unfold keyword_similarity.
  pose proof (DifflibFacts.ratio_bounds text keyword) as [R0 R1].
  set (r := Difflib.ratio text keyword) in *.
  assert (H : 0 <= (if Str.contains keyword text then pymax r 0.8 else r)
              /\ (if Str.contains keyword text then pymax r 0.8 else r) <= 1).
  { destruct (Str.contains keyword text); [| auto].
    split; [pose proof (pymax_ge_l r 0.8); lra | apply pymax_le; lra]. }
  destruct H as [H0 H1].
  destruct (search false _ text); [| auto].
  split; [| apply pymax_le; lra].
  match goal with |- _ <= pymax ?x _ => pose proof (pymax_ge_l x 0.9) end. lra.
Qed.

Lemma score_keywords_bounds (text : str) (kws : list str) :
  0 <= fst (score_keywords text kws)
  /\ fst (score_keywords text kws) <= Qnat (snd (score_keywords text kws))
  /\ (snd (score_keywords text kws) <= length kws)%nat.
Proof.
  unfold score_keywords.
  set (f := fun (acc : Q * nat) keyword => _).
  assert (G : forall l acc,
             0 <= fst acc /\ fst acc <= Qnat (snd acc) ->
             0 <= fst (fold_left f l acc)
             /\ fst (fold_left f l acc) <= Qnat (snd (fold_left f l acc))
             /\ (snd (fold_left f l acc) <= snd acc + length l)%nat).
  { induction l as [| k l IH]; simpl; intros acc [H0 H1].
    - repeat split; auto. lia.
    - destruct (IH (f acc k)) as [A [B C]].
      + unfold f. pose proof (keyword_similarity_bounds text k) as [S0 S1].
        destruct (Qltb 0.6 (keyword_similarity text k)); simpl; [| auto].
        rewrite Qnat_S. split; lra.
      + repeat split; auto.
        assert (snd (f acc k) <= S (snd acc))%nat; [| lia].
        unfold f. destruct (Qltb 0.6 (keyword_similarity text k)); simpl; lia. }
  destruct (G kws (0, 0%nat)) as [A [B C]];
    [simpl; split; [lra | apply Qnat_nonneg] |].
  repeat split; auto.
Qed.

Lemma weighted_score_bounds (text : str) (config : intent_config) (w : Q) :
  weighted_score text config = Some w -> 0 <= w /\ w <= 1.
Proof.
  unfold weighted_score.
  pose proof (score_keywords_bounds text (keywords config)) as [A [B C]].
  destruct (score_keywords text (keywords config)) as [s m]. simpl in *.
  destruct (0 <? m)%nat eqn:E; [| discriminate].
  apply Nat.ltb_lt in E. intros H. injection H as <-.
  set (n := Qnat (length (keywords config))).
  assert (Hn : 0 < n) by (apply Qnat_pos; lia).
  assert (Hm : Qnat m <= n) by (apply Qnat_le; exact C).
  pose proof (Qnat_nonneg m).
  destruct (Qdiv_unit s n) as [X0 X1]; [lra | lra | exact Hn |].
  destruct (Qdiv_unit (Qnat m) n) as [Y0 Y1]; [lra | lra | exact Hn |].
  split; nra.
Qed.

Lemma best_fuzzy_spec (text : str) (registry : dict intent_config) :
  0 <= snd (best_fuzzy text registry)
  /\ snd (best_fuzzy text registry) <= 1
  /\ match fst (best_fuzzy text registry) with
     | Some i => In i (map fst registry)
     | None => True
     end.
Proof.
  unfold best_fuzzy.
  apply (fold_left_invariant
           (fun best : option str * Q =>
              0 <= snd best /\ snd best <= 1
              /\ match fst best with
                 | Some i => In i (map fst registry)
                 | None => True
                 end)).
  - intros best [i config] Hin Hb. simpl.
    destruct (weighted_score text config) as [w |] eqn:W; [| exact Hb].
    destruct (Qltb (snd best) w); [| exact Hb].
    apply weighted_score_bounds in W. simpl.
    repeat split; try tauto.
    apply (in_map fst) in Hin. exact Hin.
  - simpl. repeat split; lra.
Qed.

Lemma calculate_confidence_le
  (self : processor) (text intent : str) (pattern_match : bool) :
  _calculate_confidence self text intent pattern_match <= 0.99.
Proof. unfold _calculate_confidence. apply pymin_le_r. Qed.

Lemma fuzzy_match_spec (self : processor) (text : str) :
  _fuzzy_match_intent self text = (lit "unknown", 0.1)
  \/ (In (fst (_fuzzy_match_intent self text)) (map fst command_patterns)
      /\ snd (_fuzzy_match_intent self text) <= 0.99).
Proof.
  unfold _fuzzy_match_intent.
  pose proof (best_fuzzy_spec text command_patterns) as [B0 [B1 Bi]].
  destruct (best_fuzzy text command_patterns) as [[best_match |] best_score];
    [| left; reflexivity].
  cbn [fst snd] in *.
  destruct (truthy (Some best_match) && Qltb 0.6 best_score);
    [| left; reflexivity].
  right. cbn [fst snd]. split; [exact Bi |].
  pose proof (calculate_confidence_le self text best_match false). nra.
Qed.

(** *** The bidding loop *)

Lemma detect_bidding_spec
  (context : command_context) (text : str) (pats : list regex) :
  forallb captures pats = true ->
  exists o, detect_bidding context pats text = Returns o
            /\ match o with
               | None => True
               | Some r =>
                   exists bid_amount,
                   positive bid_amount = true
                   /\ r = CommandResult (lit "bidding") (bid_confidence bid_amount)
                            (Some bid_amount) context (lit "pattern_match") false
               end.
Proof.
  induction pats as [| p pats IH]; cbn [detect_bidding forallb]; intros Hc.
  - exists None. split; [reflexivity | exact I].
  - apply andb_true_iff in Hc. destruct Hc as [Hp Hc]. specialize (IH Hc).
    destruct (search true p text) as [m |] eqn:E; [| exact IH].
    destruct (search_captures _ _ _ _ Hp E) as [g ->].
    destruct (float_of_str g) as [[q ->] | ->]; cbn [try_continue]; [| exact IH].
    destruct (positive q) eqn:R; [| exact IH].
    eexists. split; [reflexivity |]. exists q. split; [exact R | reflexivity].
Qed.

(** *** The other intents *)

Lemma pattern_confidence_le (intent : str) (config : intent_config) (text : str) :
  pattern_confidence intent config text <= 0.99.
Proof. unfold pattern_confidence. apply pymin_le_r. Qed.

Lemma best_pattern_spec (registry : dict intent_config) (text : str) :
  0 <= snd (best_pattern registry text)
  /\ snd (best_pattern registry text) <= 0.99
  /\ match fst (best_pattern registry text) with
     | Some i => In i (map fst registry)
     | None => True
     end.
Proof.
  unfold best_pattern.
  set (P := fun best : option str * Q =>
              0 <= snd best /\ snd best <= 0.99
              /\ match fst best with
                 | Some i => In i (map fst registry)
                 | None => True
                 end).
  apply (fold_left_invariant P).
  - intros best [i config] Hin Hb.
    destruct (Str.eqb i (lit "bidding")); [exact Hb |].
    revert Hb. apply fold_left_invariant.
    intros best' p _ Hb'.
    destruct (search true p text); [| exact Hb'].
    destruct (Qltb (snd best') (pattern_confidence i config text)) eqn:L;
      [| exact Hb'].
    apply Qltb_true in L. destruct Hb' as [H0 _].
    pose proof (pattern_confidence_le i config text).
    unfold P. cbn [fst snd]. repeat split; try lra.
    apply (in_map fst) in Hin. exact Hin.
  - unfold P. simpl. repeat split; lra.
Qed.

(** *** The keyword table *)

Lemma keyword_find_spec (text : str) (k intent : str) :
  find (fun ki : str * str => Str.contains (fst ki) text) keyword_matches
  = Some (k, intent) ->
  In intent (map lit ["bidding"; "listing"; "status"; "help"]%string).
Proof.
  intros H. apply find_some in H. destruct H as [H _].
  apply (in_map snd) in H. simpl in H. simpl.
  repeat (destruct H as [H | H]; [rewrite <- H; tauto |]). destruct H.
Qed.

End Stages.

(** ** What [process_command] returns *)

Lemma registry_keys : map fst command_patterns = registry_intents.
Proof. reflexivity. Qed.

(** Closed strings that differ. *)
Ltac differ :=
  let H := fresh in
  intro H; vm_compute in H;
  repeat (destruct H as [H | H]; [discriminate H |]);
  first [discriminate H | contradiction H].

Lemma process_command_exits (self : processor) (input_text : str) :
  exists r, process_command self input_text = Returns r /\ exit r.
Proof.
  unfold process_command.
  set (text := _preprocess_text input_text).
  set (context := make_context self).
  destruct (detect_bidding_spec context text Pat.bidding bidding_patterns_capture)
    as [o [-> Ho]].
  cbn [bind].
  destruct o as [r |].
  { exists r. split; [reflexivity |].
    destruct Ho as [a [Ha ->]].
    apply exit_bidding with (bid_amount := a); auto. }
  pose proof (best_pattern_spec command_patterns text) as [P0 [P1 Pi]].
  destruct (best_pattern command_patterns text) as [best_intent best_confidence].
  cbn [fst snd] in *.
  destruct best_intent as [[| c i] |]; cbn [truthy].
  - (* an empty intent name is no intent of the registry *)
    exfalso. revert Pi. differ.
  - eexists. split; [reflexivity |].
    apply exit_pattern; cbn; auto.
  - pose proof (fuzzy_match_spec self text) as F.
    destruct (_fuzzy_match_intent self text) as [fuzzy_intent fuzzy_confidence].
    destruct (Qltb 0.7 fuzzy_confidence) eqn:L.
    + eexists. split; [reflexivity |].
      destruct F as [F | [Fi Fc]]; [injection F as -> ->; discriminate L |].
      apply Qltb_true in L. apply exit_fuzzy; cbn; auto.
    + destruct (find _ keyword_matches) as [[k i] |] eqn:K.
      * eexists. split; [reflexivity |].
        apply keyword_find_spec in K.
        apply exit_keyword; cbn; auto.
        simpl in K. unfold registry_intents. simpl. tauto.
      * eexists. split; [reflexivity |].
        apply exit_no_match; reflexivity.
Qed.

(** C1.  On every utterance and in every state [process_command]
    returns a result, and its confidence is between 0.0 and 0.99, whichever
    stage produced it (bidding pattern, other pattern, fuzzy match, keyword
    table or no match). *)
Theorem confidence_in_unit_range (self : processor) (input_text : str) :
  exists r, process_command self input_text = Returns r
            /\ (0.0 <= confidence r)%Q /\ (confidence r <= 0.99)%Q.
Proof.
  destruct (process_command_exits self input_text) as [r [Hr E]].
  exists r. split; [exact Hr |].
  destruct E as [a _ _ _ Hc _ | _ _ H0 H1 | _ _ H0 H1 | _ _ Hc | _ _ Hc].
  - rewrite Hc. pose proof (bid_confidence_bounds a). split; lra.
  - split; lra.
  - split; lra.
  - rewrite Hc. split; lra.
  - rewrite Hc. split; lra.
Qed.

(** C10.  The intent is "unknown" exactly when the method is
    "no_match"; a result of the methods pattern_match, fuzzy_match and
    keyword_match carries one of the six intents of the registry. *)
Theorem unknown_iff_no_match (self : processor) (input_text : str) :
  exists r, process_command self input_text = Returns r
            /\ (intent r = lit "unknown" <-> method r = lit "no_match")
            /\ (In (method r)
                   [lit "pattern_match"; lit "fuzzy_match"; lit "keyword_match"] ->
                In (intent r)
                   [lit "bidding"; lit "listing"; lit "status"; lit "help";
                    lit "greeting"; lit "insights"])
            /\ In (method r)
                  [lit "pattern_match"; lit "fuzzy_match"; lit "keyword_match";
                   lit "no_match"].
Proof.
  destruct (process_command_exits self input_text) as [r [Hr E]].
  exists r. split; [exact Hr |].
  destruct E as [a Hi Hm _ _ _ | Hi Hm _ _ | Hi Hm _ _ | Hi Hm _ | Hi Hm _];
    rewrite Hm; try rewrite Hi.
  - repeat split; try (intros _; simpl; tauto); try (simpl; tauto);
      intros H; exfalso; revert H; differ.
  - repeat split; try (intros _; exact Hi); try (simpl; tauto).
    + intros H. exfalso. rewrite H in Hi. revert Hi. differ.
    + intros H. exfalso. revert H. differ.
  - repeat split; try (intros _; exact Hi); try (simpl; tauto).
    + intros H. exfalso. rewrite H in Hi. revert Hi. differ.
    + intros H. exfalso. revert H. differ.
  - repeat split; try (intros _; exact Hi); try (simpl; tauto).
    + intros H. exfalso. rewrite H in Hi. revert Hi. differ.
    + intros H. exfalso. revert H. differ.
  - repeat split; try reflexivity; try (simpl; tauto).
    intros H. exfalso. revert H. differ.
Qed.

(** ** The bidding short-circuit *)

Lemma positive_spec (a : Q) : positive a = true <-> (0 < a)%Q.
Proof.
  unfold positive. rewrite andb_true_iff, Qltb_true, negb_true_iff.
  split; [tauto |]. intros H. split; [| exact H].
  destruct (Qeq_bool a 0) eqn:E; [| reflexivity].
  apply Qeq_bool_iff in E. lra.
Qed.

(** The loop returns at the first pattern, in list order, that matches
    with a positive amount. *)
Lemma detect_bidding_first
  (context : command_context) (text : str) (pats : list regex) :
  forallb captures pats = true ->
  (exists p a, In p pats /\ bid_match p text a) ->
  exists pre p post a,
    pats = pre ++ p :: post
    /\ (forall q b, In q pre -> ~ bid_match q text b)
    /\ bid_match p text a
    /\ detect_bidding context pats text
       = Returns (Some (CommandResult (lit "bidding") (bid_confidence a) (Some a)
                          context (lit "pattern_match") false)).
Proof.
  induction pats as [| p pats IH]; intros Hc [p0 [a0 [Hin H0]]]; [destruct Hin |].
  cbn [forallb] in Hc. apply andb_true_iff in Hc. destruct Hc as [Hp Hc].
  specialize (IH Hc).
  cbn [detect_bidding].
  destruct (search true p text) as [m |] eqn:Hs.
  - destruct (search_captures _ _ _ _ Hp Hs) as [g Hg]. rewrite Hg.
    unfold Float.float.
    destruct (Float.decimal g) as [b |] eqn:Hb; cbn [try_continue].
    + destruct (positive b) eqn:Hpos.
      * exists [], p, pats, b. repeat split; auto.
        exists m, g. apply positive_spec in Hpos. auto.
      * destruct IH as [pre [p' [post [a [E [Hpre [Hm Hd]]]]]]].
        { destruct Hin as [<- | Hin]; [| eauto].
          destruct H0 as [m' [g' [C [C' [C'' C3]]]]].
          apply positive_spec in C3. congruence. }
        exists (p :: pre), p', post, a. repeat split; auto.
        -- rewrite E. reflexivity.
        -- intros q b' [<- | Hq]; [| auto].
           intros [m' [g' [C [C' [C'' C3]]]]].
           apply positive_spec in C3. congruence.
    + destruct IH as [pre [p' [post [a [E [Hpre [Hm Hd]]]]]]].
      { destruct Hin as [<- | Hin]; [| eauto].
        destruct H0 as [m' [g' [C [C' [C'' C3]]]]]. congruence. }
      exists (p :: pre), p', post, a. repeat split; auto.
      * rewrite E. reflexivity.
      * intros q b' [<- | Hq]; [| auto].
        intros [m' [g' [C [C' [C'' C3]]]]]. congruence.
  - destruct IH as [pre [p' [post [a [E [Hpre [Hm Hd]]]]]]].
    { destruct Hin as [<- | Hin]; [| eauto].
      destruct H0 as [m' [g' [C _]]]. congruence. }
    exists (p :: pre), p', post, a. repeat split; auto.
    + rewrite E. reflexivity.
    + intros q b' [<- | Hq]; [| auto].
      intros [m' [g' [C _]]]. congruence.
Qed.

(** The confidence of a bidding match, case by case. *)
Lemma bid_confidence_table (a : Q) :
  ((a < 10 -> bid_confidence a == 0.90)
   /\ (a == 10 -> bid_confidence a == 0.95)
   /\ (10 < a -> a <= 10000 -> bid_confidence a == 0.99)
   /\ (10000 < a -> bid_confidence a == 0.95))%Q.
Proof.
  unfold bid_confidence, Qleb.
  destruct (Qltb 10 a) eqn:L; [apply Qltb_true in L | apply Qltb_false in L];
    (destruct (Qle_bool 10 a) eqn:A;
     [apply Qle_bool_iff in A
     | assert (~ (10 <= a)%Q) by (rewrite <- Qle_bool_iff; congruence)]);
    (destruct (Qle_bool a 10000) eqn:B;
     [apply Qle_bool_iff in B
     | assert (~ (a <= 10000)%Q) by (rewrite <- Qle_bool_iff; congruence)]);
    cbn [andb]; repeat split; intros; try lra;
    try (rewrite pymin_eq; first [rewrite Q.min_l by lra | rewrite Q.min_r by lra];
         lra).
Qed.

(** C5.  If some bidding pattern matches the normalized utterance with
    a positive captured amount, [process_command] returns from the bidding
    loop: the intent is bidding, the method pattern_match, the amount [a]
    is that of the first such pattern in list order, and the confidence is
    0.95 if [a > 10] and 0.90 otherwise, plus 0.05 if [10 <= a <= 10000],
    capped at 0.99. *)
Theorem bidding_short_circuit (self : processor) (input_text : str) :
  (exists p a0, In p Pat.bidding
                /\ bid_match p (_preprocess_text input_text) a0) ->
  exists r a,
    process_command self input_text = Returns r
    /\ intent r = lit "bidding"
    /\ method r = lit "pattern_match"
    /\ data r = Some a
    /\ (exists pre p post,
          Pat.bidding = pre ++ p :: post
          /\ (forall q b, In q pre -> ~ bid_match q (_preprocess_text input_text) b)
          /\ bid_match p (_preprocess_text input_text) a)
    /\ (confidence r
        == Qmin ((if Qltb 10 a then 0.95 else 0.90)
                 + (if Qleb 10 a && Qleb a 10000 then 0.05 else 0)) 0.99)%Q.
Proof.
  intros H.
  destruct (detect_bidding_first (make_context self) (_preprocess_text input_text)
              Pat.bidding bidding_patterns_capture H)
    as [pre [p [post [a [E [Hpre [Hm Hd]]]]]]].
  eexists. exists a. unfold process_command. rewrite Hd. cbn [bind].
  split; [reflexivity |]. cbn [intent method data confidence].
  do 3 (split; [reflexivity |]).
  split; [exists pre, p, post; auto |].
  pose proof (bid_confidence_table a) as [T1 [T2 [T3 T4]]].
  unfold Qleb.
  destruct (Qltb 10 a) eqn:L; [apply Qltb_true in L | apply Qltb_false in L];
    (destruct (Qle_bool 10 a) eqn:A;
     [apply Qle_bool_iff in A
     | assert (~ (10 <= a)%Q) by (rewrite <- Qle_bool_iff; congruence)]);
    (destruct (Qle_bool a 10000) eqn:B;
     [apply Qle_bool_iff in B
     | assert (~ (a <= 10000)%Q) by (rewrite <- Qle_bool_iff; congruence)]);
    cbn [andb]; try lra.
  - assert (Hc : (bid_confidence a == 0.99)%Q) by (apply T3; lra).
    rewrite Hc, Q.min_r; lra.
  - assert (Hc : (bid_confidence a == 0.95)%Q) by (apply T4; lra).
    rewrite Hc, Q.min_l; lra.
  - assert (Hc : (bid_confidence a == 0.95)%Q) by (apply T2; lra).
    rewrite Hc, Q.min_l; lra.
  - assert (Hc : (bid_confidence a == 0.90)%Q) by (apply T1; lra).
    rewrite Hc, Q.min_l; lra.
Qed.

Lemma bidding_short_circuit_witness :
  exists r a,
    process_command init (lit "Bid 100 dollars, please") = Returns r
    /\ intent r = lit "bidding"
    /\ method r = lit "pattern_match"
    /\ data r = Some a
    /\ (exists pre p post,
          Pat.bidding = pre ++ p :: post
          /\ (forall q b, In q pre ->
                          ~ bid_match q (_preprocess_text
                                           (lit "Bid 100 dollars, please")) b)
          /\ bid_match p (_preprocess_text (lit "Bid 100 dollars, please")) a)
    /\ (confidence r
        == Qmin ((if Qltb 10 a then 0.95 else 0.90)
                 + (if Qleb 10 a && Qleb a 10000 then 0.05 else 0)) 0.99)%Q.
Proof.
  apply (bidding_short_circuit init (lit "Bid 100 dollars, please")).
  exists (hd Eps Pat.bidding), (inject_Z 100). split; [left; reflexivity |].
  eexists. eexists.
  split; [vm_compute; reflexivity |].
  split; [reflexivity |].
  split; [vm_compute; reflexivity |].
  reflexivity.
Defined.

(** ** Strings: stripping, splitting and joining *)

Module StrFacts.

Import Str.

Lemma lower_lower (c : ascii) : Char.lower (Char.lower c) = Char.lower c.
Proof. destruct c as [[] [] [] [] [] [] [] []]; reflexivity. Qed.

Lemma lstrip_idem (s : str) : lstrip (lstrip s) = lstrip s.
Proof.
  induction s as [| c s IH]; simpl; [reflexivity |].
  destruct (Char.isspace c) eqn:E; [exact IH |]. simpl. rewrite E. reflexivity.
Qed.

Lemma rstrip_cons_nonspace (c : ascii) (s : str) :
  Char.isspace c = false -> rstrip (c :: s) = c :: rstrip s.
Proof. intros E. simpl. rewrite E. destruct (rstrip s); reflexivity. Qed.

Lemma rstrip_cons_kept (c : ascii) (s : str) :
  rstrip s <> [] -> rstrip (c :: s) = c :: rstrip s.
Proof. intros H. simpl. destruct (rstrip s); [contradiction | reflexivity]. Qed.

Lemma rstrip_idem (s : str) : rstrip (rstrip s) = rstrip s.
Proof.
  induction s as [| c s IH]; [reflexivity |].
  destruct (rstrip s) as [| d r] eqn:R.
  - simpl. rewrite R. destruct (Char.isspace c) eqn:E; [reflexivity |].
    simpl. rewrite E. reflexivity.
  - rewrite rstrip_cons_kept by (rewrite R; discriminate). rewrite R.
    rewrite rstrip_cons_kept by (rewrite IH; discriminate).
    rewrite IH. reflexivity.
Qed.

Lemma strip_comm (s : str) : lstrip (rstrip s) = rstrip (lstrip s).
Proof.
  induction s as [| c s IH]; [reflexivity |].
  destruct (Char.isspace c) eqn:E.
  - simpl lstrip at 2. rewrite E. rewrite <- IH. simpl rstrip. rewrite E.
    destruct (rstrip s) as [| d r]; [reflexivity |]. simpl. rewrite E.
    reflexivity.
  - simpl lstrip at 2. rewrite E. rewrite rstrip_cons_nonspace by exact E.
    simpl. rewrite E. reflexivity.
Qed.

Lemma strip_idem (s : str) : strip (strip s) = strip s.
Proof.
  unfold strip. rewrite (strip_comm (lstrip s)), lstrip_idem.
  rewrite <- (strip_comm s), <- (strip_comm (rstrip s)), rstrip_idem.
  reflexivity.
Qed.

(** *** [split] *)

Lemma split_head (d : ascii) (s : str) :
  Char.isspace d = false -> exists w ws, split (d :: s) = (d :: w) :: ws.
Proof.
  intros E. simpl. rewrite E. destruct s as [| e s']; [eauto |].
  destruct (Char.isspace e); [eauto |].
  destruct (split (e :: s')); eauto.
Qed.

Lemma split_words (s : str) : Forall word_ok (split s).
Proof.
  induction s as [| c s IH]; [constructor |].
  simpl. destruct (Char.isspace c) eqn:E; [exact IH |].
  assert (Hc : word_ok [c]).
  { split; [discriminate | constructor; [exact E | constructor]]. }
  destruct s as [| d s']; [constructor; [exact Hc | constructor] |].
  destruct (Char.isspace d); [constructor; assumption |].
  destruct (split (d :: s')) as [| w ws]; [constructor; [exact Hc | constructor] |].
  inversion IH as [| ? ? [Hw1 Hw2] Hws]; subst.
  constructor; [| exact Hws].
  split; [discriminate | constructor; assumption].
Qed.

Lemma split_word_then (w s : str) :
  word_ok w -> (s = [] \/ exists c s', s = c :: s' /\ Char.isspace c = true) ->
  split (w ++ s) = w :: split s.
Proof.
  intros [Hne Hw] Hs. induction w as [| c w IH]; [contradiction |].
  inversion Hw as [| ? ? Ec Hw']; subst. clear Hne.
  destruct w as [| c2 w'].
  - simpl app. destruct Hs as [-> | [d [s' [-> Ed]]]].
    + simpl. rewrite Ec. reflexivity.
    + simpl. rewrite Ec, Ed. reflexivity.
  - assert (E2 : Char.isspace c2 = false) by (inversion Hw'; assumption).
    specialize (IH ltac:(discriminate) Hw').
    change ((c :: c2 :: w') ++ s) with (c :: (c2 :: w') ++ s).
    change ((c2 :: w') ++ s) with (c2 :: w' ++ s) in *.
    simpl split at 1. rewrite Ec, E2.
    simpl split in IH at 1. rewrite E2 in IH.
    rewrite IH. reflexivity.
Qed.

Lemma split_join (ws : list str) :
  Forall word_ok ws -> split (join space ws) = ws.
Proof.
  induction ws as [| w ws IH]; intros H; [reflexivity |].
  inversion H as [| ? ? Hw Hws]; subst.
  destruct ws as [| w2 ws'].
  - simpl join. rewrite <- (app_nil_r w) at 1.
    rewrite split_word_then; [reflexivity | exact Hw | left; reflexivity].
  - change (join space (w :: w2 :: ws'))
      with (w ++ " "%char :: join space (w2 :: ws')).
    rewrite split_word_then; [| exact Hw | right; eauto].
    change (split (" "%char :: join space (w2 :: ws')))
      with (split (join space (w2 :: ws'))).
    rewrite (IH Hws). reflexivity.
Qed.

Lemma join_cons_char (c : ascii) (w : str) (ws : list str) :
  join space ((c :: w) :: ws) = c :: join space (w :: ws).
Proof. destruct ws; reflexivity. Qed.

Lemma lstrip_join_split (s : str) :
  lstrip (join space (split s)) = join space (split s).
Proof.
  pose proof (split_words s) as H.
  destruct (split s) as [| w ws]; [reflexivity |].
  inversion H as [| ? ? [Hne Hw] _]; subst.
  destruct w as [| c w]; [contradiction |].
  inversion Hw as [| ? ? Ec _]; subst.
  rewrite join_cons_char. simpl. rewrite Ec. reflexivity.
Qed.

End StrFacts.

(** ** The normal form of [_preprocess_text] *)

Module Normal.

Import Str StrFacts.

(** Collapsing the whitespace and dropping it at the right end leaves the
    words joined by single spaces, after one space if the text began with
    whitespace. *)
Lemma rstrip_sub_spaces (z : str) :
  rstrip (sub_spaces z)
  = match z with
    | [] => []
    | c :: _ =>
        if Char.isspace c
        then match split z with
             | [] => []
             | ws => " "%char :: join space ws
             end
        else join space (split z)
    end.
Proof.
  induction z as [| c z IH]; [reflexivity |].
  destruct (Char.isspace c) eqn:Ec.
  - destruct z as [| d z'].
    + simpl. rewrite Ec. reflexivity.
    + destruct (Char.isspace d) eqn:Ed.
      * change (sub_spaces (c :: d :: z'))
          with (if Char.isspace c
                then if Char.isspace d then sub_spaces (d :: z')
                     else " "%char :: sub_spaces (d :: z')
                else c :: sub_spaces (d :: z')).
        rewrite Ec, Ed, IH.
        change (split (c :: d :: z'))
          with (if Char.isspace c then split (d :: z')
                else if Char.isspace d then [c] :: split (d :: z')
                     else match split (d :: z') with
                          | w :: ws => (c :: w) :: ws
                          | [] => [[c]]
                          end).
        rewrite Ec. reflexivity.
      * change (sub_spaces (c :: d :: z'))
          with (if Char.isspace c
                then if Char.isspace d then sub_spaces (d :: z')
                     else " "%char :: sub_spaces (d :: z')
                else c :: sub_spaces (d :: z')).
        rewrite Ec, Ed.
        change (split (c :: d :: z'))
          with (if Char.isspace c then split (d :: z')
                else if Char.isspace d then [c] :: split (d :: z')
                     else match split (d :: z') with
                          | w :: ws => (c :: w) :: ws
                          | [] => [[c]]
                          end).
        rewrite Ec.
        destruct (split_head d z' Ed) as [w [ws E]].
        rewrite E in *.
        rewrite rstrip_cons_kept; rewrite IH;
          [reflexivity | destruct ws; discriminate].
  - change (sub_spaces (c :: z))
      with (if Char.isspace c
            then match z with
                 | d :: _ => if Char.isspace d then sub_spaces z
                             else " "%char :: sub_spaces z
                 | [] => [" "%char]
                 end
            else c :: sub_spaces z).
    rewrite Ec, (rstrip_cons_nonspace c _ Ec), IH.
    destruct z as [| d z']; [simpl; rewrite Ec; reflexivity |].
    change (split (c :: d :: z'))
      with (if Char.isspace c then split (d :: z')
            else if Char.isspace d then [c] :: split (d :: z')
                 else match split (d :: z') with
                      | w :: ws => (c :: w) :: ws
                      | [] => [[c]]
                      end).
    rewrite Ec.
    destruct (Char.isspace d) eqn:Ed.
    + destruct (split (d :: z')); reflexivity.
    + destruct (split_head d z' Ed) as [w [ws E]]. rewrite E.
      destruct ws; reflexivity.
Qed.

(** [re.sub(r'\s+', ' ', text).strip()] is [' '.join(text.split())]. *)
Lemma strip_sub_spaces (z : str) :
  strip (sub_spaces z) = join space (split z).
Proof.
  unfold strip. rewrite <- strip_comm, rstrip_sub_spaces.
  destruct z as [| c z']; [reflexivity |].
  destruct (Char.isspace c).
  - destruct (split (c :: z')) as [| w ws] eqn:E; [reflexivity |].
    change (lstrip (" "%char :: join space (w :: ws)))
      with (lstrip (join space (w :: ws))).
    rewrite <- E. apply lstrip_join_split.
  - apply lstrip_join_split.
Qed.

(** *** Substitutions that find nothing *)

Lemma replace_absent (old new s : str) :
  contains old s = false -> replace old new s = s.
Proof.
  destruct old as [| o old']; [destruct s; discriminate |].
  unfold replace. induction s as [| c s IH]; intros H; [reflexivity |].
  cbn [contains] in H. apply orb_false_iff in H. destruct H as [H1 H2].
  cbn [replace_from]. rewrite H1, (IH H2). reflexivity.
Qed.

Lemma corrections_absent (table : dict str) (s : str) :
  forallb (fun ec => negb (contains (fst ec) s)) table = true ->
  fold_left (fun t ec => replace (fst ec) (snd ec) t) table s = s.
Proof.
  induction table as [| [k v] table IH]; intros H; [reflexivity |].
  cbn [forallb] in H. apply andb_true_iff in H. destruct H as [H1 H2].
  apply negb_true_iff in H1. cbn [fold_left fst snd] in *.
  rewrite (replace_absent _ _ _ H1). exact (IH H2).
Qed.

Lemma filter_all {A} (f : A -> bool) (l : list A) :
  forallb f l = true -> filter f l = l.
Proof.
  induction l as [| x l IH]; intros H; [reflexivity |].
  cbn [forallb] in H. apply andb_true_iff in H. destruct H as [H1 H2].
  cbn [filter]. rewrite H1, (IH H2). reflexivity.
Qed.

Lemma map_fixed {A} (f : A -> A) (l : list A) :
  Forall (fun x => f x = x) l -> map f l = l.
Proof. induction 1; simpl; congruence. Qed.

(** *** Where the characters of the result come from *)

Section Characters.

Variable P : ascii -> Prop.

Lemma lstrip_all (s : str) : Forall P s -> Forall P (lstrip s).
Proof.
  induction 1 as [| c s Hc Hs IH]; simpl; [constructor |].
  destruct (Char.isspace c); [exact IH | constructor; assumption].
Qed.

Lemma rstrip_all (s : str) : Forall P s -> Forall P (rstrip s).
Proof.
  induction 1 as [| c s Hc Hs IH]; simpl; [constructor |].
  destruct (rstrip s).
  - destruct (Char.isspace c); constructor; [assumption | constructor].
  - constructor; assumption.
Qed.

Lemma strip_all (s : str) : Forall P s -> Forall P (strip s).
Proof. intros H. apply rstrip_all, lstrip_all, H. Qed.

Lemma replace_from_all (old new : str) (s : str) :
  Forall P new -> Forall P s ->
  forall skip, Forall P (replace_from old new skip s).
Proof.
  intros Hn. induction 1 as [| c s Hc Hs IH]; intros skip; simpl; [constructor |].
  destruct skip; [| apply IH].
  destruct (startswith old (c :: s)).
  - apply Forall_app. split; [exact Hn | apply IH].
  - constructor; [exact Hc | apply IH].
Qed.

Lemma replace_all (old new s : str) :
  Forall P new -> Forall P s -> Forall P (replace old new s).
Proof.
  intros Hn Hs. destruct old; [| apply replace_from_all; assumption].
  simpl. apply Forall_app. split; [exact Hn |].
  apply Forall_flat_map. revert Hs. apply Forall_impl.
  intros c Hc. constructor; assumption.
Qed.

Lemma corrections_all (table : dict str) :
  Forall (fun ec => Forall P (snd ec)) table ->
  forall s, Forall P s ->
            Forall P (fold_left (fun t ec => replace (fst ec) (snd ec) t) table s).
Proof.
  induction 1 as [| ec table Hec Ht IH]; intros s Hs; [exact Hs |].
  simpl. apply IH, replace_all; assumption.
Qed.

Lemma split_all (s : str) : Forall P s -> Forall (Forall P) (split s).
Proof.
  induction 1 as [| c s Hc Hs IH]; simpl; [constructor |].
  destruct (Char.isspace c); [exact IH |].
  assert (H1 : Forall P [c]) by (constructor; [exact Hc | constructor]).
  destruct s as [| d s']; [constructor; [exact H1 | constructor] |].
  destruct (Char.isspace d); [constructor; assumption |].
  destruct (split (d :: s')) as [| w ws]; [constructor; [exact H1 | constructor] |].
  inversion IH; subst. constructor; [constructor |]; assumption.
Qed.

Lemma filter_all_words (f : str -> bool) (ws : list str) :
  Forall (Forall P) ws -> Forall (Forall P) (filter f ws).
Proof.
  induction 1 as [| w ws Hw Hws IH]; simpl; [constructor |].
  destruct (f w); [constructor |]; assumption.
Qed.

Lemma join_all (sep : str) (ws : list str) :
  Forall P sep -> Forall (Forall P) ws -> Forall P (join sep ws).
Proof.
  intros Hsep. induction 1 as [| w ws Hw Hws IH]; simpl; [constructor |].
  destruct ws; [exact Hw |].
  apply Forall_app. split; [exact Hw |].
  apply Forall_app. split; [exact Hsep | exact IH].
Qed.

Lemma sub_punctuation_all (s : str) :
  P " "%char -> Forall P s -> Forall P (sub_punctuation s).
Proof.
  intros Hsp. unfold sub_punctuation.
  induction 1 as [| c s Hc Hs IH]; simpl; [constructor |].
  constructor; [destruct (kept c); assumption | exact IH].
Qed.

End Characters.

Lemma sub_punctuation_kept (s : str) :
  Forall (fun c => kept c = true) (sub_punctuation s).
Proof.
  unfold sub_punctuation. induction s as [| c s IH]; simpl; constructor; auto.
  destruct (kept c) eqn:E; [exact E | reflexivity].
Qed.

End Normal.

(** ** Normalization *)

Section Normalization.

Import Str StrFacts Normal.

Lemma preprocess_form (x : str) :
  _preprocess_text x = join space (split (cleaned x)).
Proof. unfold _preprocess_text. apply strip_sub_spaces. Qed.

Lemma preprocess_stripped (x : str) :
  strip (_preprocess_text x) = _preprocess_text x.
Proof. unfold _preprocess_text. apply strip_idem. Qed.

Lemma preprocess_join_split (x : str) :
  join space (split (_preprocess_text x)) = _preprocess_text x.
Proof.
  rewrite preprocess_form, split_join; [reflexivity | apply split_words].
Qed.

Lemma corrections_lowered :
  Forall (fun ec : str * str => Forall (fun c => Char.lower c = c) (snd ec))
         corrections.
Proof. unfold corrections. repeat constructor. Qed.

Lemma preprocess_lowered (x : str) :
  Forall (fun c => Char.lower c = c) (_preprocess_text x).
Proof.
  rewrite preprocess_form. unfold cleaned.
  apply join_all; [repeat constructor |].
  apply split_all, sub_punctuation_all; [reflexivity |].
  apply join_all; [repeat constructor |].
  apply filter_all_words, split_all.
  apply corrections_all; [exact corrections_lowered |].
  apply strip_all. unfold lower. apply Forall_map.
  apply Forall_forall. intros c _. apply lower_lower.
Qed.

Lemma preprocess_kept (x : str) :
  Forall (fun c => kept c = true) (_preprocess_text x).
Proof.
  rewrite preprocess_form.
  apply join_all; [repeat constructor |].
  apply split_all, sub_punctuation_kept.
Qed.

End Normalization.

(** Normalization is not idempotent: the filler "so" hides the key
    "current price" from the substitutions of the first pass, and the
    second pass rewrites it. *)
Lemma preprocess_not_idempotent :
  _preprocess_text (_preprocess_text (lit "current so price"))
  <> _preprocess_text (lit "current so price").
Proof. vm_compute. discriminate. Qed.

(** C2, amended.  Normalizing twice gives the same text as normalizing
    once whenever the normalized text contains no key of the substitution
    table and none of its tokens is a filler word. *)
Theorem preprocess_idempotent_when_stable (x : str) :
  stable (_preprocess_text x) = true ->
  _preprocess_text (_preprocess_text x) = _preprocess_text x.
Proof.
  intros H. unfold stable in H. apply andb_true_iff in H. destruct H as [H1 H2].
  set (y := _preprocess_text x) in *.
  assert (Hj : Str.join Str.space (Str.split y) = y)
    by apply preprocess_join_split.
  rewrite (preprocess_form y). unfold cleaned.
  replace (Str.lower y) with y
    by (symmetry; apply Normal.map_fixed, preprocess_lowered).
  replace (Str.strip y) with y by (symmetry; apply preprocess_stripped).
  unfold apply_corrections. rewrite (Normal.corrections_absent _ _ H1).
  unfold remove_fillers. rewrite (Normal.filter_all _ _ H2), Hj.
  replace (sub_punctuation y) with y; [exact Hj |].
  symmetry. apply Normal.map_fixed.
  generalize (preprocess_kept x). apply Forall_impl.
  intros c Hc. rewrite Hc. reflexivity.
Qed.

Lemma preprocess_idempotent_when_stable_witness :
  stable (_preprocess_text (lit "  Place a BIT of $200, okay ")) = true
  /\ _preprocess_text (_preprocess_text (lit "  Place a BIT of $200, okay "))
     = _preprocess_text (lit "  Place a BIT of $200, okay ").
Proof.
  split; [reflexivity |].
  apply (preprocess_idempotent_when_stable (lit "  Place a BIT of $200, okay ")).
  reflexivity.
Defined.

(** ** The fuel of the scans is enough *)

Module Fuel.

Lemma reaches_refl (st : cursor) : reaches st st.
Proof. exists 0. repeat split; [lia | lia]. Qed.

Lemma reaches_trans (a b c : cursor) : reaches a b -> reaches b c -> reaches a c.
Proof.
  intros [n [P1 [R1 L1]]] [m [P2 [R2 L2]]]. exists (n + m).
  rewrite R1, length_skipn in L2. rewrite R1, skipn_skipn in R2.
  repeat split; [lia | rewrite R2; f_equal; lia | lia].
Qed.

Lemma reaches_advance (st : cursor) (c : ascii) (s' : str) :
  rest st = c :: s' -> reaches st (advance st c s').
Proof.
  intros E. exists 1. rewrite E. simpl. repeat split; lia.
Qed.

Lemma reaches_length (st e : cursor) :
  reaches st e -> length (rest e) <= length (rest st).
Proof. intros [n [_ [R _]]]. rewrite R, length_skipn. lia. Qed.

Lemma reaches_shorter (st e : cursor) :
  reaches st e -> pos e <> pos st -> length (rest e) < length (rest st).
Proof. intros [n [P [R L]]] H. rewrite R, length_skipn. lia. Qed.

Section Scan.

Variable ic : bool.

Lemma star_reaches (k : cclass) (s : str) :
  forall st e, rest st = s -> In e (star k st s) -> reaches st e.
Proof.
  induction s as [| c s IH]; simpl; intros st e E H.
  - one H. apply reaches_refl.
  - destruct (in_class k c); [| one H; apply reaches_refl].
    apply in_app_or in H. destruct H as [H | H]; [| one H; apply reaches_refl].
    apply reaches_trans with (advance st c s);
      [apply reaches_advance, E | apply IH; [reflexivity | exact H]].
Qed.

Lemma run_reaches (r : regex) :
  forall st e, In e (run ic r st) -> reaches st e.
Proof.
  induction r; simpl; intros st e H.
  - one H. apply reaches_refl.
  - destruct (rest st) eqn:E; [one H |].
    destruct (chr_eq ic c a); one H. apply reaches_advance, E.
  - destruct (rest st) eqn:E; [one H |].
    destruct (in_class k a); one H. apply reaches_advance, E.
  - apply in_flat_map in H. destruct H as [m [H1 H2]].
    eapply reaches_trans; eauto.
  - apply in_app_or in H. destruct H; eauto.
  - apply in_app_or in H. destruct H as [H | H]; [eauto | one H; apply reaches_refl].
  - destruct (rest st) eqn:E; [one H |].
    destruct (in_class k a); [| one H].
    apply reaches_trans with (advance st a s);
      [apply reaches_advance, E | apply (star_reaches k s); [reflexivity | exact H]].
  - apply (star_reaches k (rest st)); [reflexivity | exact H].
  - apply in_map_iff in H. destruct H as [m [<- H]].
    apply IHr in H. exact H.
  - destruct (pos st =? 0); one H. apply reaches_refl.
  - destruct (rest st) as [| t [| ? ?]]; try destruct (Char.eqb t _);
      one H; apply reaches_refl.
  - destruct (xorb _ _); one H. apply reaches_refl.
Qed.

Lemma search_at_reaches (r : regex) (s : str) :
  forall st m, rest st = s -> search_at ic r st s = Some m ->
               exists st0, reaches st st0 /\ reaches st0 (m_cursor m)
                           /\ m_start m = pos st0 /\ m_end m = pos (m_cursor m).
Proof.
  induction s as [| c s IH]; simpl; intros st m E H.
  - destruct (run ic r st) as [| e l] eqn:R; [discriminate |].
    injection H as <-. exists st. simpl.
    repeat split; [apply reaches_refl | apply (run_reaches r); rewrite R; left; auto].
  - destruct (run ic r st) as [| e l] eqn:R.
    + apply IH in H; [| reflexivity].
      destruct H as [st0 [A B]]. exists st0.
      split; [| exact B].
      eapply reaches_trans; [apply reaches_advance, E | exact A].
    + injection H as <-. exists st. simpl.
      repeat split; [apply reaches_refl | apply (run_reaches r); rewrite R; left; auto].
Qed.

(** More fuel than characters left changes nothing: the scan ends before
    the fuel does. *)
Lemma finditer_fuel (r : regex) (n : nat) :
  forall st m, length (rest st) < n -> length (rest st) < m ->
               finditer ic r n st = finditer ic r m st.
Proof.
  induction n as [| n IH]; intros st m Hn Hm; [lia |].
  destruct m as [| m]; [lia |].
  cbn [finditer].
  destruct (search_at ic r st (rest st)) as [mt |] eqn:S; [| reflexivity].
  apply search_at_reaches in S; [| reflexivity].
  destruct S as [st0 [A [B [Ps Pe]]]].
  pose proof (reaches_length _ _ A) as LA.
  pose proof (reaches_length _ _ B) as LB.
  f_equal.
  destruct (m_end mt =? m_start mt) eqn:Z.
  - change (rest (set_grp None (m_cursor mt))) with (rest (m_cursor mt)).
    destruct (rest (m_cursor mt)) as [| c s'] eqn:R; [reflexivity |].
    simpl in LB. apply IH; simpl; lia.
  - apply Nat.eqb_neq in Z. rewrite Ps, Pe in Z.
    pose proof (reaches_shorter _ _ B Z).
    apply IH; simpl; lia.
Qed.

End Scan.

Import Difflib DifflibFacts.

Lemma matches_fuel (n : nat) :
  forall a b m, length a < n -> length a < m -> matches n a b = matches m a b.
Proof.
  induction n as [| n IH]; intros a b m Hn Hm; [lia |].
  destruct m as [| m]; [lia |].
  cbn [matches].
  pose proof (find_longest_match_fits a b) as F.
  destruct (find_longest_match a b) as [[i j] k]. simpl in F.
  destruct (k =? 0) eqn:K; [reflexivity |]. apply Nat.eqb_neq in K.
  rewrite (IH (firstn i a) (firstn j b) m), (IH (skipn (i + k) a) (skipn (j + k) b) m);
    try reflexivity;
    rewrite ?length_firstn, ?length_skipn; lia.
Qed.

End Fuel.

(** * Further properties *)

(** ** The confidence score saturates *)

Section Saturation.

Local Open Scope Q_scope.

Lemma dict_get_In {V} (k : str) (d : dict V) (v : V) :
  dict_get k d = Some v -> exists k', In (k', v) d.
Proof.
  induction d as [| [k' v'] d IH]; simpl; [discriminate |].
  destruct (Str.eqb k k'); intros H.
  - injection H as ->. eauto.
  - destruct (IH H) as [k2 H2]. eauto.
Qed.

Lemma clarity_bonus_bounds (n : nat) :
  0 <= clarity_bonus n /\ clarity_bonus n <= 0.15.
Proof.
  unfold clarity_bonus.
  destruct ((2 <=? n)%nat && (n <=? 8)%nat); [split; lra |].
  destruct ((9 <=? n)%nat && (n <=? 15)%nat); [split; lra |].
  destruct (15 <? n)%nat eqn:E; [| split; lra].
  split; [apply pymax_ge_l |].
  apply pymax_le; [lra |].
  pose proof (Qnat_nonneg (n - 15)). lra.
Qed.

Lemma keyword_bonus_bounds (k : nat) :
  0 <= pymin (Qnat k * 0.08) 0.2 /\ pymin (Qnat k * 0.08) 0.2 <= 0.2.
Proof.
  split; [| apply pymin_le_r].
  apply pymin_ge; [| lra]. pose proof (Qnat_nonneg k). lra.
Qed.

Lemma context_bonus_bounds (self : processor) (intent : str) :
  0 <= context_bonus self intent /\ context_bonus self intent <= 0.05.
Proof.
  unfold context_bonus. destruct (last_item _); [| split; lra].
  destruct (str_eq_val _ _); split; lra.
Qed.

(** Priority bonus and boost of the intents of the registry. *)
Lemma registry_bonus :
  Forall (fun ic : str * intent_config =>
            0.08 <= inject_Z (5 - priority (snd ic)) * 0.02 + confidence_boost (snd ic)
            /\ 0.1 <= confidence_boost (snd ic))
         command_patterns.
Proof. repeat constructor; vm_compute; discriminate. Qed.

Lemma registry_bonus_of (intent : str) (c : intent_config) :
  dict_get intent command_patterns = Some c ->
  0.08 <= inject_Z (5 - priority c) * 0.02 + confidence_boost c
  /\ 0.1 <= confidence_boost c.
Proof.
  intros H. apply dict_get_In in H. destruct H as [k H].
  pose proof registry_bonus as F. rewrite Forall_forall in F.
  exact (F _ H).
Qed.

(** X1.  [_calculate_confidence] is at least 0.75 and at most 0.99 for
    every text, intent (registered or not) and history; and once a pattern
    has matched ([pattern_match = True]) it is 0.99 for every intent of the
    registry, whatever the text. *)
Theorem calculate_confidence_saturates :
  (forall self text intent pattern_match,
      0.75 <= _calculate_confidence self text intent pattern_match
      /\ _calculate_confidence self text intent pattern_match <= 0.99)
  /\ (forall self text intent,
         In intent registry_intents ->
         _calculate_confidence self text intent true = 0.99).
Proof.
  split.
  - intros self text intent pm. split; [| apply calculate_confidence_le].
    unfold _calculate_confidence.
    pose proof (keyword_bonus_bounds
                  (length (filter (fun keyword => Str.contains keyword (Str.lower text))
                                  match dict_get intent command_patterns with
                                  | Some c => keywords c
                                  | None => []
                                  end))) as [K0 _].
    pose proof (clarity_bonus_bounds (length (Str.split text))) as [C0 _].
    pose proof (context_bonus_bounds self intent) as [X0 _].
    apply pymin_ge; [| lra].
    destruct (dict_get intent command_patterns) as [c |] eqn:E.
    + pose proof (registry_bonus_of intent c E) as [B _].
      destruct pm; cbv beta iota in *; lra.
    + change (inject_Z (5 - 5)) with 0. destruct pm; cbv beta iota in *; lra.
  - intros self text intent Hin.
    unfold _calculate_confidence.
    pose proof (keyword_bonus_bounds
                  (length (filter (fun keyword => Str.contains keyword (Str.lower text))
                                  match dict_get intent command_patterns with
                                  | Some c => keywords c
                                  | None => []
                                  end))) as [K0 _].
    pose proof (clarity_bonus_bounds (length (Str.split text))) as [C0 _].
    pose proof (context_bonus_bounds self intent) as [X0 _].
    destruct (dict_get intent command_patterns) as [c |] eqn:E.
    + pose proof (registry_bonus_of intent c E) as [B _].
      cbv beta iota in *.
      unfold pymin at 1.
      match goal with
      | |- (if Qltb 0.99 ?x then _ else _) = _ =>
          assert (L : Qltb 0.99 x = true)
            by (apply Qltb_true; lra);
          rewrite L
      end.
      reflexivity.
    + exfalso. unfold registry_intents in Hin. simpl in Hin.
      repeat (destruct Hin as [<- | Hin]; [vm_compute in E; discriminate E |]).
      destruct Hin.
Qed.

Lemma calculate_confidence_saturates_witness :
  In (lit "insights") registry_intents
  /\ _calculate_confidence init (lit "so") (lit "insights") true = 0.99.
Proof.
  split; [vm_compute; tauto |].
  apply (proj2 calculate_confidence_saturates). vm_compute. tauto.
Defined.

End Saturation.

(** ** The pattern stage *)

Section PatternStage.

Local Open Scope Q_scope.

(** With a boost of 0.1 or more, the cap hides the override rules. *)
Lemma pattern_confidence_saturated
  (intent : str) (config : intent_config) (text : str) :
  0.1 <= confidence_boost config ->
  pattern_confidence intent config text = 0.99.
Proof.
  intros B. unfold pattern_confidence.
  set (c := if _ : bool then _ else _).
  assert (Hc : 0.9 <= c).
  { unfold c. repeat match goal with
                     | |- context [if ?b then _ else _] => destruct b
                     end; lra. }
  unfold pymin.
  assert (L : Qltb 0.99 (c + confidence_boost config) = true)
    by (apply Qltb_true; lra).
  rewrite L. reflexivity.
Qed.

(** The loop over the patterns of one intent. *)
Lemma inner_loop_saturated
  (intent : str) (config : intent_config) (text : str) (pats : list regex) :
  0.1 <= confidence_boost config ->
  forall best,
    fold_left
      (fun (best : option str * Q) pattern =>
         match search true pattern text with
         | Some _ =>
             if Qltb (snd best) (pattern_confidence intent config text)
             then (Some intent, pattern_confidence intent config text)
             else best
         | None => best
         end)
      pats best
    = if existsb (fun pattern => match search true pattern text with
                                 | Some _ => true
                                 | None => false
                                 end) pats
         && Qltb (snd best) 0.99
      then (Some intent, 0.99)
      else best.
Proof.
  intros B. rewrite (pattern_confidence_saturated intent config text B).
  induction pats as [| p pats IH]; intros best; [reflexivity |].
  cbn [fold_left existsb].
  destruct (search true p text) as [m |].
  - destruct (Qltb (snd best) 0.99) eqn:L; rewrite IH.
    + cbn [snd orb andb].
      replace (Qltb 0.99 0.99) with false by reflexivity.
      rewrite andb_false_r. reflexivity.
    + rewrite L, andb_false_r. cbn [orb andb]. reflexivity.
  - rewrite IH. reflexivity.
Qed.

Lemma best_pattern_from
  (text : str) (registry : dict intent_config) :
  Forall (fun ic : str * intent_config => 0.1 <= confidence_boost (snd ic))
         registry ->
  forall best,
    (best = (None, 0) \/ exists i, best = (Some i, 0.99)) ->
    fold_left
      (fun best (ic : str * intent_config) =>
         let (intent, config) := ic in
         if Str.eqb intent (lit "bidding") then best
         else
           fold_left
             (fun best pattern =>
                match search true pattern text with
                | Some _ =>
                    let confidence := pattern_confidence intent config text in
                    if Qltb (snd best) confidence
                    then (Some intent, confidence) else best
                | None => best
                end)
             (patterns config) best)
      registry best
    = match fst best with
      | Some _ => best
      | None =>
          match find (candidate text) registry with
          | Some ic => (Some (fst ic), 0.99)
          | None => (None, 0)
          end
      end.
Proof.
  induction 1 as [| [i config] registry B _ IH]; intros best Hb.
  - destruct Hb as [-> | [i ->]]; reflexivity.
  - cbn [fold_left find]. unfold candidate at 1. cbn [fst snd] in *.
    destruct (Str.eqb i (lit "bidding")); cbn [negb andb].
    + apply IH, Hb.
    + change (fold_left _ (patterns config) best)
        with (fold_left
                (fun (best : option str * Q) pattern =>
                   match search true pattern text with
                   | Some _ =>
                       if Qltb (snd best) (pattern_confidence i config text)
                       then (Some i, pattern_confidence i config text)
                       else best
                   | None => best
                   end)
                (patterns config) best).
      rewrite (inner_loop_saturated i config text (patterns config) B).
      fold (matches_some config text).
      destruct Hb as [-> | [j ->]].
      * cbn [snd fst]. replace (Qltb 0 0.99) with true by reflexivity.
        rewrite andb_true_r.
        destruct (matches_some config text).
        -- rewrite IH by eauto. reflexivity.
        -- rewrite IH by auto. reflexivity.
      * cbn [snd fst]. replace (Qltb 0.99 0.99) with false by reflexivity.
        rewrite andb_false_r. rewrite IH by eauto. reflexivity.
Qed.

Lemma registry_boosts :
  Forall (fun ic : str * intent_config => 0.1 <= confidence_boost (snd ic))
         command_patterns.
Proof.
  generalize registry_bonus. apply Forall_impl. intros ic [_ H]. exact H.
Qed.

(** What the loop over the other intents computes. *)
Lemma best_pattern_first (text : str) :
  best_pattern command_patterns text
  = match find (candidate text) command_patterns with
    | Some ic => (Some (fst ic), 0.99)
    | None => (None, 0)
    end.
Proof.
  exact (best_pattern_from text command_patterns registry_boosts (None, 0)
           (or_introl eq_refl)).
Qed.

End PatternStage.

(** X2.  A pattern match of an intent other than bidding always reports
    the confidence 0.99: the boost of every intent lifts 0.90 and each
    override (0.96, 0.97, 0.98) above the cap.  The intent reported is
    therefore the first one, in the order listing, status, help, greeting,
    insights, that has a pattern matching the normalized text. *)
Theorem pattern_match_reports_099
  (self : processor) (input_text : str) (r : command_result) :
  process_command self input_text = Returns r ->
  method r = lit "pattern_match" ->
  intent r <> lit "bidding" ->
  confidence r = 0.99%Q
  /\ exists config,
       find (candidate (_preprocess_text input_text)) command_patterns
       = Some (intent r, config).
Proof.
  unfold process_command.
  set (text := _preprocess_text input_text).
  set (context := make_context self).
  destruct (detect_bidding_spec context text Pat.bidding bidding_patterns_capture)
    as [o [-> Ho]].
  cbn [bind].
  destruct o as [r' |].
  { destruct Ho as [a [_ ->]]. intros H. injection H as <-.
    intros _ Hi. exfalso. apply Hi. reflexivity. }
  rewrite best_pattern_first.
  destruct (find (candidate text) command_patterns) as [[i config] |] eqn:F.
  - cbn [fst].
    destruct i as [| c i].
    + exfalso. apply find_some in F. destruct F as [F _].
      apply (in_map fst) in F. revert F. differ.
    + cbn [truthy]. intros H. injection H as <-. intros _ _.
      split; [reflexivity | exists config; reflexivity].
  - cbn [truthy].
    destruct (_fuzzy_match_intent self text) as [fi fc].
    destruct (Qltb 0.7 fc).
    + intros H. injection H as <-. intros Hm. exfalso. revert Hm. differ.
    + destruct (find _ keyword_matches) as [[k i] |];
        intros H; injection H as <-; intros Hm; exfalso; revert Hm; differ.
Qed.

Lemma pattern_match_reports_099_witness :
  exists r,
    process_command init (lit "Hello") = Returns r
    /\ method r = lit "pattern_match"
    /\ intent r <> lit "bidding"
    /\ confidence r = 0.99%Q
    /\ exists config,
         find (candidate (_preprocess_text (lit "Hello"))) command_patterns
         = Some (intent r, config).
Proof.
  eexists.
  split; [vm_compute; reflexivity |].
  split; [reflexivity |].
  split; [differ |].
  apply (pattern_match_reports_099 init (lit "Hello"));
    [vm_compute; reflexivity | reflexivity | differ].
Defined.

(** ** Texts without a digit *)

Section Digitless.

Variable ic : bool.

Lemma digitless_skipn (n : nat) (s : str) : digitless s -> digitless (skipn n s).
Proof.
  unfold digitless. revert s. induction n as [| n IH]; intros s H; [exact H |].
  destruct s as [| c s]; [constructor |]. apply IH. inversion H; assumption.
Qed.

Lemma digitless_reached (st e : cursor) :
  reaches st e -> digitless (rest st) -> digitless (rest e).
Proof. intros [n [_ [-> _]]]. apply digitless_skipn. Qed.

Lemma run_needs_digit (r : regex) :
  needs_digit r = true ->
  forall st, digitless (rest st) -> run ic r st = [].
Proof.
  induction r; cbn [needs_digit]; try discriminate; intros N st D.
  - destruct k; [discriminate |]. cbn [run].
    destruct (rest st) as [| t s']; [reflexivity |].
    inversion D as [| ? ? Ht _]; subst. cbn [in_class]. rewrite Ht. reflexivity.
  - cbn [run]. apply orb_true_iff in N. destruct N as [N | N].
    + rewrite (IHr1 N st D). reflexivity.
    + assert (H : forall l, (forall e, In e l -> digitless (rest e)) ->
                            flat_map (run ic r2) l = []).
      { induction l as [| e l IHl]; intros Hl; [reflexivity |].
        cbn [flat_map]. rewrite (IHr2 N e) by (apply Hl; left; reflexivity).
        apply IHl. intros e' He'. apply Hl. right. exact He'. }
      apply H. intros e He. apply (digitless_reached st e); [| exact D].
      apply (Fuel.run_reaches ic r1). exact He.
  - cbn [run]. apply andb_true_iff in N. destruct N as [N1 N2].
    rewrite (IHr1 N1 st D), (IHr2 N2 st D). reflexivity.
  - destruct k; [discriminate |]. cbn [run].
    destruct (rest st) as [| t s']; [reflexivity |].
    inversion D as [| ? ? Ht _]; subst. cbn [in_class]. rewrite Ht. reflexivity.
  - cbn [run]. rewrite (IHr N st D). reflexivity.
Qed.

Lemma search_at_digitless (r : regex) (s : str) :
  needs_digit r = true ->
  forall st, rest st = s -> digitless s -> search_at ic r st s = None.
Proof.
  intros N. induction s as [| c s IH]; intros st E D; cbn [search_at];
    rewrite (run_needs_digit r N st) by (rewrite E; exact D); [reflexivity |].
  apply IH; [reflexivity | inversion D; assumption].
Qed.

Lemma search_digitless (r : regex) (text : str) :
  needs_digit r = true -> digitless text -> search ic r text = None.
Proof. intros N D. apply search_at_digitless; auto. Qed.

Lemma finditer_digitless (r : regex) (text : str) (fuel : nat) :
  needs_digit r = true -> digitless text ->
  finditer ic r fuel (start text) = [].
Proof.
  intros N D. destruct fuel; [reflexivity |]. cbn [finditer].
  change (rest (start text)) with text.
  rewrite (search_at_digitless r text N (start text) eq_refl D). reflexivity.
Qed.

End Digitless.

Lemma digit_patterns :
  forallb needs_digit Pat.bidding = true
  /\ forallb needs_digit Pat.currency = true
  /\ needs_digit Pat.num0 = true.
Proof. repeat split. Qed.

Lemma extract_direct_digitless (text : str) (pats : list regex) :
  forallb needs_digit pats = true -> digitless text ->
  extract_direct pats text = Returns None.
Proof.
  intros N D. induction pats as [| p pats IH]; [reflexivity |].
  cbn [forallb] in N. apply andb_true_iff in N. destruct N as [Np N].
  cbn [extract_direct]. rewrite (search_digitless true p text Np D). auto.
Qed.

Lemma extract_currency_digitless (text : str) (pats : list regex) :
  forallb needs_digit pats = true -> digitless text ->
  extract_currency pats text = Returns None.
Proof.
  intros N D. induction pats as [| p pats IH]; [reflexivity |].
  cbn [forallb] in N. apply andb_true_iff in N. destruct N as [Np N].
  cbn [extract_currency]. unfold findall.
  rewrite (finditer_digitless true p text _ Np D). cbn. auto.
Qed.

Lemma detect_bidding_digitless
  (context : command_context) (text : str) (pats : list regex) :
  forallb needs_digit pats = true -> digitless text ->
  detect_bidding context pats text = Returns None.
Proof.
  intros N D. induction pats as [| p pats IH]; [reflexivity |].
  cbn [forallb] in N. apply andb_true_iff in N. destruct N as [Np N].
  cbn [detect_bidding]. rewrite (search_digitless true p text Np D). auto.
Qed.

(** The normalizer brings in no digit. *)
Lemma lower_digit (c : ascii) :
  Char.isdigit c = false -> Char.isdigit (Char.lower c) = false.
Proof. destruct c as [[] [] [] [] [] [] [] []]; intros H; try reflexivity; discriminate H. Qed.

Lemma preprocess_digitless (x : str) :
  digitless x -> digitless (_preprocess_text x).
Proof.
  intros D. rewrite preprocess_form. unfold cleaned, digitless.
  apply Normal.join_all; [repeat constructor |].
  apply Normal.split_all, Normal.sub_punctuation_all; [reflexivity |].
  apply Normal.join_all; [repeat constructor |].
  apply Normal.filter_all_words, Normal.split_all.
  apply Normal.corrections_all; [unfold corrections; repeat constructor |].
  apply Normal.strip_all. unfold Str.lower. apply Forall_map.
  revert D. apply Forall_impl. exact lower_digit.
Qed.

(** X3.  A text without a digit gives no amount: [_extract_bid_amount]
    returns [None] (none of its three methods finds a candidate), and
    [process_command] returns a result without [bid_amount], never through
    the bidding patterns. *)
Theorem no_digit_no_amount (self : processor) (text : str) :
  digitless text ->
  _extract_bid_amount text = Returns None
  /\ exists r, process_command self text = Returns r
               /\ data r = None
               /\ ~ (intent r = lit "bidding" /\ method r = lit "pattern_match").
Proof.
  intros D. destruct digit_patterns as [Nb [Nc Nn]]. split.
  - unfold _extract_bid_amount.
    rewrite (extract_direct_digitless text Pat.bidding Nb D). cbn [bind].
    rewrite (extract_currency_digitless text Pat.currency Nc D). cbn [bind].
    unfold findall0. rewrite (finditer_digitless false Pat.num0 text _ Nn D).
    reflexivity.
  - unfold process_command.
    rewrite (detect_bidding_digitless (make_context self) _ Pat.bidding Nb
               (preprocess_digitless text D)).
    cbn [bind]. rewrite best_pattern_first.
    destruct (find (candidate (_preprocess_text text)) command_patterns)
      as [[i config] |] eqn:F; cbn [fst].
    + apply find_some in F. destruct F as [Fin Fc].
      destruct i as [| c i]; cbn [truthy].
      * exfalso. apply (in_map fst) in Fin. revert Fin. differ.
      * eexists. split; [reflexivity |]. split; [reflexivity |].
        cbn [intent method]. intros [Hi _].
        unfold candidate in Fc. cbn [fst] in Fc. rewrite Hi in Fc.
        discriminate Fc.
    + cbn [truthy].
      destruct (_fuzzy_match_intent self (_preprocess_text text)) as [fi fc].
      destruct (Qltb 0.7 fc).
      * eexists. split; [reflexivity |]. split; [reflexivity |].
        cbn [intent method]. intros [_ Hm]. revert Hm. differ.
      * destruct (find _ keyword_matches) as [[k i] |];
          (eexists; split; [reflexivity |]; split; [reflexivity |];
           cbn [intent method]; intros [_ Hm]; revert Hm; differ).
Qed.

Lemma no_digit_no_amount_witness :
  digitless (lit "I want to bid fifty dollars")
  /\ _extract_bid_amount (lit "I want to bid fifty dollars") = Returns None
  /\ exists r, process_command init (lit "I want to bid fifty dollars") = Returns r
               /\ data r = None
               /\ ~ (intent r = lit "bidding" /\ method r = lit "pattern_match").
Proof.
  assert (D : digitless (lit "I want to bid fifty dollars"))
    by (unfold digitless; repeat constructor).
  split; [exact D |].
  apply (no_digit_no_amount init (lit "I want to bid fifty dollars") D).
Defined.

(** ** The shape of the normalized text *)

Section NormalForm.

Import Str StrFacts Normal.

Lemma str_eqb_eq (a b : str) : Str.eqb a b = true -> a = b.
Proof.
  revert b. induction a as [| x a IH]; intros [| y b]; simpl; try discriminate;
    [reflexivity |].
  intros H. apply andb_true_iff in H. destruct H as [H1 H2].
  apply Ascii.eqb_eq in H1. rewrite H1, (IH b H2). reflexivity.
Qed.

Lemma str_eqb_refl (a : str) : Str.eqb a a = true.
Proof.
  induction a as [| x a IH]; simpl; [reflexivity |].
  unfold Char.eqb. rewrite Ascii.eqb_refl. exact IH.
Qed.

Lemma cleaned_lowered (x : str) : Forall (fun c => Char.lower c = c) (cleaned x).
Proof.
  unfold cleaned.
  apply sub_punctuation_all; [reflexivity |].
  apply join_all; [repeat constructor |].
  apply filter_all_words, split_all.
  apply corrections_all; [exact corrections_lowered |].
  apply strip_all. unfold lower. apply Forall_map.
  apply Forall_forall. intros c _. apply lower_lower.
Qed.

(** X4.  The normalized text is a list of tokens joined by single
    spaces: it has no leading, trailing or repeated whitespace, its tokens
    are not empty and are made of word characters, [$] and [.] only, and no
    character of it changes under [lower]. *)
Theorem preprocess_normal_form (x : str) :
  exists tokens,
    _preprocess_text x = join space tokens
    /\ split (_preprocess_text x) = tokens
    /\ Forall (fun w => w <> []
                        /\ Forall (fun c => token_char c = true
                                            /\ Char.isspace c = false
                                            /\ Char.lower c = c) w)
              tokens.
Proof.
  exists (split (cleaned x)).
  split; [apply preprocess_form |].
  split; [rewrite preprocess_form; apply split_join, split_words |].
  pose proof (split_words (cleaned x)) as W.
  pose proof (split_all (fun c => kept c = true) _ (sub_punctuation_kept
               (join space (remove_fillers (split (apply_corrections
                                                     (strip (lower x)))))))) as K.
  fold (cleaned x) in K.
  pose proof (split_all _ _ (cleaned_lowered x)) as L.
  induction (split (cleaned x)) as [| w ws IH]; [constructor |].
  inversion W as [| ? ? [Wne Wsp] W']; inversion K as [| ? ? Kw K'];
    inversion L as [| ? ? Lw L']; subst.
  constructor; [| apply IH; assumption].
  split; [exact Wne |].
  clear - Wsp Kw Lw.
  induction w as [| c w IHw]; [constructor |].
  inversion Wsp; inversion Kw; inversion Lw; subst.
  constructor; [| apply IHw; assumption].
  repeat split; try assumption.
  unfold kept in *. unfold token_char.
  destruct (Char.isword c); [reflexivity |].
  destruct (Char.isspace c); [discriminate |]. assumption.
Qed.

(** A token holds no whitespace, so it is not "you know". *)
Lemma token_filler (w : str) :
  word_ok w -> mem w filler_words = mem w one_word_fillers.
Proof.
  intros [_ Hw].
  assert (E : Str.eqb w (lit "you know") = false).
  { destruct (Str.eqb w (lit "you know")) eqn:E; [| reflexivity].
    apply str_eqb_eq in E. subst w.
    rewrite Forall_forall in Hw.
    assert (C : Char.isspace " " = false) by (apply Hw; vm_compute; tauto).
    discriminate C. }
  unfold mem, filler_words, one_word_fillers. cbn [map existsb].
  rewrite E. reflexivity.
Qed.

(** X5.  The entry "you know" of the filler list never removes
    anything: the tokens of a text hold no space, so filtering them against
    the whole list is filtering against its eight one-word entries. *)
Theorem you_know_is_never_removed (text : str) :
  remove_fillers (split text)
  = filter (fun w => negb (mem w one_word_fillers)) (split text).
Proof.
  unfold remove_fillers. apply filter_ext_in.
  intros w Hw. f_equal. apply token_filler.
  pose proof (split_words text) as W. rewrite Forall_forall in W. auto.
Qed.

End NormalForm.

(** ** Blank utterances *)

Section Blank.

Import Str StrFacts Normal.

Lemma blank_lower_char (c : ascii) :
  Char.isspace c = true \/ kept c = false -> Char.lower c = c.
Proof.
  destruct c as [[] [] [] [] [] [] [] []]; intros [H | H];
    try reflexivity; discriminate H.
Qed.

Lemma blank_lower (x : str) : blank x -> lower x = x.
Proof.
  intros B. apply map_fixed. revert B. apply Forall_impl. exact blank_lower_char.
Qed.

Lemma contains_first (k0 : ascii) (k t : str) :
  Forall (fun c => Char.eqb k0 c = false) t -> contains (k0 :: k) t = false.
Proof.
  induction 1 as [| c t Hc Ht IH]; [reflexivity |].
  cbn [contains startswith]. rewrite Hc, IH. reflexivity.
Qed.

Lemma blank_contains (key t : str) :
  starts_with_letter key = true -> blank t -> contains key t = false.
Proof.
  destruct key as [| k0 k]; [discriminate |]. cbn [starts_with_letter].
  intros H B. apply andb_true_iff in H. destruct H as [Hw Hs].
  apply negb_true_iff in Hs.
  apply contains_first. revert B. apply Forall_impl. intros c Hc.
  destruct (Char.eqb k0 c) eqn:E; [| reflexivity].
  apply Ascii.eqb_eq in E. subst c. unfold kept in Hc. rewrite Hw, Hs in Hc.
  destruct Hc; discriminate.
Qed.

Lemma blank_corrections (t : str) : blank t -> apply_corrections t = t.
Proof.
  intros B. unfold apply_corrections. apply corrections_absent.
  assert (K : forallb (fun ec : str * str => starts_with_letter (fst ec))
                      corrections = true) by reflexivity.
  rewrite forallb_forall in *. intros ec Hec.
  rewrite (blank_contains (fst ec) t (K ec Hec) B). reflexivity.
Qed.

Lemma split_spaces (s : str) :
  Forall (fun c => Char.isspace c = true) s -> split s = [].
Proof.
  induction 1 as [| c s Hc Hs IH]; [reflexivity |].
  cbn [split]. rewrite Hc. exact IH.
Qed.

Lemma sub_punctuation_blank (s : str) :
  blank s -> Forall (fun c => Char.isspace c = true) (sub_punctuation s).
Proof.
  unfold sub_punctuation. induction 1 as [| c s Hc Hs IH]; [constructor |].
  cbn [map]. constructor; [| exact IH].
  destruct (kept c) eqn:K; [| reflexivity].
  destruct Hc as [Hc | Hc]; [exact Hc | discriminate].
Qed.

Lemma preprocess_blank (x : str) : blank x -> _preprocess_text x = [].
Proof.
  intros B. rewrite preprocess_form. unfold cleaned.
  rewrite (blank_lower x B).
  assert (Bs : blank (strip x)) by (apply strip_all; exact B).
  rewrite (blank_corrections _ Bs).
  rewrite split_spaces; [reflexivity |].
  apply sub_punctuation_blank.
  apply join_all; [constructor; [left; reflexivity | constructor] |].
  apply filter_all_words, split_all, Bs.
Qed.

End Blank.

(** X6.  An utterance that is empty, or made of whitespace and
    punctuation only, normalizes to the empty text and is classified
    [unknown] with confidence 0.1 by the last exit, whatever the state. *)
Theorem blank_is_unknown (self : processor) (x : str) :
  blank x ->
  _preprocess_text x = []
  /\ process_command self x
     = Returns (CommandResult (lit "unknown") 0.1 None (make_context self)
                  (lit "no_match") false).
Proof.
  intros B. split; [apply preprocess_blank, B |].
  unfold process_command. rewrite (preprocess_blank x B).
  vm_compute. reflexivity.
Qed.

Lemma blank_is_unknown_witness :
  blank (lit " ?!  -- ")
  /\ _preprocess_text (lit " ?!  -- ") = []
  /\ process_command init (lit " ?!  -- ")
     = Returns (CommandResult (lit "unknown") 0.1 None (make_context init)
                  (lit "no_match") false).
Proof.
  assert (B : blank (lit " ?!  -- ")).
  { unfold blank. repeat constructor; vm_compute; tauto. }
  split; [exact B |].
  apply (blank_is_unknown init (lit " ?!  -- ") B).
Defined.

(** ** The session state after some turns *)

Section Session.

Lemma history_of_session (ts : list turn) :
  conversation_history (run_turns ts init) = lastn 50 (map conversation_entry ts).
Proof.
  destruct (history_run ts init) as [H | [-> H]]; [| reflexivity].
  rewrite H. reflexivity.
Qed.

Lemma lastn_In {A} (n : nat) (l : list A) (x : A) : In x (lastn n l) -> In x l.
Proof.
  unfold lastn. intros H. rewrite <- (firstn_skipn (length l - n) l).
  apply in_or_app. right. exact H.
Qed.

Lemma map_constant {A B} (f : A -> B) (v : B) (l : list A) :
  (forall x, In x l -> f x = v) -> map f l = repeat v (length l).
Proof.
  induction l as [| x l IH]; intros H; [reflexivity |].
  cbn [map length repeat]. rewrite (H x) by (left; reflexivity).
  rewrite IH by (intros; apply H; right; assumption). reflexivity.
Qed.

(** X7.  After [n] turns the context that [process_command] attaches to
    its result shows a session length of [min n 50] and the expertise
    "experienced" from the fifth turn on, but its [recentCommands] are all
    "unknown": the entries of the history have no key ['intent']. *)
Theorem context_after_turns (ts : list turn) :
  make_context (run_turns ts init)
  = CommandContext true (0 <? length ts)
      (repeat (PStr (lit "unknown")) (Nat.min 3 (length ts)))
      (Nat.min 50 (length ts))
      (if length ts <? 5 then lit "beginner" else lit "experienced").
Proof.
  unfold make_context. rewrite history_of_session.
  set (es := map conversation_entry ts).
  assert (Hn : length es = length ts) by apply length_map.
  rewrite lastn_length, Hn.
  rewrite (map_constant (fun h => get_or (lit "intent") (PStr (lit "unknown")) h)
             (PStr (lit "unknown"))).
  - rewrite !lastn_length, Hn.
    f_equal.
    + destruct (length ts) as [| n]; [reflexivity |].
      destruct (Nat.min_spec 50 (S n)) as [[_ ->] | [_ ->]]; reflexivity.
    + f_equal. lia.
    + destruct (Nat.min_spec 50 (length ts)) as [[H ->] | [H ->]];
        [| reflexivity].
      replace (length ts <? 5) with false by (symmetry; apply Nat.ltb_ge; lia).
      reflexivity.
  - intros h Hh. apply lastn_In, lastn_In in Hh. unfold es in Hh.
    apply in_map_iff in Hh. destruct Hh as [t [<- _]]. reflexivity.
Qed.

(** *** The per-user entries *)

Lemma dict_get_set {V} (k k' : str) (v : V) (d : dict V) :
  dict_get k (dict_set k' v d) = if Str.eqb k k' then Some v else dict_get k d.
Proof.
  induction d as [| [k2 v2] d IH]; [reflexivity |].
  cbn [dict_set dict_get].
  destruct (Str.eqb k' k2) eqn:E2.
  - apply str_eqb_eq in E2. subst k2. cbn [dict_get].
    destruct (Str.eqb k k'); reflexivity.
  - cbn [dict_get]. rewrite IH.
    destruct (Str.eqb k k2) eqn:E; [| reflexivity].
    destruct (Str.eqb k k') eqn:E'; [| reflexivity].
    apply str_eqb_eq in E, E'. subst. rewrite str_eqb_refl in E2. discriminate.
Qed.

(** The entry a turn writes for its user. *)
Lemma user_step (t : turn) (self : processor) :
  exists u',
    user_context (fst (process_voice_command t self))
    = dict_set (turn_user_id t) u' (user_context self)
    /\ let u := match dict_get (turn_user_id t) (user_context self) with
                | Some u => u
                | None => new_user t
                end in
       command_count u' = (command_count u + 1)%Z
       /\ preferred_language u' = preferred_language u
       /\ session_start u' = session_start u
       /\ (success_rate u' = success_rate u
           \/ success_rate u' = (success_rate u * 0.9 + 0.1)%Q).
Proof.
  unfold process_voice_command.
  destruct (dict_get (lit "intent") (turn_result t)).
  - destruct (gt_float _ _) as [[] | e]; eexists; split; try reflexivity;
      cbn; auto.
  - eexists. split; [reflexivity |]. cbn. auto.
Qed.

Lemma run_turns_snoc (ts : list turn) (t : turn) (self : processor) :
  run_turns (ts ++ [t]) self = fst (process_voice_command t (run_turns ts self)).
Proof. unfold run_turns. rewrite fold_left_app. reflexivity. Qed.

(** X8.  The users of a session are counted turn by turn: after any
    turns, a user id that made none has no entry in [user_context], and the
    entry of any other holds the number of its turns as [command_count],
    whether or not those turns returned. *)
Theorem command_count_counts_turns (ts : list turn) (user_id : str) :
  match dict_get user_id (user_context (run_turns ts init)) with
  | Some u => command_count u = Z.of_nat (turns_of user_id ts)
              /\ 0 < turns_of user_id ts
  | None => turns_of user_id ts = 0
  end.
Proof.
  induction ts as [| t ts IH] using rev_ind; [reflexivity |].
  rewrite run_turns_snoc.
  destruct (user_step t (run_turns ts init)) as [u' [-> [Hc _]]].
  rewrite dict_get_set.
  unfold turns_of in *. rewrite filter_app, length_app. cbn [filter].
  destruct (Str.eqb user_id (turn_user_id t)) eqn:E.
  - apply str_eqb_eq in E. subst user_id. cbn [length]. rewrite Hc.
    destruct (dict_get (turn_user_id t) (user_context (run_turns ts init)))
      as [u |].
    + destruct IH as [IH _]. rewrite IH. split; lia.
    + rewrite IH. cbn. split; [reflexivity | lia].
  - cbn [length]. rewrite Nat.add_0_r. exact IH.
Qed.

(** X9.  Every entry of [user_context] keeps its [success_rate] between
    0 and 1 and its language "en", after any turns. *)
Theorem success_rate_in_unit_range (ts : list turn) (user_id : str) (u : user_entry) :
  dict_get user_id (user_context (run_turns ts init)) = Some u ->
  (0 <= success_rate u)%Q /\ (success_rate u <= 1)%Q
  /\ preferred_language u = lit "en".
Proof.
  revert user_id u.
  induction ts as [| t ts IH] using rev_ind; intros user_id u; [discriminate |].
  rewrite run_turns_snoc.
  destruct (user_step t (run_turns ts init)) as [u' [-> [_ [Hl [_ Hs]]]]].
  rewrite dict_get_set.
  destruct (Str.eqb user_id (turn_user_id t)); [| apply IH].
  intros H. injection H as <-.
  assert (P : let u0 := match dict_get (turn_user_id t)
                                (user_context (run_turns ts init)) with
                        | Some u0 => u0
                        | None => new_user t
                        end in
              (0 <= success_rate u0)%Q /\ (success_rate u0 <= 1)%Q
              /\ preferred_language u0 = lit "en").
  { destruct (dict_get (turn_user_id t) (user_context (run_turns ts init)))
      as [u0 |] eqn:E.
    - exact (IH _ _ E).
    - cbn. repeat split; lra. }
  cbv zeta in *. destruct P as [P0 [P1 P2]].
  rewrite Hl. split; [| split; [| exact P2]].
  - destruct Hs as [-> | ->]; lra.
  - destruct Hs as [-> | ->]; lra.
Qed.

Lemma success_rate_in_unit_range_witness :
  let ts := map sample_turn (List.seq 0 3) in
  exists u,
    dict_get (lit "anonymous") (user_context (run_turns ts init)) = Some u
    /\ (0 <= success_rate u)%Q /\ (success_rate u <= 1)%Q
    /\ preferred_language u = lit "en".
Proof.
  intros ts. eexists. split; [vm_compute; reflexivity |].
  apply (success_rate_in_unit_range ts (lit "anonymous")).
  vm_compute. reflexivity.
Defined.

End Session.

(** ** Bid validation *)

Section Validation.

Local Open Scope Q_scope.

(** X10.  [_validate_bid_amount] fails open: it rejects a bid only on a
    response with status 200 whose body could be read and whose auctions
    are all dictionaries; when the request or [json()] raises, the status
    is another one, or the body is malformed, the bid is reported valid. *)
Theorem validation_fails_open (get : option http_response) (bid_amount : Q) :
  is_valid (_validate_bid_amount get bid_amount) = false ->
  exists response data auctions active,
    get = Some response
    /\ status_code response = 200%Z
    /\ json response = Some data
    /\ iterate (auctions_of data) = Some auctions
    /\ active_auctions auctions = Some active
    /\ (active = []
        \/ exists highest, max_number (map currentBid active) = Some highest).
Proof.
  unfold _validate_bid_amount.
  destruct get as [response |]; [| discriminate].
  unfold validate_response.
  destruct (status_code response =? 200)%Z eqn:S; [| discriminate].
  apply Z.eqb_eq in S.
  destruct (json response) as [data |] eqn:J; [| discriminate].
  destruct (iterate (auctions_of data)) as [auctions |] eqn:I; [| discriminate].
  destruct (active_auctions auctions) as [active |] eqn:A; [| discriminate].
  intros H. exists response, data, auctions, active.
  do 5 (split; [auto |]).
  destruct active as [| a active]; [left; reflexivity | right].
  destruct (max_number (map currentBid (a :: active))) as [h |];
    [eauto | discriminate].
Qed.

Lemma validation_fails_open_witness :
  let received :=
    HttpResponse 200
      (Some (PList [PDict [(lit "status", PStr (lit "active"));
                           (lit "currentBid", PInt 100)]])) in
  is_valid (_validate_bid_amount (Some received) (inject_Z 50)) = false
  /\ exists response data auctions active,
       Some received = Some response
       /\ status_code response = 200%Z
       /\ json response = Some data
       /\ iterate (auctions_of data) = Some auctions
       /\ active_auctions auctions = Some active
       /\ (active = []
           \/ exists highest, max_number (map currentBid active) = Some highest).
Proof.
  intros received. split; [reflexivity |].
  apply (validation_fails_open (Some received) (inject_Z 50)). reflexivity.
Defined.

(** What [max] returns on numbers. *)
Lemma max_from_spec (values : list pyval) :
  Forall (fun v => number v <> None) values ->
  forall best best_q,
    number best = Some best_q ->
    exists v q,
      max_from best best_q values = Some v
      /\ number v = Some q
      /\ best_q <= q
      /\ (forall v' q', In v' values -> number v' = Some q' -> q' <= q)
      /\ (v = best \/ In v values).
Proof.
  induction 1 as [| w values Hw _ IH]; intros best bq Hb.
  - exists best, bq. cbn. repeat split; auto; [lra | intros ? ? []].
  - cbn [max_from]. destruct (number w) as [wq |] eqn:Ew; [| contradiction].
    destruct (Qltb bq wq) eqn:L.
    + apply Qltb_true in L.
      destruct (IH w wq Ew) as [v [q [E [Nv [Lq [Hall Hin]]]]]].
      exists v, q. repeat split; auto; [lra | | destruct Hin; [subst |]; cbn; auto].
      intros v' q' [<- | Hv'] Nv'; [| eauto].
      rewrite Ew in Nv'. injection Nv' as <-. exact Lq.
    + apply Qltb_false in L.
      destruct (IH best bq Hb) as [v [q [E [Nv [Lq [Hall Hin]]]]]].
      exists v, q. repeat split; auto; [| destruct Hin; cbn; auto].
      intros v' q' [<- | Hv'] Nv'; [| eauto].
      rewrite Ew in Nv'. injection Nv' as <-. lra.
Qed.

Lemma max_number_spec (values : list pyval) :
  values <> [] ->
  Forall (fun v => number v <> None) values ->
  exists v q,
    max_number values = Some v
    /\ number v = Some q
    /\ (forall v' q', In v' values -> number v' = Some q' -> q' <= q)
    /\ In v values.
Proof.
  destruct values as [| w values]; [contradiction |]. intros _ H.
  inversion H as [| ? ? Hw Hvs]; subst. cbn [max_number].
  destruct (number w) as [wq |] eqn:Ew; [| contradiction].
  destruct (max_from_spec values Hvs w wq Ew) as [v [q [E [Nv [Lq [Hall Hin]]]]]].
  exists v, q. repeat split; auto; [| destruct Hin; [subst |]; cbn; auto].
  intros v' q' [<- | Hv'] Nv'; [| eauto].
  rewrite Ew in Nv'. injection Nv' as <-. exact Lq.
Qed.

(** X11.  On a readable response with at least one active auction, all
    with a numeric current bid, [_validate_bid_amount] accepts a bid exactly
    when it is above the current bid of every active auction and between 1
    and 10,000,000. *)
Theorem validation_accepts_iff
  (data : pyval) (auctions : list pyval) (active : list (dict pyval))
  (bid_amount : Q) :
  iterate (auctions_of data) = Some auctions ->
  active_auctions auctions = Some active ->
  active <> [] ->
  Forall (fun a => number (currentBid a) <> None) active ->
  (is_valid (_validate_bid_amount (Some (HttpResponse 200 (Some data))) bid_amount)
   = true
   <-> (forall a q, In a active -> number (currentBid a) = Some q -> q < bid_amount)
       /\ 1 <= bid_amount /\ bid_amount <= 10000000).
Proof.
  intros Hi Ha Hne Hnum.
  unfold _validate_bid_amount, validate_response.
  cbn [status_code json]. replace (200 =? 200)%Z with true by reflexivity.
  rewrite Hi, Ha.
  destruct active as [| a0 active0]; [contradiction |].
  set (active := a0 :: active0) in *.
  destruct (max_number_spec (map currentBid active)) as [h [hq [-> [Nh [Hall Hin]]]]].
  { discriminate. }
  { apply Forall_map. exact Hnum. }
  rewrite Nh.
  apply in_map_iff in Hin. destruct Hin as [amax [Emax Hmax]].
  assert (Hbelow : (forall a q, In a active -> number (currentBid a) = Some q ->
                                q < bid_amount) <-> hq < bid_amount).
  { split.
    - intros H. apply (H amax hq Hmax). rewrite Emax. exact Nh.
    - intros H a q Hin Hq.
      assert (q <= hq) by (apply (Hall (currentBid a) q); [apply in_map, Hin | exact Hq]).
      lra. }
  rewrite Hbelow.
  unfold Qleb.
  destruct (Qle_bool bid_amount hq) eqn:L1.
  - apply Qle_bool_iff in L1. cbn. split; [discriminate | intros [H _]; lra].
  - assert (L1' : hq < bid_amount).
    { apply Qnot_le_lt. intros C. apply Qle_bool_iff in C. congruence. }
    destruct (Qltb 10000000 bid_amount) eqn:L2.
    + apply Qltb_true in L2. cbn. split; [discriminate | intros [_ [_ H]]; lra].
    + apply Qltb_false in L2.
      destruct (Qltb bid_amount 1) eqn:L3.
      * apply Qltb_true in L3. cbn. split; [discriminate | intros [_ [H _]]; lra].
      * apply Qltb_false in L3. cbn. split; [intros _ | reflexivity].
        repeat split; assumption.
Qed.

Lemma validation_accepts_iff_witness :
  let entry n := PDict [(lit "status", PStr (lit "active"));
                        (lit "currentBid", PInt n)] in
  let data := PDict [(lit "products", PList [entry 100%Z; entry 250%Z])] in
  is_valid (_validate_bid_amount (Some (HttpResponse 200 (Some data)))
              (inject_Z 300)) = true
  <-> (forall a q,
          In a [[(lit "status", PStr (lit "active")); (lit "currentBid", PInt 100)];
                [(lit "status", PStr (lit "active")); (lit "currentBid", PInt 250)]] ->
          number (currentBid a) = Some q -> q < inject_Z 300)
      /\ 1 <= inject_Z 300 /\ inject_Z 300 <= 10000000.
Proof.
  intros entry data.
  apply (validation_accepts_iff data [entry 100%Z; entry 250%Z]);
    [reflexivity | reflexivity | discriminate | repeat constructor; discriminate].
Defined.

End Validation.

(** ** From the analysis to the reply *)

Section Reply.

Local Open Scope Q_scope.

Lemma extract_total (text : str) :
  exists r, _extract_bid_amount text = Returns r /\ in_range r.
Proof.
  unfold _extract_bid_amount.
  destruct (extract_direct_ok text Pat.bidding bidding_patterns_capture)
    as [r1 [-> H1]]. cbn [bind].
  destruct r1 as [a |]; [exists (Some a); split; [reflexivity | exact H1] |].
  destruct (extract_currency_ok text Pat.currency) as [r2 [-> H2]]. cbn [bind].
  destruct r2 as [a |]; [exists (Some a); split; [reflexivity | exact H2] |].
  apply extract_number_ok.
Qed.

Lemma nlp_cases
  (self : processor) (get : option http_response) (user_input : str)
  (a : command_result) :
  process_command self user_input = Returns a ->
  exists r,
    process_with_advanced_nlp self get user_input = Returns r
    /\ nlp_intent r = intent a /\ nlp_method r = method a
    /\ nlp_case get user_input a r.
Proof.
  intros Ha. unfold process_with_advanced_nlp. rewrite Ha. cbn [bind].
  destruct (Str.eqb (intent a) (lit "bidding")) eqn:Eb.
  { apply str_eqb_eq in Eb.
    destruct (extract_total user_input) as [o [Ho Hr]]. rewrite Ho. cbn [bind].
    destruct o as [amount |].
    - cbn [in_range] in Hr.
      assert (Z : Qeq_bool amount 0 = false).
      { destruct (Qeq_bool amount 0) eqn:Z; [| reflexivity].
        apply Qeq_bool_iff in Z. lra. }
      rewrite Z.
      destruct (is_valid (_validate_bid_amount get amount)) eqn:V;
        eexists; (split; [reflexivity |]); (split; [reflexivity |]);
        (split; [reflexivity |]).
      + apply nlp_bid_valid with (amount := amount); auto.
      + apply nlp_bid_invalid with (amount := amount); auto.
    - eexists. do 3 (split; [reflexivity |]).
      apply nlp_bid_missing; auto. }
  assert (Nb : intent a <> lit "bidding").
  { intros C. rewrite C in Eb. discriminate Eb. }
  destruct (Str.eqb (intent a) (lit "listing")) eqn:E1.
  { apply str_eqb_eq in E1. eexists. do 3 (split; [reflexivity |]).
    apply nlp_other; auto. rewrite E1. cbn. tauto. }
  destruct (Str.eqb (intent a) (lit "status")) eqn:E2.
  { apply str_eqb_eq in E2. eexists. do 3 (split; [reflexivity |]).
    apply nlp_other; auto. rewrite E2. cbn. tauto. }
  destruct (Str.eqb (intent a) (lit "help")) eqn:E3.
  { apply str_eqb_eq in E3. eexists. do 3 (split; [reflexivity |]).
    apply nlp_other; auto. rewrite E3. cbn. tauto. }
  destruct (Str.eqb (intent a) (lit "greeting")) eqn:E4.
  { apply str_eqb_eq in E4. eexists. do 3 (split; [reflexivity |]).
    apply nlp_other; auto. rewrite E4. cbn. tauto. }
  destruct (Str.eqb (intent a) (lit "insights")) eqn:E5.
  { apply str_eqb_eq in E5. eexists. do 3 (split; [reflexivity |]).
    apply nlp_other; auto. rewrite E5. cbn. tauto. }
  eexists. do 3 (split; [reflexivity |]).
  apply nlp_unknown; auto.
  unfold registry_intents. cbn [map In].
  intros [C | [C | [C | [C | [C | [C | []]]]]]]; rewrite <- C in *;
    first [ rewrite str_eqb_refl in Eb; discriminate Eb
          | rewrite str_eqb_refl in E1; discriminate E1
          | rewrite str_eqb_refl in E2; discriminate E2
          | rewrite str_eqb_refl in E3; discriminate E3
          | rewrite str_eqb_refl in E4; discriminate E4
          | rewrite str_eqb_refl in E5; discriminate E5 ].
Qed.

(** The confidence of an analysis, by exit. *)
Lemma process_command_levels (self : processor) (input_text : str) :
  exists a, process_command self input_text = Returns a
            /\ ((intent a = lit "unknown" /\ confidence a = 0.1)
                \/ (In (intent a) registry_intents
                    /\ 0.7 < confidence a /\ confidence a <= 0.99)).
Proof.
  unfold process_command.
  set (text := _preprocess_text input_text).
  set (context := make_context self).
  destruct (detect_bidding_spec context text Pat.bidding bidding_patterns_capture)
    as [o [-> Ho]].
  cbn [bind].
  destruct o as [r |].
  { exists r. split; [reflexivity |]. right.
    destruct Ho as [b [_ ->]]. cbn [intent confidence].
    pose proof (bid_confidence_bounds b).
    split; [unfold registry_intents; cbn; tauto | split; lra]. }
  rewrite best_pattern_first.
  destruct (find (candidate text) command_patterns) as [[i config] |] eqn:F.
  - cbn [fst].
    apply find_some in F. destruct F as [F _]. apply (in_map fst) in F.
    destruct i as [| c i]; [exfalso; revert F; differ |].
    cbn [truthy]. eexists. split; [reflexivity |]. right.
    cbn [intent confidence]. split; [exact F | split; lra].
  - cbn [truthy].
    pose proof (fuzzy_match_spec self text) as Fz.
    destruct (_fuzzy_match_intent self text) as [fi fc].
    destruct (Qltb 0.7 fc) eqn:L.
    + eexists. split; [reflexivity |]. right.
      destruct Fz as [Fz | [Fi Fc]]; [injection Fz as -> ->; discriminate L |].
      apply Qltb_true in L. cbn [intent confidence fst snd] in *.
      split; [exact Fi | split; [exact L | exact Fc]].
    + destruct (find _ keyword_matches) as [[k i] |] eqn:K.
      * eexists. split; [reflexivity |]. right.
        apply keyword_find_spec in K. cbn [intent confidence].
        split; [| split; lra].
        simpl in K. unfold registry_intents. simpl. tauto.
      * eexists. split; [reflexivity |]. left. split; reflexivity.
Qed.

Lemma reason_too_high (get : option http_response) (bid_amount : Q) :
  reason (_validate_bid_amount get bid_amount)
  = [Text "Bid amount too high (maximum $10,000,000)"] ->
  10000000 < bid_amount.
Proof.
  unfold _validate_bid_amount, validate_response.
  destruct get as [response |]; [| discriminate].
  destruct (status_code response =? 200)%Z; [| discriminate].
  destruct (json response) as [data |]; [| discriminate].
  destruct (iterate (auctions_of data)) as [auctions |]; [| discriminate].
  destruct (active_auctions auctions) as [[| a active] |]; try discriminate.
  destruct (max_number _) as [highest |]; [| discriminate].
  destruct (Qleb bid_amount _); [discriminate |].
  destruct (Qltb 10000000 bid_amount) eqn:L;
    [intros _; apply Qltb_true; exact L |].
  destruct (Qltb bid_amount 1); discriminate.
Qed.

End Reply.

(** X12.  [process_command] leaves a gap in its confidences: a command
    that was not understood is reported as "unknown" with confidence 0.1,
    and every other result names an intent of the registry with a
    confidence above 0.7 (and at most 0.99).  No result has a confidence
    between 0.1 and 0.7. *)
Theorem confidence_gap (self : processor) (input_text : str) :
  exists a,
    process_command self input_text = Returns a
    /\ ((intent a = lit "unknown" /\ confidence a = 0.1%Q)
        \/ (intent a <> lit "unknown" /\ In (intent a) registry_intents
            /\ (0.7 < confidence a)%Q /\ (confidence a <= 0.99)%Q)).
Proof.
  destruct (process_command_levels self input_text) as [a [Ha H]].
  exists a. split; [exact Ha |].
  destruct H as [H | [Hi Hc]]; [left; exact H | right].
  split; [| split; assumption].
  intros C. rewrite C in Hi. revert Hi. differ.
Qed.

(** X13.  [process_with_advanced_nlp] always returns.  Its result keeps
    the intent and the method of [process_command], and its confidence is
    between 0.2 and 0.99, at most 0.1 above the confidence of the
    analysis.  A command that was not understood is reported with
    confidence 0.2, twice the 0.1 of the analysis, and without amount;
    with an intent other than bidding the confidence of the analysis is
    kept. *)
Theorem nlp_confidence_range
  (self : processor) (get : option http_response) (user_input : str) :
  exists a r,
    process_command self user_input = Returns a
    /\ process_with_advanced_nlp self get user_input = Returns r
    /\ nlp_intent r = intent a /\ nlp_method r = method a
    /\ (0.2 <= nlp_confidence r)%Q /\ (nlp_confidence r <= 0.99)%Q
    /\ (nlp_confidence r <= confidence a + 0.1)%Q
    /\ (intent a = lit "unknown" ->
        nlp_confidence r = 0.2%Q /\ nlp_bid_amount r = None)
    /\ (intent a <> lit "unknown" -> intent a <> lit "bidding" ->
        nlp_confidence r = confidence a /\ nlp_bid_amount r = None).
Proof.
  destruct (process_command_levels self user_input) as [a [Ha L]].
  destruct (nlp_cases self get user_input a Ha) as [r [Hr [Hi [Hm C]]]].
  exists a, r. do 4 (split; [assumption |]).
  assert (B : (0.1 <= confidence a)%Q /\ (confidence a <= 0.99)%Q).
  { destruct L as [[_ ->] | [_ [? ?]]]; split; lra. }
  assert (NU : intent a = lit "bidding" -> intent a <> lit "unknown").
  { intros E U. rewrite U in E. revert E. differ. }
  assert (G : intent a <> lit "unknown" -> (0.7 < confidence a)%Q).
  { destruct L as [[U _] | [_ [? _]]]; [intros N; contradiction | auto]. }
  destruct C as [amount Hb _ Ho _ _ Hc | amount Hb _ Ho _ _ Hc
                 | Hb _ Ho _ Hc | Hb Ho _ Hc | Hb Ho _ Hc].
  - specialize (G (NU Hb)). rewrite Hc.
    pose proof (pymin_le_l (confidence a + 0.1) 0.99).
    pose proof (pymin_le_r (confidence a + 0.1) 0.99).
    assert ((0.2 <= pymin (confidence a + 0.1) 0.99)%Q)
      by (apply pymin_ge; lra).
    split; [lra | split; [lra | split; [lra | split]]].
    + intros U. destruct (NU Hb U).
    + intros _ N. contradiction.
  - specialize (G (NU Hb)). rewrite Hc.
    split; [lra | split; [lra | split; [lra | split]]].
    + intros U. destruct (NU Hb U).
    + intros _ N. contradiction.
  - specialize (G (NU Hb)). rewrite Hc.
    split; [lra | split; [lra | split; [lra | split]]].
    + intros U. destruct (NU Hb U).
    + intros _ N. contradiction.
  - assert (N : intent a <> lit "unknown").
    { intros U. rewrite U in Hb. revert Hb. differ. }
    specialize (G N). rewrite Hc.
    split; [lra | split; [lra | split; [lra | split]]].
    + intros U. contradiction.
    + intros _ _. split; [reflexivity | exact Ho].
  - destruct L as [[U Hu] | [Hreg _]]; [| contradiction].
    rewrite Hc, Hu.
    split; [lra | split; [lra | split; [lra | split]]].
    + intros _. split; [reflexivity | exact Ho].
    + intros N. contradiction.
Qed.

(** X14.  The amount a reply of [process_with_advanced_nlp] carries is the
    amount [_extract_bid_amount] read in the command, the command was
    understood as a bid, the amount is between 0.01 and 10,000,000, and
    the validation carried is the one of this amount.  The validation can
    therefore never give the reason "Bid amount too high": the extraction
    has already dropped every amount above the maximum. *)
Theorem nlp_bid_amount_checked
  (self : processor) (get : option http_response) (user_input : str)
  (r : nlp_result) (amount : Q) :
  process_with_advanced_nlp self get user_input = Returns r ->
  nlp_bid_amount r = Some amount ->
  nlp_intent r = lit "bidding"
  /\ _extract_bid_amount user_input = Returns (Some amount)
  /\ (0.01 <= amount)%Q /\ (amount <= 10000000)%Q
  /\ nlp_validation r = _validate_bid_amount get amount
  /\ reason (nlp_validation r)
     <> [Text "Bid amount too high (maximum $10,000,000)"].
Proof.
  intros Hr Hb.
  destruct (process_command_levels self user_input) as [a [Ha _]].
  destruct (nlp_cases self get user_input a Ha) as [r' [Hr' [Hi [_ C]]]].
  rewrite Hr in Hr'. injection Hr' as <-.
  assert (K : forall amount',
             intent a = lit "bidding" ->
             _extract_bid_amount user_input = Returns (Some amount') ->
             nlp_bid_amount r = Some amount' ->
             nlp_validation r = _validate_bid_amount get amount' ->
             nlp_intent r = lit "bidding"
             /\ _extract_bid_amount user_input = Returns (Some amount)
             /\ (0.01 <= amount)%Q /\ (amount <= 10000000)%Q
             /\ nlp_validation r = _validate_bid_amount get amount
             /\ reason (nlp_validation r)
                <> [Text "Bid amount too high (maximum $10,000,000)"]).
  { intros amount' Hbid He Ho Hv.
    rewrite Hb in Ho. injection Ho as <-.
    destruct (extract_total user_input) as [o [Eo Ro]].
    rewrite He in Eo. injection Eo as <-. cbn [in_range] in Ro.
    split; [rewrite Hi; exact Hbid |].
    split; [exact He |].
    split; [lra |]. split; [lra |].
    split; [exact Hv |].
    rewrite Hv. intros T. apply reason_too_high in T. lra. }
  destruct C as [amount' Hbid He Ho Hv _ _ | amount' Hbid He Ho Hv _ _
                 | _ _ Ho _ _ | _ Ho _ _ | _ Ho _ _];
    try (rewrite Hb in Ho; discriminate Ho);
    apply (K amount'); assumption.
Qed.

Lemma nlp_bid_amount_checked_witness :
  let get := Some (HttpResponse 503 None) in
  let user_input := lit "I want to bid 250 dollars" in
  exists r,
    process_with_advanced_nlp init get user_input = Returns r
    /\ nlp_bid_amount r = Some 250%Q
    /\ nlp_intent r = lit "bidding"
    /\ _extract_bid_amount user_input = Returns (Some 250%Q)
    /\ (0.01 <= 250)%Q /\ (250 <= 10000000)%Q
    /\ nlp_validation r = _validate_bid_amount get 250
    /\ reason (nlp_validation r)
       <> [Text "Bid amount too high (maximum $10,000,000)"].
Proof.
  intros get user_input. eexists.
  split; [vm_compute; reflexivity |].
  split; [reflexivity |].
  apply (nlp_bid_amount_checked init get user_input);
    [vm_compute; reflexivity | reflexivity].
Defined.

(** X15.  For a command understood as a bid, the reply of
    [process_with_advanced_nlp] has a confidence above 0.8 exactly when an
    amount was read and its validation passed.  A bid without amount or
    with a rejected amount is reported with a confidence below 0.7. *)
Theorem nlp_confident_iff_valid_bid
  (self : processor) (get : option http_response) (user_input : str)
  (r : nlp_result) :
  process_with_advanced_nlp self get user_input = Returns r ->
  nlp_intent r = lit "bidding" ->
  ((0.8 < nlp_confidence r)%Q
   <-> nlp_bid_amount r <> None /\ is_valid (nlp_validation r) = true)
  /\ ((0.8 < nlp_confidence r)%Q \/ (nlp_confidence r < 0.7)%Q).
Proof.
  intros Hr Hbid.
  destruct (process_command_levels self user_input) as [a [Ha L]].
  destruct (nlp_cases self get user_input a Ha) as [r' [Hr' [Hi [_ C]]]].
  rewrite Hr in Hr'. injection Hr' as <-.
  rewrite Hi in Hbid.
  assert (G : (0.7 < confidence a)%Q /\ (confidence a <= 0.99)%Q).
  { destruct L as [[U _] | [_ ?]]; [| assumption].
    rewrite U in Hbid. exfalso. revert Hbid. differ. }
  destruct C as [amount _ _ Ho Hv V Hc | amount _ _ Ho Hv V Hc
                 | _ _ Ho _ Hc | Hb _ _ _ | Hb _ _ _].
  - assert ((0.8 < pymin (confidence a + 0.1) 0.99)%Q).
    { unfold pymin. destruct (Qltb 0.99 (confidence a + 0.1)); lra. }
    rewrite Hc, Ho, Hv, V.
    split; [| left; assumption].
    split; [intros _; split; [discriminate | reflexivity] | intros _; assumption].
  - rewrite Hc, Hv, V.
    split; [| right; lra].
    split; [intros H; exfalso; lra | intros [_ H]; discriminate H].
  - rewrite Hc, Ho.
    split; [| right; lra].
    split; [intros H; exfalso; lra | intros [H _]; contradiction].
  - exfalso. rewrite Hbid in Hb. revert Hb. differ.
  - exfalso. apply Hb. rewrite Hbid. unfold registry_intents. cbn. tauto.
Qed.

Lemma nlp_confident_iff_valid_bid_witness :
  let get := Some (HttpResponse 200 (Some (PList []))) in
  let user_input := lit "I want to bid 250 dollars" in
  exists r,
    process_with_advanced_nlp init get user_input = Returns r
    /\ nlp_intent r = lit "bidding"
    /\ ((0.8 < nlp_confidence r)%Q
        <-> nlp_bid_amount r <> None /\ is_valid (nlp_validation r) = true)
    /\ ((0.8 < nlp_confidence r)%Q \/ (nlp_confidence r < 0.7)%Q).
Proof.
  intros get user_input. eexists.
  split; [vm_compute; reflexivity |].
  split; [reflexivity |].
  apply (nlp_confident_iff_valid_bid init get user_input);
    [vm_compute; reflexivity | reflexivity].
Defined.

(** ** Placing a bid *)

Section Placing.

Local Open Scope Q_scope.

Lemma active_auctions_spec (auctions : list pyval) :
  forall active,
    active_auctions auctions = Some active ->
    Forall (fun a => status_active a = true /\ In (PDict a) auctions) active.
Proof.
  induction auctions as [| v auctions IH]; cbn [active_auctions]; intros active H.
  - injection H as <-. constructor.
  - destruct v as [| | | | | | a]; try discriminate H.
    destruct (active_auctions auctions) as [rest |]; [| discriminate H].
    specialize (IH rest eq_refl).
    assert (R : Forall (fun a0 => status_active a0 = true
                                  /\ In (PDict a0) (PDict a :: auctions)) rest).
    { eapply Forall_impl; [| exact IH]. cbn. intros ? [? ?]. auto. }
    destruct (status_active a) eqn:S; injection H as <-; [| exact R].
    constructor; [| exact R]. split; [exact S | left; reflexivity].
Qed.

Lemma select_target_spec (item_lower : str) (active : list (dict pyval))
  (target_auction t : dict pyval) :
  select_target item_lower active target_auction = Some t ->
  t = target_auction \/ In t active.
Proof.
  induction active as [| a active IH]; cbn [select_target]; intros H.
  - injection H as <-. left. reflexivity.
  - destruct (lower_of _); [| discriminate H].
    destruct (lower_of _); [| discriminate H].
    destruct (lower_of _); [| discriminate H].
    destruct (_ || _).
    + injection H as <-. right. left. reflexivity.
    + destruct (IH H) as [E | E]; [left; exact E | right; right; exact E].
Qed.

(** What [max] returned bounds every value. *)
Lemma max_from_all (values : list pyval) :
  forall best best_q v,
    number best = Some best_q ->
    max_from best best_q values = Some v ->
    exists q, number v = Some q /\ best_q <= q
              /\ Forall (fun w => exists wq, number w = Some wq /\ wq <= q) values.
Proof.
  induction values as [| w values IH]; cbn [max_from]; intros best bq v Hb H.
  - injection H as <-. exists bq. split; [exact Hb |]. split; [lra | constructor].
  - destruct (number w) as [wq |] eqn:Ew; [| discriminate H].
    destruct (Qltb bq wq) eqn:L.
    + apply Qltb_true in L.
      destruct (IH w wq v Ew H) as [q [Nv [Lq Hall]]].
      exists q. split; [exact Nv |]. split; [lra |].
      constructor; [exists wq; split; [exact Ew | exact Lq] | exact Hall].
    + apply Qltb_false in L.
      destruct (IH best bq v Hb H) as [q [Nv [Lq Hall]]].
      exists q. split; [exact Nv |]. split; [exact Lq |].
      constructor; [exists wq; split; [exact Ew | lra] | exact Hall].
Qed.

Lemma max_number_first (w v : pyval) (values : list pyval) :
  max_number (w :: values) = Some v ->
  exists wq q, number w = Some wq /\ number v = Some q /\ wq <= q.
Proof.
  cbn [max_number]. destruct (number w) as [wq |] eqn:Ew; [| discriminate].
  intros H. destruct (max_from_all values w wq v Ew H) as [q [Nv [Lq _]]].
  exists wq, q. auto.
Qed.

End Placing.

(** X16.  [_place_bid] sends a bid only above the current bid of the
    auction it is sent for.  When the request that places the bid is made,
    the auctions were received with status 200, the target is one of the
    auctions received and is active, its current bid is a number strictly
    below the amount, and the data sent name this auction and this amount.
    Without an item named, the target is the first active auction. *)
Theorem place_bid_posts_above_current
  (get : option http_response) (now : str)
  (post : dict pyval -> option bid_response)
  (bid_amount : Q) (auction_item : option str) (user_id : str)
  (sent : dict pyval) :
  fst (_place_bid get now post bid_amount auction_item user_id) = Some sent ->
  exists received body auctions active target_auction current,
    get = Some received
    /\ status_code received = 200%Z
    /\ json received = Some body
    /\ iterate (auctions_of body) = Some auctions
    /\ active_auctions auctions = Some active
    /\ In target_auction active
    /\ In (PDict target_auction) auctions
    /\ status_active target_auction = true
    /\ number (currentBid target_auction) = Some current
    /\ (current < bid_amount)%Q
    /\ sent = bid_data target_auction bid_amount user_id now
    /\ dict_get (lit "bidAmount") sent = Some (PFloat bid_amount)
    /\ (truthy auction_item = false -> hd_error active = Some target_auction).
Proof.
  unfold _place_bid.
  destruct get as [received |]; [| discriminate].
  destruct (status_code received =? 200)%Z eqn:S; cbn [negb]; [| discriminate].
  apply Z.eqb_eq in S.
  destruct (json received) as [body |] eqn:J; [| discriminate].
  destruct (iterate (auctions_of body)) as [auctions |] eqn:I; [| discriminate].
  destruct (active_auctions auctions) as [[| first rest] |] eqn:A;
    try discriminate.
  pose proof (active_auctions_spec auctions _ A) as Hact.
  rewrite Forall_forall in Hact.
  destruct (match auction_item with
            | Some (c :: item) =>
                select_target (Str.lower (c :: item)) (first :: rest) first
            | _ => Some first
            end) as [target_auction |] eqn:T; [| discriminate].
  destruct (number (currentBid target_auction)) as [current |] eqn:N;
    [| discriminate].
  destruct (Qleb bid_amount current) eqn:L; [discriminate |].
  cbn [fst]. intros H. injection H as <-.
  assert (Hin : In target_auction (first :: rest)).
  { destruct auction_item as [[| c item] |].
    - injection T as <-. left. reflexivity.
    - apply select_target_spec in T. destruct T as [-> | T];
        [left; reflexivity | exact T].
    - injection T as <-. left. reflexivity. }
  destruct (Hact target_auction Hin) as [Hs Hd].
  exists received, body, auctions, (first :: rest), target_auction, current.
  do 9 (split; [auto |]).
  split.
  { apply Qnot_le_lt. intros C. apply Qle_bool_iff in C.
    unfold Qleb in L. congruence. }
  split; [reflexivity |]. split; [reflexivity |].
  intros F. destruct auction_item as [[| c item] |];
    [| discriminate F |]; injection T as <-; reflexivity.
Qed.

Lemma place_bid_posts_above_current_witness :
  let received :=
    HttpResponse 200
      (Some (PList [PDict [(lit "_id", PStr (lit "a1"));
                           (lit "status", PStr (lit "active"));
                           (lit "currentBid", PInt 100)]])) in
  let post := fun _ : dict pyval => Some (BidResponse 200 true None) in
  exists sent,
    fst (_place_bid (Some received) (lit "t0") post 150%Q None (lit "anonymous"))
    = Some sent
    /\ exists received' body auctions active target_auction current,
         Some received = Some received'
         /\ status_code received' = 200%Z
         /\ json received' = Some body
         /\ iterate (auctions_of body) = Some auctions
         /\ active_auctions auctions = Some active
         /\ In target_auction active
         /\ In (PDict target_auction) auctions
         /\ status_active target_auction = true
         /\ number (currentBid target_auction) = Some current
         /\ (current < 150)%Q
         /\ sent = bid_data target_auction 150%Q (lit "anonymous") (lit "t0")
         /\ dict_get (lit "bidAmount") sent = Some (PFloat 150%Q)
         /\ (truthy None = false -> hd_error active = Some target_auction).
Proof.
  intros received post. eexists. split; [reflexivity |].
  apply (place_bid_posts_above_current (Some received) (lit "t0") post 150%Q
           None (lit "anonymous")).
  reflexivity.
Defined.

(** X17.  [_place_bid] reports success exactly when the request that
    places the bid was made and answered with status 200; a result
    without success after a request was made does not tell whether the
    server took the bid. *)
Theorem place_bid_success_iff
  (get : option http_response) (now : str)
  (post : dict pyval -> option bid_response)
  (bid_amount : Q) (auction_item : option str) (user_id : str) :
  success (snd (_place_bid get now post bid_amount auction_item user_id)) = true
  <-> exists sent answer,
        fst (_place_bid get now post bid_amount auction_item user_id) = Some sent
        /\ post sent = Some answer
        /\ bid_status_code answer = 200%Z.
Proof.
  unfold _place_bid.
  destruct get as [received |];
    [| cbn; split; [discriminate | intros [? [? [H _]]]; discriminate H]].
  destruct (status_code received =? 200)%Z; cbn [negb];
    [| cbn; split; [discriminate | intros [? [? [H _]]]; discriminate H]].
  destruct (json received) as [body |];
    [| cbn; split; [discriminate | intros [? [? [H _]]]; discriminate H]].
  destruct (iterate (auctions_of body)) as [auctions |];
    [| cbn; split; [discriminate | intros [? [? [H _]]]; discriminate H]].
  destruct (active_auctions auctions) as [[| first rest] |];
    try (cbn; split; [discriminate | intros [? [? [H _]]]; discriminate H]).
  destruct (match auction_item with
            | Some (c :: item) =>
                select_target (Str.lower (c :: item)) (first :: rest) first
            | _ => Some first
            end) as [target_auction |];
    [| cbn; split; [discriminate | intros [? [? [H _]]]; discriminate H]].
  destruct (number (currentBid target_auction)) as [current |];
    [| cbn; split; [discriminate | intros [? [? [H _]]]; discriminate H]].
  destruct (Qleb bid_amount current);
    [cbn; split; [discriminate | intros [? [? [H _]]]; discriminate H] |].
  cbn [fst snd].
  set (sent := bid_data target_auction bid_amount user_id now).
  unfold placed.
  destruct (post sent) as [answer |] eqn:P.
  - destruct (bid_status_code answer =? 200)%Z eqn:S.
    + cbn [success]. split; [intros _ | reflexivity].
      exists sent, answer. apply Z.eqb_eq in S. auto.
    + assert (F : success
                    match (if bid_content answer then bid_json answer
                           else Some (PDict [])) with
                    | Some (PDict error_data) =>
                        ActionResult
                          [Text "I couldn't place your bid: ";
                           Shown (get_or (lit "message")
                                    (PStr (lit "Unknown error occurred"))
                                    error_data)]
                          false
                          (Some (texts ["Try a higher amount";
                                        "Check auction status";
                                        "Verify auction is still active"]%string))
                          false []
                    | _ => place_failed
                    end = false).
      { destruct (if bid_content answer then bid_json answer
                  else Some (PDict [])) as [[| | | | | |] |]; reflexivity. }
      cbv zeta. rewrite F. split; [discriminate |].
      intros [sent' [answer' [H1 [H2 H3]]]].
      injection H1 as <-. rewrite P in H2. injection H2 as <-.
      apply Z.eqb_neq in S. contradiction.
  - cbn. split; [discriminate |].
    intros [sent' [answer' [H1 [H2 _]]]].
    injection H1 as <-. rewrite P in H2. discriminate H2.
Qed.

(** X18.  A bid that [_validate_bid_amount] found valid against the
    auctions received is not turned down by [_place_bid] on the same
    auctions: without an item named, the bid is sent for the first active
    auction. *)
Theorem valid_bid_is_posted
  (received : http_response) (now : str)
  (post : dict pyval -> option bid_response)
  (bid_amount : Q) (auction_item : option str) (user_id : str) :
  reason (_validate_bid_amount (Some received) bid_amount)
  = [Text "Valid bid amount"] ->
  truthy auction_item = false ->
  exists body auctions first rest,
    json received = Some body
    /\ iterate (auctions_of body) = Some auctions
    /\ active_auctions auctions = Some (first :: rest)
    /\ fst (_place_bid (Some received) now post bid_amount auction_item user_id)
       = Some (bid_data first bid_amount user_id now).
Proof.
  unfold _validate_bid_amount, validate_response, _place_bid.
  destruct (status_code received =? 200)%Z; cbn [negb]; [| discriminate].
  destruct (json received) as [body |] eqn:J; [| discriminate].
  destruct (iterate (auctions_of body)) as [auctions |] eqn:I; [| discriminate].
  destruct (active_auctions auctions) as [[| first rest] |] eqn:A;
    try discriminate.
  cbn [map].
  destruct (max_number (currentBid first :: map currentBid rest))
    as [highest |] eqn:M; [| discriminate].
  destruct (max_number_first _ _ _ M) as [fq [hq [Nf [Nh Le]]]].
  rewrite Nh.
  destruct (Qleb bid_amount hq) eqn:L; [discriminate |].
  intros _ F.
  exists body, auctions, first, rest.
  split; [reflexivity |]. split; [exact I |]. split; [exact A |].
  assert (T : match auction_item with
              | Some (c :: item) =>
                  select_target (Str.lower (c :: item)) (first :: rest) first
              | _ => Some first
              end = Some first).
  { destruct auction_item as [[| c item] |];
      [reflexivity | discriminate F | reflexivity]. }
  rewrite T, Nf.
  assert (L' : Qleb bid_amount fq = false).
  { unfold Qleb in *. destruct (Qle_bool bid_amount fq) eqn:C; [| reflexivity].
    apply Qle_bool_iff in C.
    assert (C' : Qle_bool bid_amount hq = true) by (apply Qle_bool_iff; lra).
    congruence. }
  rewrite L'. reflexivity.
Qed.

Lemma valid_bid_is_posted_witness :
  let received :=
    HttpResponse 200
      (Some (PList [PDict [(lit "status", PStr (lit "active"));
                           (lit "currentBid", PInt 100)];
                    PDict [(lit "status", PStr (lit "active"));
                           (lit "currentBid", PInt 120)]])) in
  let post := fun _ : dict pyval => None in
  reason (_validate_bid_amount (Some received) 150%Q) = [Text "Valid bid amount"]
  /\ truthy None = false
  /\ exists body auctions first rest,
       json received = Some body
       /\ iterate (auctions_of body) = Some auctions
       /\ active_auctions auctions = Some (first :: rest)
       /\ fst (_place_bid (Some received) (lit "t0") post 150%Q None
                 (lit "anonymous"))
          = Some (bid_data first 150%Q (lit "anonymous") (lit "t0")).
Proof.
  intros received post.
  split; [reflexivity |]. split; [reflexivity |].
  apply (valid_bid_is_posted received (lit "t0") post 150%Q None
           (lit "anonymous")); reflexivity.
Defined.

(** ** The telephone agent *)

Section Telephone.

Local Open Scope Q_scope.

Lemma twilio_patterns :
  forallb captures Twilio.patterns = true
  /\ forallb needs_digit Twilio.patterns = true.
Proof. split; reflexivity. Qed.

Lemma lower_digitless (text : str) : digitless text -> digitless (Str.lower text).
Proof.
  unfold digitless, Str.lower. intros D. apply Forall_map.
  eapply Forall_impl; [| exact D]. apply lower_digit.
Qed.

Lemma extract_from_spec (text : str) (pats : list regex) :
  forallb captures pats = true ->
  exists r,
    Twilio.extract_from pats text = Returns r
    /\ match r with
       | Some amount => 1 <= amount /\ amount <= 1000000
       | None => True
       end.
Proof.
  induction pats as [| p pats IH]; cbn [Twilio.extract_from forallb]; intros Hc.
  - exists None. split; [reflexivity | exact I].
  - apply andb_true_iff in Hc. destruct Hc as [Hp Hc]. specialize (IH Hc).
    destruct (search false p (Str.lower text)) as [m |] eqn:E; [| exact IH].
    destruct (search_captures _ _ _ _ Hp E) as [g ->].
    destruct (float_of_str g) as [[q ->] | ->]; [| exact IH].
    destruct (Qleb 1 q && Qleb q 1000000) eqn:R; [| exact IH].
    exists (Some q). split; [reflexivity |].
    apply andb_true_iff in R. destruct R as [R1 R2].
    unfold Qleb in *. apply Qle_bool_iff in R1. apply Qle_bool_iff in R2. auto.
Qed.

Lemma extract_from_digitless (text : str) (pats : list regex) :
  forallb needs_digit pats = true -> digitless text ->
  Twilio.extract_from pats text = Returns None.
Proof.
  intros N D. apply lower_digitless in D.
  induction pats as [| p pats IH]; [reflexivity |].
  cbn [forallb] in N. apply andb_true_iff in N. destruct N as [Np N].
  cbn [Twilio.extract_from].
  rewrite (search_digitless false p (Str.lower text) Np D). auto.
Qed.

Lemma str_eqb_neq (a b : str) : a <> b -> Str.eqb a b = false.
Proof.
  intros N. destruct (Str.eqb a b) eqn:E; [| reflexivity].
  apply str_eqb_eq in E. contradiction.
Qed.

End Telephone.

(** X19.  [extract_bid_amount] of the telephone agent always returns; an
    amount it returns is between 1 and 1,000,000, a narrower range than
    the 0.01 to 10,000,000 of the processor; and a text without a digit
    has no amount. *)
Theorem twilio_extract_bid_amount_range (text : str) :
  exists r,
    Twilio.extract_bid_amount text = Returns r
    /\ match r with
       | Some amount => (1 <= amount)%Q /\ (amount <= 1000000)%Q
       | None => True
       end
    /\ (digitless text -> r = None).
Proof.
  destruct twilio_patterns as [C N].
  destruct (extract_from_spec text Twilio.patterns C) as [r [Hr R]].
  exists r. split; [exact Hr |]. split; [exact R |].
  intros D. unfold Twilio.extract_bid_amount in Hr.
  rewrite (extract_from_digitless text Twilio.patterns N D) in Hr.
  injection Hr as <-. reflexivity.
Qed.

(** X20.  What [store_session_data] stores for a caller under a key is
    what [get_session_data] returns for this caller and key, and storing
    changes nothing for another caller or another key. *)
Theorem session_data_round_trip
  (session_data : Twilio.sessions) (caller_phone key : str) (value : pyval) :
  let stored := Twilio.store_session_data session_data caller_phone key value in
  (forall default,
      Twilio.get_session_data stored caller_phone key default = value)
  /\ (forall caller_phone' key' default,
         caller_phone' <> caller_phone \/ key' <> key ->
         Twilio.get_session_data stored caller_phone' key' default
         = Twilio.get_session_data session_data caller_phone' key' default).
Proof.
  cbv zeta. unfold Twilio.store_session_data, Twilio.get_session_data, get_or.
  unfold Twilio.sessions, dict in *.
  split.
  - intros default. rewrite dict_get_set, str_eqb_refl.
    rewrite dict_get_set, str_eqb_refl. reflexivity.
  - intros caller_phone' key' default Hne.
    rewrite dict_get_set.
    destruct (Str.eqb caller_phone' caller_phone) eqn:E.
    + apply str_eqb_eq in E. subst caller_phone'.
      destruct Hne as [Hne | Hne]; [contradiction |].
      rewrite dict_get_set, (str_eqb_neq _ _ Hne).
      destruct (dict_get caller_phone session_data) as [entry |] eqn:G;
        rewrite ?dict_get_set, ?str_eqb_refl, ?G; reflexivity.
    + destruct (dict_get caller_phone session_data) as [entry |] eqn:G;
        rewrite ?dict_get_set, ?E; reflexivity.
Qed.

(** X21.  To an utterance that is empty, or made of whitespace and
    punctuation only, [process_with_advanced_nlp] replies that it did not
    understand: intent "unknown" with confidence 0.2 and no amount,
    whatever the state and without asking for the auctions. *)
Theorem blank_reply_is_unknown
  (self : processor) (get : option http_response) (x : str) :
  blank x ->
  exists r,
    process_with_advanced_nlp self get x = Returns r
    /\ nlp_intent r = lit "unknown"
    /\ nlp_method r = lit "no_match"
    /\ nlp_confidence r = 0.2%Q
    /\ nlp_bid_amount r = None
    /\ nlp_validation r = no_validation
    /\ nlp_response r
       = [Text "I didn't understand that command with sufficient confidence. Try saying 'help' to see what I can do."].
Proof.
  intros B.
  assert (H : process_command self x
              = Returns (CommandResult (lit "unknown") 0.1 None
                           (make_context self) (lit "no_match") false)).
  { unfold process_command. rewrite (preprocess_blank x B).
    vm_compute. reflexivity. }
  unfold process_with_advanced_nlp. rewrite H. cbn [bind intent method].
  eexists. split; [reflexivity |]. repeat split.
Qed.

Lemma blank_reply_is_unknown_witness :
  blank (lit " ?!  -- ")
  /\ exists r,
       process_with_advanced_nlp init None (lit " ?!  -- ") = Returns r
       /\ nlp_intent r = lit "unknown"
       /\ nlp_method r = lit "no_match"
       /\ nlp_confidence r = 0.2%Q
       /\ nlp_bid_amount r = None
       /\ nlp_validation r = no_validation
       /\ nlp_response r
          = [Text "I didn't understand that command with sufficient confidence. Try saying 'help' to see what I can do."].
Proof.
  assert (B : blank (lit " ?!  -- ")).
  { unfold blank. repeat constructor; vm_compute; tauto. }
  split; [exact B |].
  apply (blank_reply_is_unknown init None (lit " ?!  -- ") B).
Defined.
